(** * AppointmentBroker: the calendar tools and the agent graph

    A shallow embedding of [google_calendar_tools.py] (the two calendar tools)
    and of the agent graph of [app.py], with the properties of the free-slot
    sweep of [check_availability], of the error paths of both tools and of the
    routing function [should_continue].

    Modelling conventions.
    - The tools are read twice.  Modules [Time], [Sweep] and [Tools] read a
      [datetime] as the wall clock reading in microseconds since the epoch
      with an optional fixed UTC offset, let the clock run without bound and
      let [print] always return; the properties stated over them are about
      runs on which zones, the range of [datetime] and standard output play
      no part.  Modules [Zoned], [ZSweep], [ZTools] and [ZCalendar] read a
      zone as the [tzinfo] object the code attaches, whose offset depends on
      the wall clock reading and on [fold]: [datetime + timedelta] adds to
      the wall clock, resets [fold] and raises [OverflowError] outside the
      years 1..9999; two values of the same zone object are compared by wall
      clock, others by [wall - offset]; an exception carries its text, and
      [print] is a call that may raise.  [sweep_agrees] relates the two
      readings.
    - The source appends the rendered label of a slot to [available_slots];
      here the list holds the pair [(current_time, slot_end)] the label is
      rendered from, and [slot_label] renders it when the answer is built.
    - Calls that leave the program (dateutil, tzlocal, the zone database,
      the calendar provider, standard output, the language model) are
      section variables; exceptions are values of [outcome] and of
      [result]. *)

From Stdlib Require Import ZArith List Lia String Ascii Bool Sorted.
From stdpp Require Import gmap strings.
Import ListNotations.

Local Open Scope Z_scope.

(** ** Time *)

Module Time.

(** [dt.timedelta(hours=h)], in microseconds. *)
Definition timedelta_hours (h : Z) : Z := h * 3600000000.

Definition HOUR : Z := timedelta_hours 1.

Record datetime := mk_datetime {
  wall : Z;              (* local wall clock, microseconds since the epoch *)
  tzinfo : option Z      (* UTC offset in microseconds; [None] for a naive value *)
}.

(** The key Python compares datetimes by: the UTC instant of an aware
    value, the wall clock of a naive one. *)
Definition instant (d : datetime) : Z :=
  match tzinfo d with
  | Some off => wall d - off
  | None => wall d
  end.

(** [d + delta] *)
Definition dt_add (d : datetime) (delta : Z) : datetime :=
  {| wall := wall d + delta; tzinfo := tzinfo d |}.

(** [d.replace(tzinfo=tz)] *)
Definition replace_tzinfo (d : datetime) (tz : Z) : datetime :=
  {| wall := wall d; tzinfo := Some tz |}.

(** [max(a, b)]: Python keeps the first argument unless the second is
    strictly greater. *)
Definition dt_max (a b : datetime) : datetime :=
  if instant a <? instant b then b else a.

(** Both naive or both aware: the comparisons Python accepts. *)
Definition comparable (a b : datetime) : bool :=
  match tzinfo a, tzinfo b with
  | Some _, Some _ | None, None => true
  | _, _ => false
  end.

(** *** [strftime('%I:%M %p')] *)

Definition digit (n : Z) : ascii := ascii_of_nat (48 + Z.to_nat (n mod 10)).

Definition two_digits (n : Z) : string :=
  String (digit (n / 10)) (String (digit n) EmptyString).

Definition hour_of_day (d : datetime) : Z := (wall d / HOUR) mod 24.
Definition minute_of_hour (d : datetime) : Z := (wall d / 60000000) mod 60.

(** [%I]: the hour on the 12-hour clock, 01..12. *)
Definition hour12 (h : Z) : Z := if h mod 12 =? 0 then 12 else h mod 12.

Definition strftime_I_M_p (d : datetime) : string :=
  (two_digits (hour12 (hour_of_day d)) ++ ":" ++ two_digits (minute_of_hour d)
     ++ " " ++ (if (hour_of_day d <? 12)%Z then "AM" else "PM"))%string.

(** A clock reading [h:m] of day 0 in zone [off], and without a zone. *)
Definition at_clock (off h m : Z) : datetime :=
  {| wall := h * HOUR + m * 60000000; tzinfo := Some off |}.

Definition naive_clock (h m : Z) : datetime :=
  {| wall := h * HOUR + m * 60000000; tzinfo := None |}.

End Time.

Import Time.

(** ** The free-slot sweep (lines 69-84 of [check_availability]) *)

Module Sweep.

Definition slot : Type := datetime * datetime.
Definition busy_interval : Type := datetime * datetime.

(** The two variables the sweep assigns. *)
Record locals := mk_locals {
  available_slots : list slot;
  current_time : datetime
}.

(** Body of both [while] loops:
    [slot_end = current_time + 1h; available_slots.append(...);
     current_time += 1h]. *)
Definition emit_slot (st : locals) : locals :=
  let slot_end := dt_add (current_time st) HOUR in
  {| available_slots := available_slots st ++ [(current_time st, slot_end)];
     current_time := dt_add (current_time st) HOUR |}.

(** [while current_time + timedelta(hours=1) <= limit: ...], unrolled
    [fuel] times. *)
Fixpoint while_slot_fits (fuel : nat) (limit : datetime) (st : locals) : locals :=
  match fuel with
  | O => st
  | S fuel' =>
      if instant (dt_add (current_time st) HOUR) <=? instant limit
      then while_slot_fits fuel' limit (emit_slot st)
      else st
  end.

(** The number of whole hours between the cursor and the limit: the loop
    cannot run longer (see [emit_until_unfold] and [emit_until_exit]). *)
Definition iterations (cur limit : datetime) : nat :=
  Z.to_nat ((instant limit - instant cur) / HOUR).

Definition emit_until (limit : datetime) (st : locals) : locals :=
  while_slot_fits (iterations (current_time st) limit) limit st.

(** Lines 73-78: the part of the [for] body before the event's end is read. *)
Definition before_event (event_start : datetime) (st : locals) : locals :=
  if instant (current_time st) <? instant event_start
  then emit_until event_start st
  else st.

(** Line 79: [current_time = max(current_time, event_end)]. *)
Definition after_event (event_end : datetime) (st : locals) : locals :=
  {| available_slots := available_slots st;
     current_time := dt_max (current_time st) event_end |}.

(** Lines 72-79 over already parsed events. *)
Fixpoint for_each_busy (busy : list busy_interval) (st : locals) : locals :=
  match busy with
  | [] => st
  | (event_start, event_end) :: rest =>
      for_each_busy rest (after_event event_end (before_event event_start st))
  end.

(** Lines 69-84 as a transformer of the locals: whatever they held before,
    lines 69-70 reset them. *)
Definition free_slot_sweep (start_dt end_dt : datetime)
    (busy : list busy_interval) (st : locals) : locals :=
  let st := {| available_slots := []; current_time := start_dt |} in
  let st := for_each_busy busy st in
  emit_until end_dt st.

Definition free_slots (start_dt end_dt : datetime)
    (busy : list busy_interval) : list slot :=
  available_slots
    (free_slot_sweep start_dt end_dt busy
       {| available_slots := []; current_time := start_dt |}).

(** The label line 77 / 83 appends for a slot. *)
Definition slot_label (s : slot) : string :=
  (strftime_I_M_p (fst s) ++ " - " ++ strftime_I_M_p (snd s))%string.

End Sweep.

Import Sweep.

(** ** Exceptions and provider calls *)

Module Effects.

(** The subclasses of [Exception] the tools can meet. *)
Inductive exn :=
| ParserError
| OverflowError
| TypeError
| KeyError (key : string)
| IndexError
| AttributeError (name : string)
| HttpError (status : Z)
| RefreshError
| GraphRecursionError
| OtherException (name : string).

Inductive outcome (A : Type) :=
| Return (a : A)
| Raise (e : exn).
Arguments Return {A} a.
Arguments Raise {A} e.

Definition bind_outcome {A B} (m : outcome A) (k : A -> outcome B) : outcome B :=
  match m with
  | Return a => k a
  | Raise e => Raise e
  end.

(** The body sent to [events.insert]. *)
Record time_ref := mk_time_ref { dateTime : string; timeZone : string }.
Record event_body := mk_event_body {
  body_summary : string;
  body_description : string;
  body_start : time_ref;
  body_end : time_ref
}.

(** What the tools do outside the process, in the order they do it. *)
Inductive call :=
| GetCalendarService
| EventsList (timeMin timeMax : string)
| EventsInsert (body : event_body)
| PrintError (where_ : string) (e : exn).

(** Computations that may raise and that log their calls. *)
Definition M (A : Type) : Type := list call -> outcome A * list call.

Definition ret {A} (a : A) : M A := fun log => (Return a, log).

Definition bind {A B} (m : M A) (k : A -> M B) : M B :=
  fun log =>
    match m log with
    | (Return a, log') => k a log'
    | (Raise e, log') => (Raise e, log')
    end.

(** A computation without calls. *)
Definition lift {A} (o : outcome A) : M A := fun log => (o, log).

(** An outside call with the given result. *)
Definition perform {A} (c : call) (result : outcome A) : M A :=
  fun log => (result, log ++ [c]).

(** [try: body  except Exception as e: handler(e)] *)
Definition try_except {A} (body : M A) (handler : exn -> M A) : M A :=
  fun log =>
    match body log with
    | (Return a, log') => (Return a, log')
    | (Raise e, log') => handler e log'
    end.

End Effects.

Import Effects.

Declare Scope outcome_scope.
Delimit Scope outcome_scope with outcome.
Notation "'let!' x ':=' m 'in' k" := (bind_outcome m (fun x => k))
  (at level 10, x name, m at level 200, k at level 200) : outcome_scope.

Declare Scope tool_scope.
Delimit Scope tool_scope with tool.
Notation "'let!' x ':=' m 'in' k" := (bind m (fun x => k))
  (at level 10, x name, m at level 200, k at level 200) : tool_scope.

(** ** The two tools *)

Module Tools.

(** An event of [events.list]: the object fields that are objects
    themselves ([start], [end]), each with its string fields. *)
Abbreviation event := (gmap string (gmap string string)).

(** The reply of [events.list]; [items] may be absent. *)
Record events_result := mk_events_result { items : option (list event) }.

(** [d[key]] *)
Definition subscript {V} (d : gmap string V) (key : string) : outcome V :=
  match d !! key with
  | Some v => Return v
  | None => Raise (KeyError key)
  end.

(** [a < b] *)
Definition dt_lt (a b : datetime) : outcome bool :=
  if comparable a b then Return (instant a <? instant b) else Raise TypeError.

(** [max(a, b)], which evaluates [b > a]. *)
Definition dt_max_py (a b : datetime) : outcome datetime :=
  if comparable a b then Return (dt_max a b) else Raise TypeError.

Definition error_message_check : string :=
  "An error occurred while checking the calendar. Please try again or specify a different time.".

Definition error_message_book : string :=
  "An error occurred while booking the appointment. Please check the details and try again.".

Definition no_slots_message : string :=
  "No 1-hour slots are available in the requested timeframe.".

Definition entire_period_message (start_dt end_dt : datetime) : string :=
  ("The entire period from " ++ strftime_I_M_p start_dt ++ " to "
     ++ strftime_I_M_p end_dt ++ " is free. Suggest 1-hour slots.")%string.

Definition slots_message (slots : list slot) : string :=
  ("Here are the available 1-hour slots: "
     ++ String.concat ", " (map slot_label slots)
     ++ ". Please suggest these to the user.")%string.

Section Collaborators.

(** [dateutil.parser.parse] on a string. *)
Variable date_parse : string -> outcome datetime.
(** [tzlocal.get_localzone()], and [str] of it. *)
Variable get_localzone : Z.
Variable local_tz_name : string.
(** [datetime.isoformat()] and [strftime('%A, %B %d at %I:%M %p')]. *)
Variable isoformat : datetime -> string.
Variable strftime_A_B_d_I_M_p : datetime -> string.
(** What [get_calendar_service()], [events().list(...).execute()] and
    [events().insert(...).execute()] come back with. *)
Variable get_calendar_service : outcome unit.
Variable events_list : string -> string -> outcome events_result.
Variable events_insert : event_body -> outcome (gmap string string).

(** [date_parse(x)] where [x] is the result of [dict.get]: dateutil
    rejects [None] with a [TypeError]. *)
Definition date_parse_py (x : option string) : outcome datetime :=
  match x with
  | Some s => date_parse s
  | None => Raise TypeError
  end.

(** Lines 45-48 and 104-107. *)
Definition localize (d : datetime) : datetime :=
  match tzinfo d with
  | None => replace_tzinfo d get_localzone
  | Some _ => d
  end.

(** Lines 73-79, the body of the [for] loop.  The comparisons of lines
    74 and 79 raise on a naive event time; those of the inner [while]
    then compare values of the same two kinds and cannot. *)
Definition for_body (event : event) (st : locals) : outcome locals :=
  (let! start_obj := subscript event "start" in
   let! event_start := date_parse_py (start_obj !! "dateTime") in
   let! is_before := dt_lt (current_time st) event_start in
   let st := if is_before : bool then emit_until event_start st else st in
   let! end_obj := subscript event "end" in
   let! event_end := date_parse_py (end_obj !! "dateTime") in
   let! cur := dt_max_py (current_time st) event_end in
   Return {| available_slots := available_slots st; current_time := cur |})%outcome.

(** Lines 72-79. *)
Fixpoint for_each_event (busy_slots : list event) (st : locals) : outcome locals :=
  match busy_slots with
  | [] => Return st
  | event :: rest =>
      (let! st := for_body event st in for_each_event rest st)%outcome
  end.

Definition check_availability (start_time end_time : string) : M string :=
  try_except
    (let! _ := perform GetCalendarService get_calendar_service in
     let! start_dt := lift (date_parse start_time) in
     let! end_dt := lift (date_parse end_time) in
     let start_dt := localize start_dt in
     let end_dt := localize end_dt in
     let start_iso := isoformat start_dt in
     let end_iso := isoformat end_dt in
     let! events_result := perform (EventsList start_iso end_iso)
                        (events_list start_iso end_iso) in
     let busy_slots := default [] (items events_result) in
     match busy_slots with
     | [] => ret (entire_period_message start_dt end_dt)
     | _ :: _ =>
         let st := {| available_slots := []; current_time := start_dt |} in
         let! st := lift (for_each_event busy_slots st) in
         let st := emit_until end_dt st in
         match available_slots st with
         | [] => ret no_slots_message
         | _ :: _ => ret (slots_message (available_slots st))
         end
     end)%tool
    (fun e =>
       (let! _ := perform (PrintError "check_availability" e) (Return tt) in
        ret error_message_check)%tool).

(** [created_event.get('htmlLink')] inside the f-string. *)
Definition html_link (created_event : gmap string string) : string :=
  match created_event !! "htmlLink" with
  | Some link => link
  | None => "None"
  end.

Definition success_message (summary : string) (start_dt : datetime)
    (created_event : gmap string string) : string :=
  ("Success! The appointment '" ++ summary ++ "' has been booked for "
     ++ strftime_A_B_d_I_M_p start_dt ++ ". The event link is: "
     ++ html_link created_event)%string.

Definition booking_body (start_dt end_dt : datetime)
    (summary description : string) : event_body :=
  {| body_summary := summary;
     body_description := description;
     body_start := {| dateTime := isoformat start_dt; timeZone := local_tz_name |};
     body_end := {| dateTime := isoformat end_dt; timeZone := local_tz_name |} |}.

Definition book_appointment (start_time end_time summary description : string)
    : M string :=
  try_except
    (let! _ := perform GetCalendarService get_calendar_service in
     let! start_dt := lift (date_parse start_time) in
     let! end_dt := lift (date_parse end_time) in
     let start_dt := localize start_dt in
     let end_dt := localize end_dt in
     let event := booking_body start_dt end_dt summary description in
     let! created_event := perform (EventsInsert event) (events_insert event) in
     ret (success_message summary start_dt created_event))%tool
    (fun e =>
       (let! _ := perform (PrintError "book_appointment" e) (Return tt) in
        ret error_message_book)%tool).

End Collaborators.

End Tools.

Import Tools.

(** ** The agent graph of [app.py] *)

Module Agent.

Record tool_call := mk_tool_call {
  tool_name : string;
  tool_args : list (string * string);
  tool_call_id : string
}.

Inductive BaseMessage :=
| HumanMessage (content : string)
| AIMessage (content : string) (tool_calls : list tool_call)
| ToolMessage (content : string) (call_id : string).

Definition content_of (m : BaseMessage) : string :=
  match m with
  | HumanMessage c | AIMessage c _ | ToolMessage c _ => c
  end.

Record AgentState := mk_state { messages : list BaseMessage }.

(** The reducer of [messages]: [lambda x, y: x + y]. *)
Definition add_messages (state : AgentState) (update : list BaseMessage) : AgentState :=
  {| messages := messages state ++ update |}.

(** [l[-1]] *)
Definition last_item {A} (l : list A) : outcome A :=
  match rev l with
  | x :: _ => Return x
  | [] => Raise IndexError
  end.

(** [m.tool_calls]: only an [AIMessage] has the attribute. *)
Definition get_tool_calls (m : BaseMessage) : outcome (list tool_call) :=
  match m with
  | AIMessage _ calls => Return calls
  | _ => Raise (AttributeError "tool_calls")
  end.

Definition should_continue (state : AgentState) : outcome string :=
  (let! last_message := last_item (messages state) in
   let! calls := get_tool_calls last_message in
   match calls with
   | _ :: _ => Return "action"
   | [] => Return "end"
   end)%outcome.

Inductive node := agent | action.
Inductive target := Node (n : node) | END.

Definition entry_point : node := agent.

(** [{"action": "action", "end": END}] *)
Definition path_map : list (string * target) :=
  [("action", Node action); ("end", END)].

Fixpoint lookup_path (label : string) (m : list (string * target)) : outcome target :=
  match m with
  | [] => Raise (KeyError label)
  | (l, t) :: rest => if String.eqb label l then Return t else lookup_path label rest
  end.

(** Where the graph goes after a node has run: the conditional edges of
    [agent], the plain edge of [action]. *)
Definition next_target (n : node) (state : AgentState) : outcome target :=
  match n with
  | agent =>
      (let! label := should_continue state in lookup_path label path_map)%outcome
  | action => Return (Node agent)
  end.

Section Graph.

(** [agent_runnable.invoke(state)] and the prebuilt [ToolNode]. *)
Variable agent_runnable : AgentState -> outcome BaseMessage.
Variable tool_node : AgentState -> outcome (list BaseMessage).

Definition run_agent (state : AgentState) : outcome (list BaseMessage) :=
  (let! response := agent_runnable state in Return [response])%outcome.

Definition run_node (n : node) (state : AgentState) : outcome (list BaseMessage) :=
  match n with
  | agent => run_agent state
  | action => tool_node state
  end.

(** [agent_app.astream]: the updates in the order the nodes produce
    them, and how the run ends.  [steps] bounds the number of node runs
    (the framework's recursion limit). *)
Fixpoint astream (steps : nat) (n : node) (state : AgentState)
    : list (node * list BaseMessage) * outcome AgentState :=
  match steps with
  | O => ([], Raise GraphRecursionError)
  | S steps' =>
      match run_node n state with
      | Raise e => ([], Raise e)
      | Return update =>
          let state' := add_messages state update in
          match next_target n state' with
          | Raise e => ([(n, update)], Raise e)
          | Return END => ([(n, update)], Return state')
          | Return (Node n') =>
              let (events, result) := astream steps' n' state' in
              ((n, update) :: events, result)
          end
      end
  end.

(** [get_response] of the chat shell (lines 138-142): the content of the
    last message of the last update, which must come from [agent]. *)
Definition get_response (steps : nat) (inputs : AgentState) : outcome string :=
  let (events, result) := astream steps entry_point inputs in
  (let! _ := result in
   let! final_state := last_item events in
   match final_state with
   | (agent, update) =>
       let! m := last_item update in Return (content_of m)
   | (action, _) => Raise (KeyError "agent")
   end)%outcome.

(** The nodes a run visits, in order. *)
Definition visited (steps : nat) (inputs : AgentState) : list node :=
  map fst (fst (astream steps entry_point inputs)).

End Graph.

End Agent.

(** ** Concrete collaborators for the examples *)

Module Fixture.

Definition digit_value (c : ascii) : option Z :=
  let n := Z.of_nat (nat_of_ascii c) in
  if (48 <=? n) && (n <=? 57) then Some (n - 48) else None.

Definition two_digit_value (a b : ascii) : option Z :=
  match digit_value a, digit_value b with
  | Some x, Some y => Some (10 * x + y)
  | _, _ => None
  end.

(** A parser for the clock readings [HH:MM] (naive) and [HH:MMZ] (UTC);
    everything else is unparseable. *)
Definition parse_clock (s : string) : outcome datetime :=
  match s with
  | String h1 (String h2 (String ":" (String m1 (String m2 rest)))) =>
      match two_digit_value h1 h2, two_digit_value m1 m2 with
      | Some h, Some m =>
          match rest with
          | EmptyString => Return (naive_clock h m)
          | String "Z" EmptyString => Return (at_clock 0 h m)
          | _ => Raise ParserError
          end
      | _, _ => Raise ParserError
      end
  | _ => Raise ParserError
  end.

(** An event with the given [dateTime] strings. *)
Definition timed_event (start_s end_s : string) : event :=
  {[ "start" := {[ "dateTime" := start_s ]}; "end" := {[ "dateTime" := end_s ]} ]}.

(** An all-day event: [date] only. *)
Definition all_day_event (day : string) : event :=
  {[ "start" := {[ "date" := day ]}; "end" := {[ "date" := day ]} ]}.

(** A provider whose calendar holds [events]. *)
Definition calendar_with (events : list event) (timeMin timeMax : string)
    : outcome events_result :=
  Return {| items := Some events |}.

Definition accept_insert (body : event_body) : outcome (gmap string string) :=
  Return {[ "htmlLink" := "https://calendar.example/event" ]}.

(** A provider that rejects an empty time range as the real one does. *)
Definition reject_insert (body : event_body) : outcome (gmap string string) :=
  Raise (HttpError 400).

(** The tools over these collaborators: the local zone is UTC, and
    [isoformat] and the long date format are rendered as clock readings. *)
Definition check (events : list event) (start_time end_time : string) : M string :=
  check_availability parse_clock 0 strftime_I_M_p (Return tt)
    (calendar_with events) start_time end_time.

Definition book (insert : event_body -> outcome (gmap string string))
    (start_time end_time summary : string) : M string :=
  book_appointment parse_clock 0 "UTC" strftime_I_M_p strftime_I_M_p (Return tt)
    insert start_time end_time summary "".

(** A model that answers in plain text, and a tool node never reached. *)
Definition plain_model (reply : string) (state : Agent.AgentState)
    : outcome Agent.BaseMessage :=
  Return (Agent.AIMessage reply []).

Definition idle_tool_node (state : Agent.AgentState)
    : outcome (list Agent.BaseMessage) :=
  Return [].

End Fixture.

(** ** Credentials and the files of the working directory

    [get_calendar_service] of [google_calendar_tools.py],
    [generate_google_token] of [generate_token.py] and
    [setup_google_credentials] of [app.py].  The files are a map from names
    to contents; writing a file always succeeds.  The credential objects and
    the calls on them belong to the Google libraries and are variables. *)

Module Credentials.

Abbreviation files := (gmap string string).

(** What this code does outside the process, files apart. *)
Inductive effect :=
| Refresh
| RunLocalServer
| Build
| PrintLine (text : string)
| StError (text : string).

Record world := mk_world { fs : files; effects : list effect }.

Definition W (A : Type) : Type := world -> outcome A * world.

Definition ret_w {A} (a : A) : W A := fun w => (Return a, w).

Definition bind_w {A B} (m : W A) (k : A -> W B) : W B :=
  fun w =>
    match m w with
    | (Return a, w') => k a w'
    | (Raise e, w') => (Raise e, w')
    end.

Definition lift_w {A} (o : outcome A) : W A := fun w => (o, w).

(** An outside call with the given result. *)
Definition effect_w {A} (e : effect) (result : outcome A) : W A :=
  fun w => (result, {| fs := fs w; effects := effects w ++ [e] |}).

(** [try: body  except Exception as e: handler(e)] *)
Definition try_w {A} (body : W A) (handler : exn -> W A) : W A :=
  fun w =>
    match body w with
    | (Return a, w') => (Return a, w')
    | (Raise e, w') => handler e w'
    end.

(** [os.path.exists(path)] *)
Definition path_exists (path : string) : W bool :=
  fun w => (Return (match fs w !! path with Some _ => true | None => false end), w).

(** Reading the file a library call is pointed at. *)
Definition read_file (path : string) : W string :=
  fun w =>
    match fs w !! path with
    | Some text => (Return text, w)
    | None => (Raise (OtherException "FileNotFoundError"), w)
    end.

(** [with open(path, "w") as f: f.write(text)] *)
Definition write_file (path text : string) : W unit :=
  fun w => (Return tt, {| fs := <[path := text]> (fs w); effects := effects w |}).

Definition print (text : string) : W unit := effect_w (PrintLine text) (Return tt).

(** The truth value of [creds.refresh_token]: a non-empty string. *)
Definition truthy (s : option string) : bool :=
  match s with
  | Some (String _ _) => true
  | _ => false
  end.

Definition newline : string := String "010"%char EmptyString.

End Credentials.

Import Credentials.

Declare Scope world_scope.
Delimit Scope world_scope with world.
Notation "'let!' x ':=' m 'in' k" := (bind_w m (fun x => k))
  (at level 10, x name, m at level 200, k at level 200) : world_scope.

Module Auth.

Section Google.

Variables creds flow service : Type.
(** [Credentials.from_authorized_user_file] and
    [InstalledAppFlow.from_client_secrets_file], on the text of the file. *)
Variable from_authorized_user_file : string -> outcome creds.
Variable from_client_secrets_file : string -> outcome flow.
(** [creds.valid], [creds.expired], [creds.refresh_token], [creds.to_json()]. *)
Variable valid : creds -> bool.
Variable expired : creds -> bool.
Variable refresh_token : creds -> option string.
Variable to_json : creds -> string.
(** [creds.refresh(Request())]: the credentials after the refresh. *)
Variable refresh : creds -> outcome creds.
(** [flow.run_local_server(port=0)] and [build("calendar", "v3", ...)]. *)
Variable run_local_server : flow -> outcome creds.
Variable build : creds -> outcome service.
(** [str(e)] *)
Variable str_exn : exn -> string.

(** Lines 26-27 of [google_calendar_tools.py]: the interactive flow. *)
Definition login : W creds :=
  (let! text := read_file "credentials.json" in
   let! flow := lift_w (from_client_secrets_file text) in
   effect_w RunLocalServer (run_local_server flow))%world.

(** Lines 23-29: refresh or log in again, then store the token. *)
Definition renew (stored : option creds) : W creds :=
  (let! fresh :=
     match stored with
     | Some c =>
         if expired c && truthy (refresh_token c)
         then effect_w Refresh (refresh c)
         else login
     | None => login
     end in
   let! _ := write_file "token.json" (to_json fresh) in
   ret_w fresh)%world.

(** Lines 17-31 of [google_calendar_tools.py]. *)
Definition get_calendar_service : W service :=
  (let! has_token := path_exists "token.json" in
   let! stored :=
     if has_token : bool
     then (let! text := read_file "token.json" in
           let! c := lift_w (from_authorized_user_file text) in
           ret_w (Some c))
     else ret_w None in
   let! creds :=
     match stored with
     | Some c => if valid c then ret_w c else renew stored
     | None => renew stored
     end in
   effect_w Build (build creds))%world.

Definition missing_credentials_text : string :=
  "Error: credentials.json file not found. Please download it from your Google Cloud Console.".

Definition token_created_text : string :=
  (newline ++ "SUCCESS! 'token.json' has been created successfully.")%string.

Definition auth_failed_text (e : exn) : string :=
  (newline ++ "An error occurred during the authentication process: " ++ str_exn e)%string.

(** Lines 12-43 of [generate_token.py]. *)
Definition generate_google_token : W unit :=
  (let! has_credentials := path_exists "credentials.json" in
   if negb has_credentials
   then print missing_credentials_text
   else
     try_w
       (let! _ := print "Starting Google Authentication flow..." in
        let! _ := print "A browser window will open for you to log in and grant permissions." in
        let! creds := login in
        let! _ := write_file "token.json" (to_json creds) in
        let! _ := print token_created_text in
        print "You can now close this script and proceed with the deployment steps.")
       (fun e => print (auth_failed_text e)))%world.

End Google.

(** [st.secrets]: absent altogether, or sections of keys. *)
Definition secrets_store : Type := option (gmap string (gmap string string)).

(** [st.secrets[section][key]] *)
Definition secret (secrets : secrets_store) (section key : string) : outcome string :=
  match secrets with
  | None => Raise (OtherException "FileNotFoundError")
  | Some sections =>
      (let! table := subscript sections section in subscript table key)%outcome
  end.

(** How the script goes on after [setup_google_credentials]. *)
Inductive script := Continue | Stop.

(** The exceptions [except (KeyError, FileNotFoundError)] catches. *)
Definition key_or_file_error (e : exn) : bool :=
  match e with
  | KeyError _ => true
  | OtherException name => String.eqb name "FileNotFoundError"
  | _ => false
  end.

Definition secrets_missing_text : string :=
  "Google credentials or token not found. Please configure them for deployment.".

(** Lines 83-95 of [app.py]. *)
Definition setup_google_credentials (secrets : secrets_store) : W script :=
  (let! has_credentials := path_exists "credentials.json" in
   let! has_token := path_exists "token.json" in
   if has_credentials && has_token
   then ret_w Continue
   else
     fun w =>
       match
         (let! creds_json_str := lift_w (secret secrets "gcp_service_account" "credentials") in
          let! token_json_str := lift_w (secret secrets "gcp_service_account" "token") in
          let! _ := write_file "credentials.json" creds_json_str in
          let! _ := write_file "token.json" token_json_str in
          ret_w Continue) w
       with
       | (Return r, w') => (Return r, w')
       | (Raise e, w') =>
           if key_or_file_error e
           then effect_w (StError secrets_missing_text) (Return Stop) w'
           else (Raise e, w')
       end)%world.

End Auth.

(** ** The chat shell of [app.py] (lines 105-151)

    The session keeps the list of shown messages; what is drawn on the page
    is not modelled. *)

Module Shell.

Record chat_entry := mk_entry { role : string; content : string }.

Definition greeting : chat_entry :=
  {| role := "assistant";
     content := "Hello! How can I help you schedule an appointment today?" |}.

(** Lines 105-106: [st.session_state.messages], set on first use. *)
Definition session_messages (stored : option (list chat_entry)) : list chat_entry :=
  match stored with
  | None => [greeting]
  | Some messages => messages
  end.

(** Lines 126-132: the entry as a LangChain message, if its role is known. *)
Definition as_message (msg : chat_entry) : list Agent.BaseMessage :=
  if String.eqb (role msg) "user" then [Agent.HumanMessage (content msg)]
  else if String.eqb (role msg) "assistant" then [Agent.AIMessage (content msg) []]
  else [].

Definition to_history (messages : list chat_entry) : list Agent.BaseMessage :=
  flat_map as_message messages.

Definition unexpected_error_text (described : string) : string :=
  ("An unexpected error occurred: " ++ described)%string.

Section Turn.

Variable agent_runnable : Agent.AgentState -> outcome Agent.BaseMessage.
Variable tool_node : Agent.AgentState -> outcome (list Agent.BaseMessage).
Variable recursion_limit : nat.
Variable str_exn : exn -> string.

(** Lines 138-151: the answer shown for a history. *)
Definition respond (history : list Agent.BaseMessage) : string :=
  match Agent.get_response agent_runnable tool_node recursion_limit
          {| Agent.messages := history |} with
  | Return response_text => response_text
  | Raise e => unexpected_error_text (str_exn e)
  end.

(** Lines 115-151: one run of the script on what [st.chat_input] returned;
    [None] and the empty string are false. *)
Definition chat_turn (prompt : option string) (messages : list chat_entry)
    : list chat_entry :=
  match prompt with
  | Some (String c rest) =>
      let prompt := String c rest in
      let messages := messages ++ [{| role := "user"; content := prompt |}] in
      let history := to_history messages in
      messages ++ [{| role := "assistant"; content := respond history |}]
  | _ => messages
  end.

End Turn.

End Shell.

(** ** Vocabulary of the properties *)

Module Props.

(** The half-open stretch of the time line between two datetimes. *)
Definition span (iv : datetime * datetime) : Z * Z :=
  (instant (fst iv), instant (snd iv)).

Definition covers (iv : Z * Z) (t : Z) : Prop := fst iv <= t < snd iv.

Definition overlaps (a b : Z * Z) : Prop := exists t, covers a t /\ covers b t.

Definition one_hour (s : slot) : Prop :=
  snd (span s) - fst (span s) = HOUR /\ snd s = dt_add (fst s) HOUR.

(** Each slot ends before the next ones start: ordered and pairwise
    disjoint. *)
Definition ordered_disjoint (slots : list slot) : Prop :=
  StronglySorted (fun a b => snd (span a) <= fst (span b)) slots.

Definition sorted_by_start (busy : list busy_interval) : Prop :=
  Sorted (fun a b => fst (span a) <= fst (span b)) busy.

(** [window_start <= start] and [end <= window_end]. *)
Definition within (start_dt end_dt : datetime) (iv : Z * Z) : Prop :=
  instant start_dt <= fst iv /\ snd iv <= instant end_dt.

(** A busy interval fully inside the window. *)
Definition inside (start_dt end_dt : datetime) (b : busy_interval) : Prop :=
  instant start_dt <= fst (span b) /\ fst (span b) <= snd (span b)
  /\ snd (span b) <= instant end_dt.

(** What [events.list] with [timeMax] guarantees: the event starts no
    later than the window ends. *)
Definition starts_by (end_dt : datetime) (b : busy_interval) : Prop :=
  fst (span b) <= instant end_dt.

Definition window_instants (start_dt end_dt : datetime) (t : Z) : Prop :=
  instant start_dt <= t < instant end_dt.

(** The stretch from [a] to [b] when it is not empty. *)
Definition gap (a b : Z) : list (Z * Z) := if a <? b then [(a, b)] else [].

(** The stretches the sweep skips without emitting a slot: what is left
    between the cursor and an event's start when the inner [while] exits,
    and between the cursor and the window's end after the last [while]. *)
Fixpoint remainders (busy : list busy_interval) (end_dt : datetime) (st : locals)
    : list (Z * Z) :=
  match busy with
  | [] => gap (instant (current_time (emit_until end_dt st))) (instant end_dt)
  | (event_start, event_end) :: rest =>
      let st1 := before_event event_start st in
      gap (instant (current_time st1)) (instant event_start)
        ++ remainders rest end_dt (after_event event_end st1)
  end.

Definition gaps (start_dt end_dt : datetime) (busy : list busy_interval) : list (Z * Z) :=
  remainders busy end_dt {| available_slots := []; current_time := start_dt |}.

(** The cursor after [n] slots, and the [k]-th slot of a tiling from [c]. *)
Definition hop (n : nat) (c : datetime) : datetime := dt_add c (Z.of_nat n * HOUR).

Definition tile (c : datetime) (k : nat) : slot := (hop k c, hop (S k) c).

Definition tiling (n : nat) (c : datetime) : list slot := map (tile c) (seq 0 n).

(** The slots the code appends from cursor [c] on, in closed form. *)
Fixpoint sweep_from (c : datetime) (busy : list busy_interval) (end_dt : datetime)
    : list slot :=
  match busy with
  | [] => tiling (iterations c end_dt) c
  | (event_start, event_end) :: rest =>
      let n := iterations c event_start in
      tiling n c ++ sweep_from (dt_max (hop n c) event_end) rest end_dt
  end.

(** The guarantee on the emitted slots. *)
Definition clear_of (slots : list slot) (busy : list busy_interval) : Prop :=
  forall s b, In s slots -> In b busy -> ~ overlaps (span s) (span b).

Definition sound_slots (start_dt end_dt : datetime) (busy : list busy_interval)
    (slots : list slot) : Prop :=
  ordered_disjoint slots
  /\ Forall one_hour slots
  /\ clear_of slots busy
  /\ Forall (fun s => within start_dt end_dt (span s)) slots.

(** Slots, busy intervals and remainders together make up the window;
    the remainders are shorter than an hour and meet nothing else. *)
Definition covered (slots : list slot) (busy : list busy_interval)
    (rem : list (Z * Z)) (t : Z) : Prop :=
  (exists s, In s slots /\ covers (span s) t)
  \/ (exists b, In b busy /\ covers (span b) t)
  \/ (exists g, In g rem /\ covers g t).

Definition fills_window (start_dt end_dt : datetime) (slots : list slot)
    (busy : list busy_interval) (rem : list (Z * Z)) : Prop :=
  forall t, window_instants start_dt end_dt t <-> covered slots busy rem t.

Definition short_remainders (rem : list (Z * Z)) : Prop :=
  Forall (fun g => 0 < snd g - fst g < HOUR) rem.

Definition remainders_apart (slots : list slot) (busy : list busy_interval)
    (rem : list (Z * Z)) : Prop :=
  forall g, In g rem ->
    (forall s, In s slots -> ~ overlaps g (span s))
    /\ (forall b, In b busy -> ~ overlaps g (span b)).

(** The number of whole hours in the window. *)
Definition whole_hours (start_dt end_dt : datetime) : nat :=
  Z.to_nat ((instant end_dt - instant start_dt) / HOUR).

(** An event whose [start] or [end] object has no [dateTime]. *)
Definition lacks_dateTime (ev : event) : Prop :=
  (exists o, ev !! "start" = Some o /\ o !! "dateTime" = None)
  \/ (exists o, ev !! "end" = Some o /\ o !! "dateTime" = None).

End Props.

Import Props.

(** ** Further concrete collaborators for the examples *)

Module Samples.

(** A provider that is down, and a model that is. *)
Definition failing_list (timeMin timeMax : string) : outcome events_result :=
  Raise (HttpError 503).

Definition failing_model (state : Agent.AgentState) : outcome Agent.BaseMessage :=
  Raise (HttpError 500).

Definition describe (e : exn) : string := "the model is unreachable".

(** Credentials reduced to what the code reads of them. *)
Record sample_creds := mk_sample {
  is_valid : bool;
  is_expired : bool;
  token_to_refresh : option string;
  json : string
}.

Definition load_token (text : string) : outcome sample_creds :=
  if String.eqb text "valid token"
  then Return {| is_valid := true; is_expired := false;
                 token_to_refresh := Some "refresh me"%string; json := text |}
  else if String.eqb text "expired token"
  then Return {| is_valid := false; is_expired := true;
                 token_to_refresh := Some "refresh me"%string; json := text |}
  else Raise (OtherException "ValueError").

Definition load_client (text : string) : outcome string := Return text.

Definition refresh_sample (c : sample_creds) : outcome sample_creds :=
  Return {| is_valid := true; is_expired := false;
            token_to_refresh := token_to_refresh c; json := "refreshed token" |}.

Definition browser_login (flow : string) : outcome sample_creds :=
  Return {| is_valid := true; is_expired := false;
            token_to_refresh := Some "refresh me"%string; json := "valid token" |}.

(** A model that asks for a tool at every step, and a tool node that
    answers. *)
Definition insisting_model (state : Agent.AgentState) : outcome Agent.BaseMessage :=
  Return (Agent.AIMessage ""
            [{| Agent.tool_name := "check_availability";
                Agent.tool_args := [];
                Agent.tool_call_id := "call" |}]).

Definition answering_tool_node (state : Agent.AgentState)
    : outcome (list Agent.BaseMessage) :=
  Return [Agent.ToolMessage "No 1-hour slots are available in the requested timeframe." "call"].

Definition build_sample (c : sample_creds) : outcome string := Return (json c).

Definition service_sample : W string :=
  Auth.get_calendar_service sample_creds string string load_token load_client
    is_valid is_expired token_to_refresh json refresh_sample browser_login build_sample.

Definition generate_sample : W unit :=
  Auth.generate_google_token sample_creds string load_client json browser_login describe.

(** A working directory with the given token file only, and an empty one. *)
Definition token_only (text : string) : world :=
  {| fs := {[ "token.json"%string := text ]}; effects := [] |}.

Definition empty_directory : world := {| fs := ∅; effects := [] |}.

Definition both_files : world :=
  {| fs := {[ "credentials.json"%string := "client secrets"%string;
              "token.json"%string := "valid token"%string ]};
     effects := [] |}.

Definition full_secrets : Auth.secrets_store :=
  Some {[ "gcp_service_account"%string :=
            {[ "credentials"%string := "client secrets"%string;
               "token"%string := "valid token"%string ]} ]}.

Definition secrets_without_token : Auth.secrets_store :=
  Some {[ "gcp_service_account"%string :=
            {[ "credentials"%string := "client secrets"%string ]} ]}.

End Samples.

(** ** Vocabulary of the further properties *)

Module Shape.


(** The nodes of a run take turns, starting with [n]. *)
Definition other (n : Agent.node) : Agent.node :=
  match n with
  | Agent.agent => Agent.action
  | Agent.action => Agent.agent
  end.

Fixpoint alternates (n : Agent.node) (l : list Agent.node) : Prop :=
  match l with
  | [] => True
  | x :: rest => x = n /\ alternates (other n) rest
  end.

(** The roles the chat shell writes. *)
Definition known_role (msg : Shell.chat_entry) : Prop :=
  Shell.role msg = "user"%string \/ Shell.role msg = "assistant"%string.

(** No file but [path] differs between the two worlds. *)
Definition only_writes (path : string) (w w' : world) : Prop :=
  forall p, p <> path -> fs w' !! p = fs w !! p.

(** The effects of [w'] that [w] did not have yet. *)
Definition new_effects (w w' : world) (added : list effect) : Prop :=
  effects w' = effects w ++ added.

End Shape.

Import Shape.

(** * The tools with zones, the range of [datetime] and standard output

    The modules above read a zone as one fixed offset, let the clock run
    without bound and let [print] always succeed.  The modules below leave
    these three simplifications: a zone is a [tzinfo] object whose offset
    depends on the wall clock reading (daylight saving), [datetime +
    timedelta] raises [OverflowError] outside the years 1..9999, and [print]
    may raise.  [sweep_agrees] shows that both readings give the same slots
    where every zone has a constant offset and the times are not at the end
    of the range. *)

(** ** Datetimes as Python has them *)

Module Zoned.

Definition DAY : Z := 24 * HOUR.

(** [datetime.min] and [datetime.max], in microseconds since the epoch. *)
Definition MIN_WALL : Z := -62135596800000000.
Definition MAX_WALL : Z := 253402300799999999.

(** The wall clock fields, [fold], and the [tzinfo] object, named by what it
    is: two datetimes have the same object exactly when they have the same
    name. *)
Record datetime := mk_datetime {
  wall : Z;
  fold : bool;
  tzinfo : option string
}.

(** An exception: its class and [str(e)]. *)
Record exception := mk_exception { kind : exn; text : string }.

Inductive result (A : Type) :=
| Ok (a : A)
| Err (e : exception).
Arguments Ok {A} a.
Arguments Err {A} e.

Definition bind_result {A B} (m : result A) (k : A -> result B) : result B :=
  match m with
  | Ok a => k a
  | Err e => Err e
  end.

Definition type_error (message : string) : exception :=
  {| kind := TypeError; text := message |}.

(** The [ValueError] of an offset of a day or more; the wording of its text
    varies with the version of Python. *)
Definition offset_error : exception :=
  {| kind := OtherException "ValueError";
     text := "offset must be a timedelta strictly between -timedelta(hours=24) and timedelta(hours=24)." |}.

Definition range_error : exception :=
  {| kind := OverflowError; text := "date value out of range" |}.

Definition mixed_error : exception :=
  type_error "can't compare offset-naive and offset-aware datetimes".

(** [d.replace(tzinfo=tz)] *)
Definition replace_tzinfo (d : datetime) (tz : string) : datetime :=
  {| wall := wall d; fold := fold d; tzinfo := Some tz |}.

(** [d + delta]: wall clock arithmetic in the same zone, [fold] reset, and
    an error outside the range. *)
Definition add (d : datetime) (delta : Z) : result datetime :=
  let w := wall d + delta in
  if (MIN_WALL <=? w) && (w <=? MAX_WALL)
  then Ok {| wall := w; fold := false; tzinfo := tzinfo d |}
  else Err range_error.

(** The same [tzinfo] object, or none on both sides. *)
Definition same_tzinfo (a b : datetime) : bool :=
  match tzinfo a, tzinfo b with
  | None, None => true
  | Some x, Some y => String.eqb x y
  | _, _ => false
  end.

(** [strftime('%I:%M %p')] reads the wall clock only. *)
Definition strftime_I_M_p (d : datetime) : string :=
  Time.strftime_I_M_p {| Time.wall := wall d; Time.tzinfo := None |}.

Section Zones.

(** [tz.utcoffset(dt)] of the zone named [tz], from the wall clock reading
    and [fold] of [dt]. *)
Variable utcoffset_of : string -> Z -> bool -> Z.

(** [d.utcoffset()]: Python rejects an offset of a day or more. *)
Definition utcoffset (d : datetime) : result (option Z) :=
  match tzinfo d with
  | None => Ok None
  | Some tz =>
      let off := utcoffset_of tz (wall d) (fold d) in
      if (- DAY <? off) && (off <? DAY) then Ok (Some off) else Err offset_error
  end.

(** The three-way comparison behind [<], [<=] and [>]: values of the same
    object are compared by wall clock, others by wall clock less offset. *)
Definition compare (a b : datetime) : result comparison :=
  if same_tzinfo a b then Ok (wall a ?= wall b)
  else
    match utcoffset a with
    | Err e => Err e
    | Ok oa =>
        match utcoffset b with
        | Err e => Err e
        | Ok ob =>
            match oa, ob with
            | Some x, Some y => Ok ((wall a - x) ?= (wall b - y))
            | _, _ => Err mixed_error
            end
        end
    end.

Definition is_gt (c : comparison) : bool :=
  match c with Gt => true | _ => false end.
Definition is_lt (c : comparison) : bool :=
  match c with Lt => true | _ => false end.

(** [a < b], [a <= b] *)
Definition lt (a b : datetime) : result bool :=
  bind_result (compare a b) (fun c => Ok (is_lt c)).
Definition le (a b : datetime) : result bool :=
  bind_result (compare a b) (fun c => Ok (negb (is_gt c))).

(** [max(a, b)]: [b] when [b > a], else [a]. *)
Definition max_py (a b : datetime) : result datetime :=
  bind_result (compare b a) (fun c => Ok (if is_gt c then b else a)).

(** The instant on the UTC time line. *)
Definition instant (d : datetime) : Z :=
  match tzinfo d with
  | Some tz => wall d - utcoffset_of tz (wall d) (fold d)
  | None => wall d
  end.

End Zones.

End Zoned.

Declare Scope result_scope.
Delimit Scope result_scope with result.
Notation "'let!' x ':=' m 'in' k" := (Zoned.bind_result m (fun x => k))
  (at level 10, x name, m at level 200, k at level 200) : result_scope.

(** ** The free-slot sweep (lines 69-84) over zoned datetimes *)

Module ZSweep.

Import Zoned.

Definition slot : Type := datetime * datetime.

Record locals := mk_locals {
  available_slots : list slot;
  current_time : datetime
}.

Section Zones.

Variable utcoffset_of : string -> Z -> bool -> Z.

(** The test of both [while] loops:
    [current_time + timedelta(hours=1) <= limit]. *)
Definition loop_test (limit : datetime) (st : locals) : result bool :=
  (let! next := add (current_time st) HOUR in le utcoffset_of next limit)%result.

(** The body of both loops. *)
Definition emit_slot (st : locals) : result locals :=
  (let! slot_end := add (current_time st) HOUR in
   let! next := add (current_time st) HOUR in
   Ok {| available_slots := available_slots st ++ [(current_time st, slot_end)];
         current_time := next |})%result.

Fixpoint while_slot_fits (fuel : nat) (limit : datetime) (st : locals) : result locals :=
  match fuel with
  | O => Ok st
  | S fuel' =>
      match loop_test limit st with
      | Err e => Err e
      | Ok false => Ok st
      | Ok true =>
          match emit_slot st with
          | Err e => Err e
          | Ok st' => while_slot_fits fuel' limit st'
          end
      end
  end.

(** More rounds than the loop can make: the test passes only while the wall
    clock of the cursor is less than two days past that of the limit, and
    each round adds an hour (see [zoned_emit_until_unfold]). *)
Definition enough (limit : datetime) (st : locals) : nat :=
  S (Z.to_nat ((wall limit - wall (current_time st)) / HOUR + 48)).

Definition emit_until (limit : datetime) (st : locals) : result locals :=
  while_slot_fits (enough limit st) limit st.

(** Lines 74-78. *)
Definition before_event (event_start : datetime) (st : locals) : result locals :=
  (let! is_before := lt utcoffset_of (current_time st) event_start in
   if is_before : bool then emit_until event_start st else Ok st)%result.

(** Line 79. *)
Definition after_event (event_end : datetime) (st : locals) : result locals :=
  (let! latest := max_py utcoffset_of (current_time st) event_end in
   Ok {| available_slots := available_slots st; current_time := latest |})%result.

(** Lines 72-79 over already parsed events. *)
Fixpoint for_each_busy (busy : list (datetime * datetime)) (st : locals) : result locals :=
  match busy with
  | [] => Ok st
  | (event_start, event_end) :: rest =>
      (let! st := before_event event_start st in
       let! st := after_event event_end st in
       for_each_busy rest st)%result
  end.

(** Lines 69-84. *)
Definition free_slot_sweep (start_dt end_dt : datetime)
    (busy : list (datetime * datetime)) : result locals :=
  (let st := {| available_slots := []; current_time := start_dt |} in
   let! st := for_each_busy busy st in
   emit_until end_dt st)%result.

Definition free_slots (start_dt end_dt : datetime)
    (busy : list (datetime * datetime)) : result (list slot) :=
  (let! st := free_slot_sweep start_dt end_dt busy in Ok (available_slots st))%result.

End Zones.

Definition slot_label (s : slot) : string :=
  (strftime_I_M_p (fst s) ++ " - " ++ strftime_I_M_p (snd s))%string.

End ZSweep.

(** ** The two tools over zoned datetimes, with [print] as a call that may
    raise *)

Module ZTools.

Import Zoned.

Inductive call :=
| GetCalendarService
| EventsList (timeMin timeMax : string)
| EventsInsert (body : event_body)
| PrintLine (line : string).

Definition T (A : Type) : Type := list call -> result A * list call.

Definition ret {A} (a : A) : T A := fun log => (Ok a, log).

Definition bind {A B} (m : T A) (k : A -> T B) : T B :=
  fun log =>
    match m log with
    | (Ok a, log') => k a log'
    | (Err e, log') => (Err e, log')
    end.

Definition lift {A} (r : result A) : T A := fun log => (r, log).

Definition perform {A} (c : call) (r : result A) : T A :=
  fun log => (r, log ++ [c]).

(** [try: body  except Exception as e: handler(e)]; what the handler raises
    leaves the function. *)
Definition try_except {A} (body : T A) (handler : exception -> T A) : T A :=
  fun log =>
    match body log with
    | (Ok a, log') => (Ok a, log')
    | (Err e, log') => handler e log'
    end.

(** [d[key]]; the text of a [KeyError] is the key in quotes. *)
Definition subscript {V} (d : gmap string V) (key : string) : result V :=
  match d !! key with
  | Some v => Ok v
  | None => Err {| kind := KeyError key; text := ("'" ++ key ++ "'")%string |}
  end.

(** The line the handlers print: [f"ERROR in {name}: {e}"]. *)
Definition error_line (name : string) (e : exception) : string :=
  ("ERROR in " ++ name ++ ": " ++ text e)%string.

Definition entire_period_message (start_dt end_dt : datetime) : string :=
  ("The entire period from " ++ strftime_I_M_p start_dt ++ " to "
     ++ strftime_I_M_p end_dt ++ " is free. Suggest 1-hour slots.")%string.

Definition slots_message (slots : list ZSweep.slot) : string :=
  ("Here are the available 1-hour slots: "
     ++ String.concat ", " (map ZSweep.slot_label slots)
     ++ ". Please suggest these to the user.")%string.

End ZTools.

Declare Scope ztool_scope.
Delimit Scope ztool_scope with ztool.
Notation "'let!' x ':=' m 'in' k" := (ZTools.bind m (fun x => k))
  (at level 10, x name, m at level 200, k at level 200) : ztool_scope.

Module ZCalendar.

Import Zoned ZTools.

Section Collaborators.

Variable utcoffset_of : string -> Z -> bool -> Z.
(** [dateutil.parser.parse] on a string. *)
Variable date_parse : string -> result datetime.
(** [tzlocal.get_localzone()] and [str] of a zone. *)
Variable get_localzone : result string.
Variable str_zone : string -> string.
(** [datetime.isoformat()] and [strftime('%A, %B %d at %I:%M %p')]. *)
Variable isoformat : datetime -> result string.
Variable strftime_A_B_d_I_M_p : datetime -> string.
(** [get_calendar_service()] and the two provider calls. *)
Variable get_calendar_service : result unit.
Variable events_list : string -> string -> result events_result.
Variable events_insert : event_body -> result (gmap string string).
(** What [print(line)] does on standard output. *)
Variable stdout : string -> result unit.

(** dateutil rejects [None]. *)
Definition date_parse_py (x : option string) : result datetime :=
  match x with
  | Some s => date_parse s
  | None => Err (type_error "Parser must be a string or character stream, not NoneType")
  end.

(** Lines 45-48 and 104-107. *)
Definition localize (local_tz : string) (d : datetime) : datetime :=
  match tzinfo d with
  | None => replace_tzinfo d local_tz
  | Some _ => d
  end.

(** Lines 73-79. *)
Definition for_body (event : event) (st : ZSweep.locals) : result ZSweep.locals :=
  (let! start_obj := subscript event "start" in
   let! event_start := date_parse_py (start_obj !! "dateTime") in
   let! st := ZSweep.before_event utcoffset_of event_start st in
   let! end_obj := subscript event "end" in
   let! event_end := date_parse_py (end_obj !! "dateTime") in
   ZSweep.after_event utcoffset_of event_end st)%result.

Fixpoint for_each_event (busy_slots : list event) (st : ZSweep.locals)
    : result ZSweep.locals :=
  match busy_slots with
  | [] => Ok st
  | event :: rest =>
      (let! st := for_body event st in for_each_event rest st)%result
  end.

(** Lines 91-93 and 117-119: print the error, return the text. *)
Definition report (name answer : string) (e : exception) : T string :=
  (let! _ := perform (PrintLine (error_line name e)) (stdout (error_line name e)) in
   ret answer)%ztool.

(** Lines 33-93. *)
Definition check_availability (start_time end_time : string) : T string :=
  try_except
    (let! _ := perform GetCalendarService get_calendar_service in
     let! start_dt := lift (date_parse start_time) in
     let! end_dt := lift (date_parse end_time) in
     let! local_tz := lift get_localzone in
     let start_dt := localize local_tz start_dt in
     let end_dt := localize local_tz end_dt in
     let! start_iso := lift (isoformat start_dt) in
     let! end_iso := lift (isoformat end_dt) in
     let! events_result := perform (EventsList start_iso end_iso)
                             (events_list start_iso end_iso) in
     let busy_slots := default [] (items events_result) in
     match busy_slots with
     | [] => ret (entire_period_message start_dt end_dt)
     | _ :: _ =>
         let st := {| ZSweep.available_slots := []; ZSweep.current_time := start_dt |} in
         let! st := lift (for_each_event busy_slots st) in
         let! st := lift (ZSweep.emit_until utcoffset_of end_dt st) in
         match ZSweep.available_slots st with
         | [] => ret no_slots_message
         | _ :: _ => ret (slots_message (ZSweep.available_slots st))
         end
     end)%ztool
    (report "check_availability" error_message_check).

Definition success_message (summary : string) (start_dt : datetime)
    (created_event : gmap string string) : string :=
  ("Success! The appointment '" ++ summary ++ "' has been booked for "
     ++ strftime_A_B_d_I_M_p start_dt ++ ". The event link is: "
     ++ html_link created_event)%string.

(** Lines 95-119. *)
Definition book_appointment (start_time end_time summary description : string)
    : T string :=
  try_except
    (let! _ := perform GetCalendarService get_calendar_service in
     let! start_dt := lift (date_parse start_time) in
     let! end_dt := lift (date_parse end_time) in
     let! local_tz := lift get_localzone in
     let start_dt := localize local_tz start_dt in
     let end_dt := localize local_tz end_dt in
     let! start_iso := lift (isoformat start_dt) in
     let! end_iso := lift (isoformat end_dt) in
     let event :=
       {| body_summary := summary;
          body_description := description;
          body_start := {| dateTime := start_iso; timeZone := str_zone local_tz |};
          body_end := {| dateTime := end_iso; timeZone := str_zone local_tz |} |} in
     let! created_event := perform (EventsInsert event) (events_insert event) in
     ret (success_message summary start_dt created_event))%ztool
    (report "book_appointment" error_message_book).

End Collaborators.

End ZCalendar.

(** ** Vocabulary of the properties over zones *)

Module ZProps.

Import Zoned ZTools.

Section Zones.

Variable utcoffset_of : string -> Z -> bool -> Z.

(** A zoned datetime on the time line: its wall clock reading and the
    offset its zone has at that reading. *)
Definition flat (d : datetime) : Time.datetime :=
  {| Time.wall := wall d;
     Time.tzinfo := match tzinfo d with
                    | Some tz => Some (utcoffset_of tz (wall d) (fold d))
                    | None => None
                    end |}.

Definition flat_pair (p : datetime * datetime) : Time.datetime * Time.datetime :=
  (flat (fst p), flat (snd p)).

Definition flat_locals (st : ZSweep.locals) : Sweep.locals :=
  {| Sweep.available_slots := map flat_pair (ZSweep.available_slots st);
     Sweep.current_time := flat (ZSweep.current_time st) |}.

(** The zone of [d] has one offset at every reading: no daylight saving
    and no other change. *)
Definition constant_offset (d : datetime) : Prop :=
  exists tz off,
    tzinfo d = Some tz /\ - DAY < off < DAY /\ forall w f, utcoffset_of tz w f = off.

(** A datetime of such a zone, in range and 25 hours or more before
    [datetime.max] on the time line. *)
Definition steady (d : datetime) : Prop :=
  constant_offset d
  /\ MIN_WALL <= wall d
  /\ instant utcoffset_of d <= MAX_WALL - DAY - HOUR.

Definition steady_pair (p : datetime * datetime) : Prop :=
  steady (fst p) /\ steady (snd p).

(** Slots or busy intervals on the time line. *)
Definition timeline (l : list (datetime * datetime))
    : list (Time.datetime * Time.datetime) :=
  map flat_pair l.

(** The event's two [dateTime] strings parse to the interval [b]. *)
Definition parses_to (date_parse : string -> result datetime)
    (ev : event) (b : datetime * datetime) : Prop :=
  exists so eo ss es,
    ev !! "start" = Some so /\ so !! "dateTime" = Some ss
    /\ date_parse ss = Ok (fst b)
    /\ ev !! "end" = Some eo /\ eo !! "dateTime" = Some es
    /\ date_parse es = Ok (snd b).

End Zones.

(** The answers [check_availability] gives when nothing was raised. *)
Definition availability_text (text : string) : Prop :=
  text = no_slots_message
  \/ (exists start_dt end_dt, text = entire_period_message start_dt end_dt)
  \/ (exists s slots, text = slots_message (s :: slots)).

(** How a run ends that entered the handler with [e]: with [answer] when
    [print] returned, with the exception of [print] otherwise. *)
Definition handled (stdout : string -> result unit) (name answer : string)
    (e : exception) : result string :=
  match stdout (error_line name e) with
  | Ok _ => Ok answer
  | Err raised => Err raised
  end.

(** What dateutil raises on [None]. *)
Definition missing_dateTime_error : exception :=
  type_error "Parser must be a string or character stream, not NoneType".

End ZProps.

(** ** Concrete zones, parser and standard output for the examples *)

Module ZFixture.

Import Zoned ZTools.

(** Midnight of 2026-03-08 and of 2026-11-01, the two nights of 2026 on
    which the clocks of New York change. *)
Definition MARCH_8 : Z := 20520 * DAY.
Definition NOVEMBER_1 : Z := 20758 * DAY.

Definition new_york : string := "America/New_York".
Definition utc : string := "UTC".

(** The offsets of [America/New_York] around 2026, as [zoneinfo] gives
    them: on 8 March the readings 02:00-03:00 do not exist ([fold] chooses
    the side), on 1 November the readings 01:00-02:00 occur twice ([fold]
    chooses the occurrence).  Every other name is UTC. *)
Definition zones (tz : string) (w : Z) (fold : bool) : Z :=
  if String.eqb tz new_york then
    if w <? MARCH_8 + 2 * HOUR then -5 * HOUR
    else if w <? MARCH_8 + 3 * HOUR then (if fold then -4 * HOUR else -5 * HOUR)
    else if w <? NOVEMBER_1 + 1 * HOUR then -4 * HOUR
    else if w <? NOVEMBER_1 + 2 * HOUR then (if fold then -5 * HOUR else -4 * HOUR)
    else -5 * HOUR
  else 0.

(** The clock reading [h:m] of the day that starts at [day], in zone [tz]. *)
Definition on_day (day : Z) (tz : string) (h m : Z) : datetime :=
  {| wall := day + h * HOUR + m * 60000000; fold := false; tzinfo := Some tz |}.

(** A day far from both ends of the range. *)
Definition TODAY : Z := 20000 * DAY.

(** The last day of the year 9999. *)
Definition LAST_DAY : Z := 2932896 * DAY.

(** dateutil on the clock readings of [Fixture.parse_clock], taken on the
    day that starts at [day]: [HH:MM] is naive and [HH:MMZ] is UTC.  The
    message of its [ParserError] names the string. *)
Definition parse_on (day : Z) (s : string) : result datetime :=
  match Fixture.parse_clock s with
  | Return d =>
      Ok {| wall := day + Time.wall d;
            fold := false;
            tzinfo := match Time.tzinfo d with
                      | Some _ => Some utc
                      | None => None
                      end |}
  | Raise _ =>
      Err {| kind := ParserError; text := ("Unknown string format: " ++ s)%string |}
  end.

(** A standard output whose encoding is ASCII. *)
Definition ascii_only (line : string) : bool :=
  forallb (fun c => Nat.ltb (nat_of_ascii c) 128) (list_ascii_of_string line).

Definition encode_error : exception :=
  {| kind := OtherException "UnicodeEncodeError";
     text := "'ascii' codec can't encode character: ordinal not in range(128)" |}.

Definition ascii_stdout (line : string) : result unit :=
  if ascii_only line then Ok tt else Err encode_error.

(** The Spanish word for tomorrow, in UTF-8: no date for dateutil, and not
    ASCII. *)
Definition manana : string :=
  String "m" (String "a" (String "195" (String "177" (String "a" (String "n" (String "a" EmptyString)))))).

Definition calendar_with (events : list event) (timeMin timeMax : string)
    : result events_result :=
  Ok {| items := Some events |}.

Definition accept_insert (body : event_body) : result (gmap string string) :=
  Ok {[ "htmlLink" := "https://calendar.example/event" ]}.

Definition clock_text (d : datetime) : result string := Ok (strftime_I_M_p d).

(** The tools on the day that starts at [day], in the local zone [tz]. *)
Definition check (day : Z) (tz : string) (events : list event)
    (start_time end_time : string) : T string :=
  ZCalendar.check_availability zones (parse_on day) (Ok tz) clock_text (Ok tt)
    (calendar_with events) ascii_stdout start_time end_time.

Definition book (day : Z) (tz : string) (start_time end_time summary : string)
    : T string :=
  ZCalendar.book_appointment (parse_on day) (Ok tz) (fun z => z) clock_text
    strftime_I_M_p (Ok tt) accept_insert ascii_stdout start_time end_time summary "".

End ZFixture.

(** ** Facts about time *)

Section TimeFacts.

Lemma HOUR_eq : HOUR = 3600000000.
Proof. reflexivity. Qed.

Lemma HOUR_pos : 0 < HOUR.
Proof. rewrite HOUR_eq. lia. Qed.

Lemma instant_dt_add d delta : instant (dt_add d delta) = instant d + delta.
Proof. unfold instant, dt_add; simpl. destruct (tzinfo d); lia. Qed.

Lemma dt_add_0 d : dt_add d 0 = d.
Proof. destruct d as [w tz]. unfold dt_add; simpl. f_equal. lia. Qed.

Lemma dt_add_add d a b : dt_add (dt_add d a) b = dt_add d (a + b).
Proof. unfold dt_add; simpl. f_equal. lia. Qed.

Lemma tzinfo_dt_add d delta : tzinfo (dt_add d delta) = tzinfo d.
Proof. reflexivity. Qed.

Lemma instant_dt_max a b : instant (dt_max a b) = Z.max (instant a) (instant b).
Proof. unfold dt_max. destruct (Z.ltb_spec (instant a) (instant b)); lia. Qed.

Lemma instant_hop n c : instant (hop n c) = instant c + Z.of_nat n * HOUR.
Proof. apply instant_dt_add. Qed.

Lemma hop_0 c : hop 0 c = c.
Proof. unfold hop. simpl. apply dt_add_0. Qed.

Lemma hop_S n c : hop n (dt_add c HOUR) = hop (S n) c.
Proof. unfold hop. rewrite dt_add_add. f_equal. lia. Qed.

(** The number of iterations is the number of whole hours that fit. *)
Lemma iterations_spec c l :
  let n := Z.of_nat (iterations c l) in
  (n = 0 \/ instant c + n * HOUR <= instant l)
  /\ instant l < instant c + n * HOUR + HOUR.
Proof.
  pose proof HOUR_pos as Hpos. unfold iterations.
  destruct (Z.lt_ge_cases (instant l - instant c) 0) as [Hneg | Hnn].
  - assert ((instant l - instant c) / HOUR < 0) by (apply Z.div_lt_upper_bound; lia).
    simpl. lia.
  - pose proof (Z.div_pos _ _ Hnn Hpos) as Hq.
    rewrite Z2Nat.id by assumption.
    pose proof (Z.mul_div_le (instant l - instant c) HOUR Hpos).
    pose proof (Z.mul_succ_div_gt (instant l - instant c) HOUR Hpos).
    lia.
Qed.

Lemma iterations_fits c l :
  instant c + HOUR <= instant l ->
  iterations c l = S (iterations (dt_add c HOUR) l).
Proof.
  intros Hfit. pose proof HOUR_pos as Hpos. unfold iterations.
  rewrite instant_dt_add.
  replace (instant l - instant c) with ((instant l - (instant c + HOUR)) + 1 * HOUR) by lia.
  rewrite Z.div_add by lia.
  assert (0 <= (instant l - (instant c + HOUR)) / HOUR) by (apply Z.div_pos; lia).
  rewrite Z2Nat.inj_add by lia. simpl. lia.
Qed.

Lemma iterations_short c l :
  instant l < instant c + HOUR -> iterations c l = 0%nat.
Proof.
  intros Hshort. pose proof (iterations_spec c l) as [Hle _]. simpl in Hle.
  pose proof HOUR_pos. destruct (iterations c l); [reflexivity | lia].
Qed.

End TimeFacts.

(** ** The loops in closed form *)

Section SweepFacts.

Lemma tiling_S n c : tiling (S n) c = (c, dt_add c HOUR) :: tiling n (dt_add c HOUR).
Proof.
  unfold tiling. simpl. f_equal.
  - unfold tile. rewrite hop_0. f_equal; unfold hop; f_equal; lia.
  - rewrite <- seq_shift, map_map. apply map_ext. intros k.
    unfold tile. now rewrite !hop_S.
Qed.

Lemma in_tiling s n c :
  In s (tiling n c) <-> exists k, (k < n)%nat /\ s = tile c k.
Proof.
  unfold tiling. rewrite in_map_iff. split.
  - intros (k & <- & Hk). apply in_seq in Hk. exists k. split; [lia | reflexivity].
  - intros (k & Hk & ->). exists k. split; [reflexivity | apply in_seq; lia].
Qed.

Lemma span_tile c k :
  span (tile c k)
  = (instant c + Z.of_nat k * HOUR, instant c + Z.of_nat k * HOUR + HOUR).
Proof. unfold span, tile; simpl. rewrite !instant_hop. f_equal. lia. Qed.

Lemma while_slot_fits_closed fuel limit st :
  fuel = iterations (current_time st) limit ->
  while_slot_fits fuel limit st
  = {| available_slots := available_slots st ++ tiling fuel (current_time st);
       current_time := hop fuel (current_time st) |}.
Proof.
  revert st. induction fuel as [| fuel IH]; intros st Hfuel.
  - destruct st as [slots c]. simpl. now rewrite app_nil_r, hop_0.
  - pose proof (iterations_spec (current_time st) limit) as [Hfit _].
    simpl in Hfit. rewrite <- Hfuel in Hfit.
    assert (Hle : instant (current_time st) + HOUR <= instant limit)
      by (pose proof HOUR_pos; nia).
    simpl. rewrite instant_dt_add.
    destruct (Z.leb_spec (instant (current_time st) + HOUR) (instant limit)); [| lia].
    rewrite IH.
    + simpl. rewrite <- app_assoc. simpl. now rewrite tiling_S, hop_S.
    + simpl. rewrite (iterations_fits _ _ Hle) in Hfuel. congruence.
Qed.

Lemma emit_until_closed limit st :
  emit_until limit st
  = {| available_slots :=
         available_slots st ++ tiling (iterations (current_time st) limit) (current_time st);
       current_time := hop (iterations (current_time st) limit) (current_time st) |}.
Proof. unfold emit_until. now apply while_slot_fits_closed. Qed.

(** The equation of the [while] loop: one test, one body, and again. *)
Lemma emit_until_unfold limit st :
  emit_until limit st
  = if instant (dt_add (current_time st) HOUR) <=? instant limit
    then emit_until limit (emit_slot st)
    else st.
Proof.
  unfold emit_until. rewrite instant_dt_add.
  destruct (Z.leb_spec (instant (current_time st) + HOUR) (instant limit)) as [Hle | Hgt].
  - rewrite (iterations_fits _ _ Hle). simpl. rewrite instant_dt_add.
    destruct (Z.leb_spec (instant (current_time st) + HOUR) (instant limit)); [reflexivity | lia].
  - now rewrite (iterations_short _ _ Hgt).
Qed.

(** The loop stops with its test false. *)
Lemma emit_until_exit limit st :
  (instant (dt_add (current_time (emit_until limit st)) HOUR) <=? instant limit) = false.
Proof.
  rewrite emit_until_closed. simpl. rewrite instant_dt_add, instant_hop.
  pose proof (iterations_spec (current_time st) limit) as [_ Hgt]. simpl in Hgt.
  apply Z.leb_gt. lia.
Qed.

(** The guard of line 74 changes nothing: when it fails the loop would not
    run either. *)
Lemma before_event_closed event_start st :
  before_event event_start st = emit_until event_start st.
Proof.
  unfold before_event.
  destruct (Z.ltb_spec (instant (current_time st)) (instant event_start)) as [Hlt | Hge];
    [reflexivity |].
  unfold emit_until. rewrite iterations_short; [reflexivity |].
  pose proof HOUR_pos. lia.
Qed.

Lemma sweep_closed busy end_dt st :
  available_slots (emit_until end_dt (for_each_busy busy st))
  = available_slots st ++ sweep_from (current_time st) busy end_dt.
Proof.
  revert st. induction busy as [| [bs be] rest IH]; intros st; simpl.
  - now rewrite emit_until_closed.
  - rewrite IH, before_event_closed, emit_until_closed. simpl.
    now rewrite <- app_assoc.
Qed.

Lemma free_slots_closed start_dt end_dt busy :
  free_slots start_dt end_dt busy = sweep_from start_dt busy end_dt.
Proof. unfold free_slots, free_slot_sweep. now rewrite sweep_closed. Qed.

Lemma remainders_cursor busy end_dt st st' :
  current_time st = current_time st' ->
  remainders busy end_dt st = remainders busy end_dt st'.
Proof.
  revert st st'. induction busy as [| [bs be] rest IH]; intros st st' Hcur; simpl.
  - now rewrite !emit_until_closed; simpl; rewrite Hcur.
  - rewrite !before_event_closed, !emit_until_closed; simpl. rewrite Hcur.
    f_equal. apply IH. simpl. reflexivity.
Qed.

End SweepFacts.

(** ** What the sweep emits *)

Section SlotFacts.

Local Arguments hop : simpl never.
Local Arguments dt_max : simpl never.
Local Arguments iterations : simpl never.
Local Arguments span : simpl never.

Ltac spans := unfold starts_by, span in *; cbn [fst snd] in *.

Lemma StronglySorted_app {A} (R : A -> A -> Prop) l1 l2 :
  StronglySorted R l1 -> StronglySorted R l2 ->
  (forall a b, In a l1 -> In b l2 -> R a b) ->
  StronglySorted R (l1 ++ l2).
Proof.
  intros H1 H2 Hcross. induction H1 as [| a l1 Hs IH Hall]; simpl; [assumption |].
  constructor.
  - apply IH. intros x y Hx Hy. apply Hcross; [right |]; assumption.
  - apply Forall_app. split; [assumption |].
    apply List.Forall_forall. intros y Hy. apply Hcross; [left; reflexivity | assumption].
Qed.

Lemma tiling_one_hour n c : Forall one_hour (tiling n c).
Proof.
  apply List.Forall_forall. intros s Hs. apply in_tiling in Hs as (k & _ & ->).
  split.
  - rewrite span_tile. simpl. lia.
  - unfold tile, hop; simpl. rewrite dt_add_add. f_equal. lia.
Qed.

Lemma tiling_bounds n c s :
  In s (tiling n c) ->
  instant c <= fst (span s) /\ snd (span s) <= instant c + Z.of_nat n * HOUR.
Proof.
  intros Hs. apply in_tiling in Hs as (k & Hk & ->).
  rewrite span_tile. simpl. pose proof HOUR_pos. nia.
Qed.

Lemma tiling_ordered n c : ordered_disjoint (tiling n c).
Proof.
  revert c. induction n as [| n IH]; intros c.
  - constructor.
  - rewrite tiling_S. constructor; [apply IH |].
    apply List.Forall_forall. intros s Hs. apply tiling_bounds in Hs as [Hlo _].
    rewrite instant_dt_add in Hlo. unfold span at 1; simpl.
    rewrite instant_dt_add. exact Hlo.
Qed.

Lemma tiling_covers n c t :
  instant c <= t < instant c + Z.of_nat n * HOUR ->
  exists s, In s (tiling n c) /\ covers (span s) t.
Proof.
  revert c. induction n as [| n IH]; intros c Ht; [lia |].
  rewrite tiling_S.
  destruct (Z.lt_ge_cases t (instant c + HOUR)) as [Hfirst | Hlater].
  - exists (c, dt_add c HOUR). split; [left; reflexivity |].
    unfold covers, span; simpl. rewrite instant_dt_add. lia.
  - destruct (IH (dt_add c HOUR)) as (s & Hs & Hcov).
    + rewrite instant_dt_add. lia.
    + exists s. split; [right; assumption | assumption].
Qed.

(** Where the cursor stands after the inner loop for an event. *)
Lemma cursor_after_loop c limit :
  instant c <= instant (hop (iterations c limit) c)
  /\ (instant (hop (iterations c limit) c) = instant c
      \/ instant (hop (iterations c limit) c) <= instant limit)
  /\ instant limit < instant (hop (iterations c limit) c) + HOUR.
Proof.
  rewrite instant_hop.
  pose proof (iterations_spec c limit) as [Hfit Hexit]. simpl in Hfit, Hexit.
  pose proof HOUR_pos. nia.
Qed.

Lemma sweep_from_one_hour c busy end_dt : Forall one_hour (sweep_from c busy end_dt).
Proof.
  revert c. induction busy as [| [bs be] rest IH]; intros c; cbn [sweep_from].
  - apply tiling_one_hour.
  - apply Forall_app. split; [apply tiling_one_hour | apply IH].
Qed.

Lemma sweep_from_after c busy end_dt s :
  In s (sweep_from c busy end_dt) -> instant c <= fst (span s).
Proof.
  revert c. induction busy as [| [bs be] rest IH]; intros c; cbn [sweep_from].
  - intros Hs. now apply tiling_bounds in Hs.
  - intros Hs. apply in_app_or in Hs as [Hs | Hs].
    + now apply tiling_bounds in Hs.
    + apply IH in Hs. rewrite instant_dt_max in Hs.
      pose proof (cursor_after_loop c bs) as (Hge & _). lia.
Qed.

Lemma sweep_from_ordered c busy end_dt : ordered_disjoint (sweep_from c busy end_dt).
Proof.
  revert c. induction busy as [| [bs be] rest IH]; intros c; cbn [sweep_from].
  - apply tiling_ordered.
  - apply StronglySorted_app; [apply tiling_ordered | apply IH |].
    intros a b Ha Hb. apply tiling_bounds in Ha as [_ Ha].
    apply sweep_from_after in Hb. rewrite instant_dt_max, instant_hop in Hb. lia.
Qed.

(** A slot lies wholly before or wholly after each busy interval. *)
Lemma sweep_from_clear c busy end_dt s b :
  StronglySorted (fun a b => fst (span a) <= fst (span b)) busy ->
  In s (sweep_from c busy end_dt) -> In b busy ->
  snd (span s) <= fst (span b) \/ snd (span b) <= fst (span s).
Proof.
  intros Hsorted. revert c.
  induction Hsorted as [| [bs be] rest Hrest IH Hhead]; intros c Hs Hb;
    [destruct Hb |].
  cbn [sweep_from] in Hs.
  pose proof (cursor_after_loop c bs) as (Hge & Hstop & _).
  apply in_app_or in Hs as [Hs | Hs].
  - left. pose proof Hs as Hin. apply tiling_bounds in Hs as [Hlo Hhi].
    rewrite <- instant_hop in Hhi.
    assert (Hbs : snd (span s) <= instant bs).
    { destruct Hstop as [Hsame | Hle]; [| lia].
      apply in_tiling in Hin as (k & Hk & ->).
      rewrite instant_hop in Hsame. pose proof HOUR_pos.
      assert (iterations c bs = 0%nat) by nia. lia. }
    destruct Hb as [<- | Hb]; [exact Hbs |].
    rewrite List.Forall_forall in Hhead. specialize (Hhead _ Hb).
    spans. lia.
  - destruct Hb as [<- | Hb].
    + right. apply sweep_from_after in Hs. rewrite instant_dt_max in Hs.
      spans. lia.
    + now apply (IH _ Hs Hb).
Qed.

Lemma sweep_from_bounded c busy end_dt s :
  Forall (starts_by end_dt) busy ->
  In s (sweep_from c busy end_dt) -> snd (span s) <= instant end_dt.
Proof.
  intros Hstarts. revert c.
  induction Hstarts as [| [bs be] rest Hhead Hrest IH]; intros c Hs; cbn [sweep_from] in Hs.
  - pose proof (cursor_after_loop c end_dt) as (_ & Hstop & _).
    pose proof Hs as Hin. apply tiling_bounds in Hs as [_ Hhi].
    rewrite <- instant_hop in Hhi.
    destruct Hstop as [Hsame | Hle]; [| lia].
    apply in_tiling in Hin as (k & Hk & ->).
    rewrite instant_hop in Hsame. pose proof HOUR_pos.
    assert (iterations c end_dt = 0%nat) by nia. lia.
  - apply in_app_or in Hs as [Hs | Hs]; [| now apply (IH _ Hs)].
    pose proof (cursor_after_loop c bs) as (_ & Hstop & _).
    pose proof Hs as Hin. apply tiling_bounds in Hs as [_ Hhi].
    rewrite <- instant_hop in Hhi.
    spans.
    destruct Hstop as [Hsame | Hle]; [| lia].
    apply in_tiling in Hin as (k & Hk & ->).
    rewrite instant_hop in Hsame. pose proof HOUR_pos.
    assert (iterations c bs = 0%nat) by nia. lia.
Qed.

(** In a window shorter than an hour nothing is emitted when every event
    starts by the end of the window. *)
Lemma sweep_from_short c busy end_dt :
  instant end_dt < instant c + HOUR ->
  Forall (starts_by end_dt) busy ->
  sweep_from c busy end_dt = [].
Proof.
  intros Hshort Hstarts. revert c Hshort.
  induction Hstarts as [| [bs be] rest Hhead Hrest IH]; intros c Hshort; cbn [sweep_from].
  - now rewrite iterations_short.
  - spans.
    rewrite iterations_short by lia. simpl. apply IH.
    rewrite instant_dt_max, hop_0. lia.
Qed.

End SlotFacts.

(** ** What the sweep leaves over *)

Section RemainderFacts.

Local Arguments hop : simpl never.
Local Arguments dt_max : simpl never.
Local Arguments iterations : simpl never.
Local Arguments span : simpl never.

Ltac spans := unfold starts_by, inside, covers, span in *; cbn [fst snd] in *.

Lemma cursor_before_event event_start st :
  current_time (before_event event_start st)
  = hop (iterations (current_time st) event_start) (current_time st).
Proof. now rewrite before_event_closed, emit_until_closed. Qed.

Lemma in_gap g a b : In g (gap a b) <-> g = (a, b) /\ a < b.
Proof.
  unfold gap. destruct (Z.ltb_spec a b); simpl; split.
  - intros [<- | []]. now split.
  - intros [-> _]. now left.
  - intros [].
  - intros [_ Hlt]. lia.
Qed.

Lemma remainders_nil end_dt st g :
  In g (remainders [] end_dt st) <->
  g = (instant (hop (iterations (current_time st) end_dt) (current_time st)),
       instant end_dt)
  /\ fst g < snd g.
Proof.
  cbn [remainders]. rewrite emit_until_closed. cbn [current_time].
  rewrite in_gap. split.
  - intros [-> Hlt]. now split.
  - intros [-> Hlt]. now split.
Qed.

Lemma remainders_cons bs be rest end_dt st g :
  In g (remainders ((bs, be) :: rest) end_dt st) <->
  (g = (instant (hop (iterations (current_time st) bs) (current_time st)), instant bs)
   /\ fst g < snd g)
  \/ In g (remainders rest end_dt (after_event be (before_event bs st))).
Proof.
  cbn [remainders]. rewrite in_app_iff, in_gap, cursor_before_event.
  split; (intros [[-> Hlt] | Hin]; [left; now split | now right]).
Qed.

(** Every remainder is a non-empty stretch shorter than an hour. *)
Lemma remainders_short busy end_dt st g :
  In g (remainders busy end_dt st) -> 0 < snd g - fst g < HOUR.
Proof.
  revert st. induction busy as [| [bs be] rest IH]; intros st Hg.
  - apply remainders_nil in Hg as [-> Hlt].
    pose proof (cursor_after_loop (current_time st) end_dt) as (_ & _ & Hexit).
    cbn [fst snd] in *. lia.
  - apply remainders_cons in Hg as [[-> Hlt] | Hg]; [| exact (IH _ Hg)].
    pose proof (cursor_after_loop (current_time st) bs) as (_ & _ & Hexit).
    cbn [fst snd] in *. lia.
Qed.

Lemma remainders_within busy end_dt st g :
  Forall (starts_by end_dt) busy ->
  In g (remainders busy end_dt st) ->
  instant (current_time st) <= fst g /\ snd g <= instant end_dt.
Proof.
  intros Hstarts. revert st.
  induction Hstarts as [| [bs be] rest Hhead Hrest IH]; intros st Hg.
  - apply remainders_nil in Hg as [-> Hlt].
    pose proof (cursor_after_loop (current_time st) end_dt) as (Hge & _ & _).
    cbn [fst snd] in *. lia.
  - pose proof (cursor_after_loop (current_time st) bs) as (Hge & _ & _).
    apply remainders_cons in Hg as [[-> Hlt] | Hg].
    + spans. lia.
    + apply IH in Hg. cbn [after_event current_time] in Hg.
      rewrite instant_dt_max, cursor_before_event in Hg. lia.
Qed.

(** From the cursor to the end of the window every instant is in a slot,
    in a busy interval or in a remainder. *)
Lemma sweep_covers busy end_dt st t :
  instant (current_time st) <= t < instant end_dt ->
  (exists s, In s (sweep_from (current_time st) busy end_dt) /\ covers (span s) t)
  \/ (exists b, In b busy /\ covers (span b) t)
  \/ (exists g, In g (remainders busy end_dt st) /\ covers g t).
Proof.
  revert st. induction busy as [| [bs be] rest IH]; intros st Ht.
  - cbn [sweep_from].
    set (n := iterations (current_time st) end_dt).
    destruct (Z.lt_ge_cases t (instant (hop n (current_time st)))) as [Hin | Hout].
    + left. apply tiling_covers. rewrite instant_hop in Hin. lia.
    + right; right. eexists. split.
      * apply remainders_nil. split; [reflexivity |]. fold n. cbn [fst snd]. lia.
      * fold n. spans. lia.
  - cbn [sweep_from].
    set (n := iterations (current_time st) bs).
    destruct (Z.lt_ge_cases t (instant (hop n (current_time st)))) as [Hin | Hout].
    { left. destruct (tiling_covers n (current_time st) t) as (s & Hs & Hcov).
      - rewrite instant_hop in Hin. lia.
      - exists s. split; [apply in_or_app; now left | assumption]. }
    destruct (Z.lt_ge_cases t (instant bs)) as [Hgap | Hbs].
    { right; right. eexists. split.
      - apply remainders_cons. left. split; [reflexivity |]. fold n. cbn [fst snd]. lia.
      - fold n. spans. lia. }
    destruct (Z.lt_ge_cases t (instant be)) as [Hbusy | Hbe].
    { right; left. exists (bs, be). split; [now left |]. spans. lia. }
    destruct (IH (after_event be (before_event bs st))) as [(s & Hs & Hcov) | [(b & Hb & Hcov) | (g & Hg & Hcov)]].
    + cbn [after_event current_time]. rewrite instant_dt_max, cursor_before_event.
      fold n. lia.
    + left. exists s. split; [| assumption]. apply in_or_app. right.
      cbn [after_event current_time] in Hs. now rewrite cursor_before_event in Hs.
    + right; left. exists b. split; [now right | assumption].
    + right; right. exists g. split; [| assumption]. apply remainders_cons. now right.
Qed.

(** A remainder meets no slot and no busy interval of valid events. *)
Lemma remainders_clear busy end_dt st g :
  StronglySorted (fun a b => fst (span a) <= fst (span b)) busy ->
  Forall (fun b => fst (span b) <= snd (span b)) busy ->
  Forall (starts_by end_dt) busy ->
  In g (remainders busy end_dt st) ->
  (forall s, In s (sweep_from (current_time st) busy end_dt) ->
     snd (span s) <= fst g \/ snd g <= fst (span s))
  /\ (forall b, In b busy -> snd (span b) <= fst g \/ snd g <= fst (span b)).
Proof.
  intros Hsorted. revert st.
  induction Hsorted as [| [bs be] rest Hrest IH Hhead]; intros st Hvalid Hstarts Hg.
  - apply remainders_nil in Hg as [-> Hlt]. split; [| intros b []].
    intros s Hs. cbn [sweep_from] in Hs. apply tiling_bounds in Hs as [_ Hhi].
    rewrite <- instant_hop in Hhi. left. exact Hhi.
  - inversion Hvalid as [| ? ? Hv Hvalid']; subst.
    inversion Hstarts as [| ? ? Hst Hstarts']; subst.
    set (n := iterations (current_time st) bs) in *.
    assert (Hcur : current_time (after_event be (before_event bs st))
                   = dt_max (hop n (current_time st)) be).
    { cbn [after_event current_time]. now rewrite cursor_before_event. }
    apply remainders_cons in Hg as [[-> Hlt] | Hg].
    + fold n in Hlt |- *. cbn [fst snd] in Hlt |- *. split.
      * intros s Hs. cbn [sweep_from] in Hs. fold n in Hs.
        apply in_app_or in Hs as [Hs | Hs].
        -- left. apply tiling_bounds in Hs as [_ Hhi].
           now rewrite <- instant_hop in Hhi.
        -- right. apply sweep_from_after in Hs. rewrite instant_dt_max in Hs.
           spans. lia.
      * intros b [<- | Hb]; right; [spans; lia |].
        rewrite List.Forall_forall in Hhead. specialize (Hhead _ Hb). spans. lia.
    + pose proof (remainders_within _ _ _ _ Hstarts' Hg) as [Hlo _].
      rewrite Hcur, instant_dt_max in Hlo.
      destruct (IH _ Hvalid' Hstarts' Hg) as [IHs IHb]. rewrite Hcur in IHs.
      split.
      * intros s Hs. cbn [sweep_from] in Hs. fold n in Hs.
        apply in_app_or in Hs as [Hs | Hs]; [| now apply IHs].
        left. apply tiling_bounds in Hs as [_ Hhi].
        rewrite <- instant_hop in Hhi. lia.
      * intros b [<- | Hb]; [| now apply IHb]. left. spans. lia.
Qed.

End RemainderFacts.

(** ** The free-slot sweep: the claims *)

Section SweepClaims.

Lemma apart_not_overlaps a b :
  snd a <= fst b \/ snd b <= fst a -> ~ overlaps a b.
Proof. intros Hapart (t & Ha & Hb). unfold covers in *. lia. Qed.

Lemma sorted_strongly busy :
  sorted_by_start busy ->
  StronglySorted (fun a b => fst (span a) <= fst (span b)) busy.
Proof.
  apply Sorted_StronglySorted. intros x y z Hxy Hyz. lia.
Qed.

(** Over fixed offsets: for every window and every list of busy intervals
    sorted by start time, the slots of the sweep are ordered and pairwise
    disjoint, each lasts exactly one hour, none overlaps a busy interval and
    none starts before the window; when moreover each busy interval starts
    no later than the window ends, every slot lies inside the window. *)
Lemma sweep_slots_sound start_dt end_dt busy :
  sorted_by_start busy ->
  ordered_disjoint (free_slots start_dt end_dt busy)
  /\ Forall one_hour (free_slots start_dt end_dt busy)
  /\ clear_of (free_slots start_dt end_dt busy) busy
  /\ Forall (fun s => instant start_dt <= fst (span s)) (free_slots start_dt end_dt busy)
  /\ (Forall (starts_by end_dt) busy ->
      sound_slots start_dt end_dt busy (free_slots start_dt end_dt busy)).
Proof.
  intros Hsorted. rewrite free_slots_closed.
  apply sorted_strongly in Hsorted.
  assert (Hclear : clear_of (sweep_from start_dt busy end_dt) busy).
  { intros s b Hs Hb. apply apart_not_overlaps.
    exact (sweep_from_clear _ _ _ _ _ Hsorted Hs Hb). }
  assert (Hafter : Forall (fun s => instant start_dt <= fst (span s))
                     (sweep_from start_dt busy end_dt)).
  { apply List.Forall_forall. intros s Hs. exact (sweep_from_after _ _ _ _ Hs). }
  split; [apply sweep_from_ordered |].
  split; [apply sweep_from_one_hour |].
  split; [exact Hclear |].
  split; [exact Hafter |].
  intros Hstarts.
  split; [apply sweep_from_ordered |].
  split; [apply sweep_from_one_hour |].
  split; [exact Hclear |].
  apply List.Forall_forall. intros s Hs. split.
  - exact (sweep_from_after _ _ _ _ Hs).
  - exact (sweep_from_bounded _ _ _ _ Hstarts Hs).
Qed.

(** Over fixed offsets: for every window and every sorted list of busy
    intervals each inside the window, no slot of the sweep overlaps a busy
    interval, the stretches the sweep leaves over are each shorter than one
    hour, and the slots, the busy intervals and those stretches together are
    exactly the window; the stretches meet neither a slot nor a busy
    interval. *)
Lemma sweep_partitions_window start_dt end_dt busy :
  sorted_by_start busy ->
  Forall (inside start_dt end_dt) busy ->
  clear_of (free_slots start_dt end_dt busy) busy
  /\ short_remainders (gaps start_dt end_dt busy)
  /\ fills_window start_dt end_dt (free_slots start_dt end_dt busy) busy
       (gaps start_dt end_dt busy)
  /\ remainders_apart (free_slots start_dt end_dt busy) busy
       (gaps start_dt end_dt busy).
Proof.
  intros Hsorted Hinside.
  rewrite free_slots_closed. unfold gaps.
  set (st := {| available_slots := []; current_time := start_dt |}).
  change (sweep_from start_dt busy end_dt)
    with (sweep_from (current_time st) busy end_dt).
  pose proof (sorted_strongly _ Hsorted) as Hstrong.
  assert (Hstarts : Forall (starts_by end_dt) busy).
  { eapply List.Forall_impl; [| exact Hinside]. intros b (? & ? & ?).
    unfold starts_by. lia. }
  assert (Hvalid : Forall (fun b => fst (span b) <= snd (span b)) busy).
  { eapply List.Forall_impl; [| exact Hinside]. intros b (? & ? & ?). assumption. }
  split; [| split; [| split]].
  - intros s b Hs Hb. apply apart_not_overlaps.
    exact (sweep_from_clear _ _ _ _ _ Hstrong Hs Hb).
  - apply List.Forall_forall. intros g Hg. exact (remainders_short _ _ _ _ Hg).
  - intros t. split.
    + intros Ht. apply sweep_covers. exact Ht.
    + intros [(s & Hs & Hcov) | [(b & Hb & Hcov) | (g & Hg & Hcov)]].
      * pose proof (sweep_from_after _ _ _ _ Hs).
        pose proof (sweep_from_bounded _ _ _ _ Hstarts Hs).
        unfold window_instants, covers in *. simpl in *. lia.
      * rewrite List.Forall_forall in Hinside. destruct (Hinside _ Hb) as (? & ? & ?).
        unfold window_instants, covers in *. simpl in *. lia.
      * pose proof (remainders_within _ _ _ _ Hstarts Hg) as [? ?].
        unfold window_instants, covers in *. simpl in *. lia.
  - intros g Hg.
    destruct (remainders_clear _ _ _ _ Hstrong Hvalid Hstarts Hg) as [Hs Hb].
    split.
    + intros s Hin. apply apart_not_overlaps. specialize (Hs _ Hin). lia.
    + intros b Hin. apply apart_not_overlaps. specialize (Hb _ Hin). lia.
Qed.

(** C4 as stated fails: after the event 10:00-10:30 the cursor stands at
    10:30, so the second slot is 10:30-11:30 and not 11:00-12:00. *)
Lemma sweep_not_hour_aligned :
  free_slots (at_clock 0 9 0) (at_clock 0 12 0) [(at_clock 0 10 0, at_clock 0 10 30)]
  <> [(at_clock 0 9 0, at_clock 0 10 0); (at_clock 0 11 0, at_clock 0 12 0)].
Proof. vm_compute. discriminate. Qed.

(** C4, as the code has it: for the window 09:00-12:00 with the single busy
    interval 10:00-10:30 the sweep returns exactly the two slots 09:00-10:00
    and 10:30-11:30, and what it leaves over is the half hour 11:30-12:00. *)
Theorem sweep_half_hour_event :
  let start_dt := at_clock 0 9 0 in
  let end_dt := at_clock 0 12 0 in
  let busy := [(at_clock 0 10 0, at_clock 0 10 30)] in
  free_slots start_dt end_dt busy
  = [(at_clock 0 9 0, at_clock 0 10 0); (at_clock 0 10 30, at_clock 0 11 30)]
  /\ map slot_label (free_slots start_dt end_dt busy)
     = ["09:00 AM - 10:00 AM"; "10:30 AM - 11:30 AM"]%string
  /\ gaps start_dt end_dt busy
     = [(instant (at_clock 0 11 30), instant (at_clock 0 12 0))].
Proof. repeat split; vm_compute; reflexivity. Qed.

(** Over fixed offsets: for every window strictly shorter than one hour
    and every list of busy intervals each starting no later than the window
    ends, the sweep emits no slot. *)
Lemma short_window_no_slots start_dt end_dt busy :
  instant end_dt - instant start_dt < HOUR ->
  Forall (starts_by end_dt) busy ->
  free_slots start_dt end_dt busy = [].
Proof.
  intros Hshort Hstarts. rewrite free_slots_closed.
  apply sweep_from_short; [lia | assumption].
Qed.

(** Overlapping events, and the stretches left over around them. *)
Example sweep_overlapping_events :
  let busy := [(at_clock 0 9 30, at_clock 0 10 15); (at_clock 0 10 0, at_clock 0 11 0);
               (at_clock 0 13 0, at_clock 0 13 30)] in
  map slot_label (free_slots (at_clock 0 9 0) (at_clock 0 15 0) busy)
  = ["11:00 AM - 12:00 PM"; "12:00 PM - 01:00 PM"; "01:30 PM - 02:30 PM"]%string
  /\ gaps (at_clock 0 9 0) (at_clock 0 15 0) busy
     = [(instant (at_clock 0 9 0), instant (at_clock 0 9 30));
        (instant (at_clock 0 14 30), instant (at_clock 0 15 0))].
Proof. split; vm_compute; reflexivity. Qed.


End SweepClaims.

(** ** The tools: the claims *)

Section AvailabilityClaims.

Variable date_parse : string -> outcome datetime.
Variable get_localzone : Z.
Variable isoformat : datetime -> string.
Variable get_calendar_service : outcome unit.
Variable events_list : string -> string -> outcome events_result.

Let check := check_availability date_parse get_localzone isoformat
               get_calendar_service events_list.
Let local := localize get_localzone.

Ltac run_tool :=
  unfold check, check_availability, try_except, bind, perform, lift, ret;
  cbn beta iota.


(** C9: the free-slot computation is deterministic and idempotent.  The
    sweep resets its two variables, so running it on the state an earlier
    run left behind changes nothing and its slots do not depend on the
    state it starts from; and for fixed replies of the collaborators the
    answer of [check_availability] does not depend on the calls made
    before, so a second run answers as the first. *)
Theorem free_slot_computation_idempotent start_dt end_dt busy st :
  free_slot_sweep start_dt end_dt busy (free_slot_sweep start_dt end_dt busy st)
  = free_slot_sweep start_dt end_dt busy st
  /\ (forall st', available_slots (free_slot_sweep start_dt end_dt busy st')
                  = free_slots start_dt end_dt busy)
  /\ (forall start_time end_time log,
        fst (check start_time end_time (snd (check start_time end_time log)))
        = fst (check start_time end_time log)).
Proof.
  split; [reflexivity |]. split; [reflexivity |].
  intros start_time end_time log.
  generalize (snd (check start_time end_time log)). intros log'.
  run_tool.
  destruct get_calendar_service as [[] | err0]; [| reflexivity].
  destruct (date_parse start_time) as [s | err1]; [| reflexivity].
  destruct (date_parse end_time) as [e | err2]; [| reflexivity].
  destruct (events_list _ _) as [r | err3]; [| reflexivity].
  destruct (default [] (items r)) as [| ev events]; [reflexivity |].
  destruct (for_each_event _ _ _) as [st1 | err4]; [| reflexivity].
  now destruct (available_slots _).
Qed.

End AvailabilityClaims.

Section BookingClaims.

Variable date_parse : string -> outcome datetime.
Variable get_localzone : Z.
Variable local_tz_name : string.
Variable isoformat : datetime -> string.
Variable strftime_A_B_d_I_M_p : datetime -> string.
Variable get_calendar_service : outcome unit.
Variable events_insert : event_body -> outcome (gmap string string).

Let book := book_appointment date_parse get_localzone local_tz_name isoformat
              strftime_A_B_d_I_M_p get_calendar_service events_insert.
Let local := localize get_localzone.

(** C6, as the code has it: [book_appointment] compares the two times
    nowhere.  A request whose end is before its start is, once the service
    is there and both times parse, sent to [events.insert] as it is; the
    answer is the success text when the provider accepts the event and
    the generic booking error when the provider raises. *)
Theorem book_appointment_inserts_unchecked
    start_time end_time summary description s e log :
  get_calendar_service = Return tt ->
  date_parse start_time = Return s ->
  date_parse end_time = Return e ->
  instant (local e) < instant (local s) ->
  let body := booking_body local_tz_name isoformat (local s) (local e)
                summary description in
  book start_time end_time summary description log
  = match events_insert body with
    | Return created_event =>
        (Return (success_message strftime_A_B_d_I_M_p summary (local s) created_event),
         log ++ [GetCalendarService] ++ [EventsInsert body])
    | Raise err =>
        (Return error_message_book,
         ((log ++ [GetCalendarService]) ++ [EventsInsert body])
           ++ [PrintError "book_appointment" err])
    end.
Proof.
  intros Hservice Hs He _ body.
  unfold book, book_appointment, try_except, bind, perform, lift, ret.
  cbn beta iota.
  rewrite Hservice, Hs, He. fold local. fold body.
  destruct (events_insert body) as [created_event | err]; [| reflexivity].
  now rewrite <- app_assoc.
Qed.

End BookingClaims.

(** *** The tools on concrete collaborators *)

Section ToolExamples.

Import Fixture.



(** C6 as stated fails: a request from 10:00 to 09:00 reaches
    [events.insert], and with a provider that accepts it the tool reports
    success. *)
Lemma booking_end_before_start_inserted :
  parse_clock "10:00" = Return (naive_clock 10 0)
  /\ parse_clock "09:00" = Return (naive_clock 9 0)
  /\ instant (localize 0 (naive_clock 9 0)) < instant (localize 0 (naive_clock 10 0))
  /\ Fixture.book accept_insert "10:00" "09:00" "Sync" []
     = (Return "Success! The appointment 'Sync' has been booked for 10:00 AM. The event link is: https://calendar.example/event"%string,
        [GetCalendarService;
         EventsInsert
           {| body_summary := "Sync";
              body_description := "";
              body_start := {| dateTime := "10:00 AM"; timeZone := "UTC" |};
              body_end := {| dateTime := "09:00 AM"; timeZone := "UTC" |} |}]).
Proof. repeat split; vm_compute; reflexivity. Qed.

Lemma book_appointment_inserts_unchecked_witness :
  parse_clock "10:00" = Return (naive_clock 10 0)
  /\ parse_clock "09:00" = Return (naive_clock 9 0)
  /\ instant (localize 0 (naive_clock 9 0)) < instant (localize 0 (naive_clock 10 0))
  /\ Fixture.book reject_insert "10:00" "09:00" "Sync" []
     = (Return error_message_book,
        [GetCalendarService;
         EventsInsert (booking_body "UTC" strftime_I_M_p (at_clock 0 10 0)
                         (at_clock 0 9 0) "Sync" "");
         PrintError "book_appointment" (HttpError 400)]).
Proof.
  assert (Hlt : instant (localize 0 (naive_clock 9 0))
                < instant (localize 0 (naive_clock 10 0)))
    by (vm_compute; reflexivity).
  split; [reflexivity |]. split; [reflexivity |]. split; [exact Hlt |].
  exact (book_appointment_inserts_unchecked parse_clock 0 "UTC" strftime_I_M_p
           strftime_I_M_p (Return tt) reject_insert "10:00" "09:00" "Sync" ""
           (naive_clock 10 0) (naive_clock 9 0) [] eq_refl eq_refl eq_refl Hlt).
Defined.

(** The answers on the two scenarios of the window 09:00-12:00, a short
    window with an event outside it, and an all-day event. *)
Example check_half_hour_event :
  fst (Fixture.check [timed_event "10:00Z" "10:30Z"] "09:00" "12:00" [])
  = Return "Here are the available 1-hour slots: 09:00 AM - 10:00 AM, 10:30 AM - 11:30 AM. Please suggest these to the user."%string.
Proof. vm_compute. reflexivity. Qed.

Example check_short_window_late_event :
  fst (Fixture.check [timed_event "11:00Z" "12:00Z"] "09:00" "09:30" [])
  = Return "Here are the available 1-hour slots: 09:00 AM - 10:00 AM, 10:00 AM - 11:00 AM. Please suggest these to the user."%string.
Proof. vm_compute. reflexivity. Qed.

Example check_all_day_event :
  Fixture.check [all_day_event "2024-01-01"] "09:00" "12:00" []
  = (Return error_message_check,
     [GetCalendarService; EventsList "09:00 AM" "12:00 PM";
      PrintError "check_availability" TypeError]).
Proof. vm_compute. reflexivity. Qed.

Example check_naive_event_time :
  Fixture.check [timed_event "10:00" "10:30"] "09:00" "12:00" []
  = (Return error_message_check,
     [GetCalendarService; EventsList "09:00 AM" "12:00 PM";
      PrintError "check_availability" TypeError]).
Proof. vm_compute. reflexivity. Qed.

End ToolExamples.

(** ** The agent graph: the claim *)

Section AgentClaims.

Import Agent.

Variable agent_runnable : AgentState -> outcome BaseMessage.
Variable tool_node : AgentState -> outcome (list BaseMessage).




End AgentClaims.


(** A response with a tool call sends the graph to [action] and back to
    [agent]. *)
Example tool_call_round_trip :
  let call := {| Agent.tool_name := "check_availability";
                 Agent.tool_args := [("start_time", "09:00"); ("end_time", "12:00")];
                 Agent.tool_call_id := "call_1" |}%string in
  let model (state : Agent.AgentState) :=
    match Agent.messages state with
    | [_] => Return (Agent.AIMessage "" [call])
    | _ => Return (Agent.AIMessage "You are free all morning." [])
    end in
  let tools (state : Agent.AgentState) :=
    Return [Agent.ToolMessage "The entire period is free." "call_1"] in
  Agent.visited model tools 25 {| Agent.messages := [Agent.HumanMessage "Am I free?"] |}
  = [Agent.agent; Agent.action; Agent.agent]
  /\ Agent.get_response model tools 25
       {| Agent.messages := [Agent.HumanMessage "Am I free?"] |}
     = Return "You are free all morning."%string.
Proof. split; vm_compute; reflexivity. Qed.

(** * Further properties *)

(** ** The free-slot sweep *)

Section SweepFurther.

Lemma packed_slots_fit (slots : list slot) (a b : Z) :
  ordered_disjoint slots ->
  Forall one_hour slots ->
  Forall (fun s => a <= fst (span s) /\ snd (span s) <= b) slots ->
  slots = [] \/ a + Z.of_nat (length slots) * HOUR <= b.
Proof.
  intros Hord. revert a.
  induction Hord as [| s rest Hrest IH Hhead]; intros a Hhour Hin; [now left |].
  right. inversion Hhour as [| ? ? [Hs _] Hhour']; subst.
  inversion Hin as [| ? ? [Hlo Hhi] Hin']; subst.
  destruct (IH (snd (span s)) Hhour') as [-> | Hfit].
  - apply List.Forall_forall. intros x Hx.
    rewrite List.Forall_forall in Hhead, Hin'.
    specialize (Hhead _ Hx). destruct (Hin' _ Hx) as [_ Hxb]. split; assumption.
  - simpl. lia.
  - cbn [length]. lia.
Qed.

(** Over fixed offsets: the sweep never emits more slots than there are
    whole hours in the window, when every busy interval starts no later than
    the window ends. *)
Lemma slot_count_bounded start_dt end_dt busy :
  Forall (starts_by end_dt) busy ->
  (length (free_slots start_dt end_dt busy) <= whole_hours start_dt end_dt)%nat.
Proof.
  intros Hstarts. rewrite free_slots_closed.
  destruct (packed_slots_fit (sweep_from start_dt busy end_dt)
              (instant start_dt) (instant end_dt)) as [-> | Hfit].
  - apply sweep_from_ordered.
  - apply sweep_from_one_hour.
  - apply List.Forall_forall. intros s Hs. split.
    + exact (sweep_from_after _ _ _ _ Hs).
    + exact (sweep_from_bounded _ _ _ _ Hstarts Hs).
  - simpl. lia.
  - unfold whole_hours. pose proof HOUR_pos as Hpos.
    assert (Z.of_nat (length (sweep_from start_dt busy end_dt))
            <= (instant end_dt - instant start_dt) / HOUR)
      by (apply Z.div_le_lower_bound; lia).
    lia.
Qed.



End SweepFurther.

(** ** [check_availability] as a whole *)

Section AvailabilityFurther.

Variable date_parse : string -> outcome datetime.
Variable get_localzone : Z.
Variable isoformat : datetime -> string.
Variable get_calendar_service : outcome unit.
Variable events_list : string -> string -> outcome events_result.

Let check := check_availability date_parse get_localzone isoformat
               get_calendar_service events_list.
Let local := localize get_localzone.

Ltac run_check :=
  unfold check, check_availability, try_except, bind, perform, lift, ret;
  cbn beta iota.

(** An event time without a UTC offset cannot be compared with the window's
    start: the tool answers with the error text. *)
Theorem naive_event_time_error
    start_time end_time s e r ev events start_obj start_text event_start log :
  get_calendar_service = Return tt ->
  date_parse start_time = Return s ->
  date_parse end_time = Return e ->
  events_list (isoformat (local s)) (isoformat (local e)) = Return r ->
  items r = Some (ev :: events) ->
  ev !! "start"%string = Some start_obj ->
  start_obj !! "dateTime"%string = Some start_text ->
  date_parse start_text = Return event_start ->
  tzinfo event_start = None ->
  check start_time end_time log
  = (Return error_message_check,
     log ++ [GetCalendarService;
             EventsList (isoformat (local s)) (isoformat (local e));
             PrintError "check_availability" TypeError]).
Proof.
  intros Hservice Hs He Hlist Hitems Hstart Htext Hparse Hnaive. run_check.
  rewrite Hservice, Hs, He. fold local. rewrite Hlist, Hitems.
  cbn [default from_option id for_each_event].
  unfold for_body, subscript. rewrite Hstart. cbn [bind_outcome].
  rewrite Htext. cbn [date_parse_py]. rewrite Hparse. cbn [bind_outcome].
  unfold dt_lt, comparable. cbn [current_time]. rewrite Hnaive.
  assert (Haware : exists off, tzinfo (local s) = Some off).
  { unfold local, localize. destruct (tzinfo s) eqn:Htz; simpl; eauto. }
  destruct Haware as [off ->]. cbn [bind_outcome].
  now rewrite <- !app_assoc.
Qed.

(** A failure of [events.list] is reported with the error text; the call is
    not repeated. *)
Theorem events_list_failure_reported start_time end_time s e err log :
  get_calendar_service = Return tt ->
  date_parse start_time = Return s ->
  date_parse end_time = Return e ->
  events_list (isoformat (local s)) (isoformat (local e)) = Raise err ->
  check start_time end_time log
  = (Return error_message_check,
     log ++ [GetCalendarService;
             EventsList (isoformat (local s)) (isoformat (local e));
             PrintError "check_availability" err]).
Proof.
  intros Hservice Hs He Hlist. run_check.
  rewrite Hservice, Hs, He. fold local. rewrite Hlist.
  now rewrite <- !app_assoc.
Qed.

End AvailabilityFurther.

(** ** Runs of the agent graph *)

Section GraphFurther.

Import Agent.

Variable agent_runnable : AgentState -> outcome BaseMessage.
Variable tool_node : AgentState -> outcome (list BaseMessage).

Lemma last_item_snoc {A} (l : list A) (x : A) : last_item (l ++ [x]) = Return x.
Proof. unfold last_item. now rewrite rev_unit. Qed.

Lemma run_agent_update state update :
  run_agent agent_runnable state = Return update ->
  exists response, update = [response].
Proof.
  unfold run_agent. destruct (agent_runnable state) as [response | e]; simpl;
    intros H; inversion H. eauto.
Qed.

Lemma agent_route state response :
  next_target agent (add_messages state [response])
  = match response with
    | AIMessage _ (_ :: _) => Return (Node action)
    | AIMessage _ [] => Return END
    | _ => Raise (AttributeError "tool_calls")
    end.
Proof.
  unfold next_target, should_continue, add_messages. cbn [messages].
  rewrite last_item_snoc. destruct response as [c | c [| call calls] | c i]; reflexivity.
Qed.

(** The conditional edges cover every label [should_continue] returns:
    routing after [agent] fails only on an empty history ([IndexError]) or
    on a last message that is not an AI message ([AttributeError]). *)
Theorem routing_after_agent state :
  match rev (messages state) with
  | [] => next_target agent state = Raise IndexError
  | AIMessage _ (_ :: _) :: _ => next_target agent state = Return (Node action)
  | AIMessage _ [] :: _ => next_target agent state = Return END
  | _ :: _ => next_target agent state = Raise (AttributeError "tool_calls")
  end.
Proof.
  unfold next_target, should_continue, last_item.
  destruct (rev (messages state)) as [| [c | c [| call calls] | c i] rest]; reflexivity.
Qed.

Lemma next_is_other n state update n' :
  run_node agent_runnable tool_node n state = Return update ->
  next_target n (add_messages state update) = Return (Node n') ->
  n' = other n.
Proof.
  intros Hrun Hnext. destruct n; cbn [run_node] in Hrun.
  - apply run_agent_update in Hrun as [response ->].
    rewrite agent_route in Hnext.
    destruct response as [c | c [| call calls] | c i]; simpl; congruence.
  - cbn [next_target] in Hnext. simpl. congruence.
Qed.

Lemma astream_alternates steps n state :
  alternates n (map fst (fst (astream agent_runnable tool_node steps n state)))
  /\ (length (fst (astream agent_runnable tool_node steps n state)) <= steps)%nat.
Proof.
  revert n state. induction steps as [| steps IH]; intros n state; cbn [astream].
  - simpl. split; [exact I | lia].
  - destruct (run_node agent_runnable tool_node n state) as [update | e] eqn:Hrun;
      [| simpl; split; [exact I | lia]].
    destruct (next_target n (add_messages state update)) as [[n' |] | e] eqn:Hnext;
      [| simpl; split; [now split | lia] | simpl; split; [now split | lia]].
    rewrite (next_is_other _ _ _ _ Hrun Hnext) in *.
    destruct (IH (other n) (add_messages state update)) as [Halt Hlen].
    destruct (astream agent_runnable tool_node steps (other n)
                (add_messages state update)) as [events result].
    simpl in *. split; [now split | lia].
Qed.

(** In every run, finished or not, the nodes take turns: [agent] first,
    [action] only after [agent] and [agent] again after [action]; and no run
    has more node runs than the bound allows. *)
Theorem run_alternates steps inputs :
  alternates agent (visited agent_runnable tool_node steps inputs)
  /\ (length (visited agent_runnable tool_node steps inputs) <= steps)%nat.
Proof.
  unfold visited, entry_point. rewrite length_map. apply astream_alternates.
Qed.

Lemma astream_history steps n state events final :
  astream agent_runnable tool_node steps n state = (events, Return final) ->
  messages final = messages state ++ concat (map snd events).
Proof.
  revert n state events. induction steps as [| steps IH]; intros n state events;
    cbn [astream]; [discriminate |].
  destruct (run_node agent_runnable tool_node n state) as [update | e];
    [| discriminate].
  destruct (next_target n (add_messages state update)) as [[n' |] | e];
    [| | discriminate].
  - destruct (astream agent_runnable tool_node steps n' (add_messages state update))
      as [rest result] eqn:Hrest.
    intros H. inversion H; subst. rewrite (IH _ _ _ Hrest).
    cbn [add_messages messages map concat snd]. now rewrite <- app_assoc.
  - intros H. inversion H; subst.
    cbn [add_messages messages map concat snd]. now rewrite app_nil_r.
Qed.

Lemma astream_finish steps n state events final :
  astream agent_runnable tool_node steps n state = (events, Return final) ->
  exists earlier content,
    events = earlier ++ [(agent, [AIMessage content []])]
    /\ last_item (messages final) = Return (AIMessage content []).
Proof.
  revert n state events. induction steps as [| steps IH]; intros n state events;
    cbn [astream]; [discriminate |].
  destruct (run_node agent_runnable tool_node n state) as [update | e] eqn:Hrun;
    [| discriminate].
  destruct (next_target n (add_messages state update)) as [[n' |] | e] eqn:Hnext;
    [| | discriminate].
  - destruct (astream agent_runnable tool_node steps n' (add_messages state update))
      as [rest result] eqn:Hrest.
    intros H. inversion H; subst.
    destruct (IH _ _ _ Hrest) as (earlier & content & -> & Hlast).
    exists ((n, update) :: earlier), content. now split.
  - intros H. inversion H; subst. destruct n; [| discriminate].
    apply run_agent_update in Hrun as [response ->].
    rewrite agent_route in Hnext.
    destruct response as [c | c [| call calls] | c i]; try discriminate.
    exists [], c. split; [reflexivity |].
    cbn [add_messages messages]. apply last_item_snoc.
Qed.

(** A run that finishes has only appended to the history: the final
    messages are the ones given followed by the updates of the nodes in
    order. *)
Theorem run_history_append_only steps inputs events final :
  astream agent_runnable tool_node steps entry_point inputs = (events, Return final) ->
  messages final = messages inputs ++ concat (map snd events).
Proof. apply astream_history. Qed.

(** A run that finishes ends with an update of [agent] that is an AI
    message without tool calls; that message is the last of the final
    history and its content is what [get_response] returns. *)
Theorem run_output_is_final_response steps inputs events final :
  astream agent_runnable tool_node steps entry_point inputs = (events, Return final) ->
  exists earlier content,
    events = earlier ++ [(agent, [AIMessage content []])]
    /\ last_item (messages final) = Return (AIMessage content [])
    /\ get_response agent_runnable tool_node steps inputs = Return content.
Proof.
  intros Hrun. destruct (astream_finish _ _ _ _ _ Hrun) as (earlier & content & -> & Hlast).
  exists earlier, content. split; [reflexivity |]. split; [exact Hlast |].
  unfold get_response. rewrite Hrun. cbn [bind_outcome].
  rewrite last_item_snoc. cbn [bind_outcome].
  change [AIMessage content []] with ([] ++ [AIMessage content []]).
  now rewrite last_item_snoc.
Qed.

End GraphFurther.

(** ** The chat shell *)

Section ShellFurther.

Import Shell.

Variable agent_runnable : Agent.AgentState -> outcome Agent.BaseMessage.
Variable tool_node : Agent.AgentState -> outcome (list Agent.BaseMessage).
Variable recursion_limit : nat.
Variable str_exn : exn -> string.

Let turn := chat_turn agent_runnable tool_node recursion_limit str_exn.
Let reply := respond agent_runnable tool_node recursion_limit str_exn.

Lemma to_history_app a b : to_history (a ++ b) = to_history a ++ to_history b.
Proof. unfold to_history. apply flat_map_app. Qed.

Lemma chat_turn_prompt messages c rest :
  turn (Some (String c rest)) messages
  = messages
      ++ [{| role := "user"; content := String c rest |};
          {| role := "assistant";
             content := reply (to_history messages
                                 ++ [Agent.HumanMessage (String c rest)]) |}].
Proof.
  unfold turn, chat_turn, reply.
  rewrite to_history_app. cbn [to_history flat_map as_message role content].
  rewrite <- app_assoc. reflexivity.
Qed.

(** Without a prompt the session is left as it is.  With one, the session
    grows by exactly two entries whatever the agent does: the user's prompt
    and one assistant entry; the agent is given the whole history so far,
    ending with the prompt as a human message. *)
Theorem chat_turn_appends_two messages :
  turn None messages = messages
  /\ turn (Some ""%string) messages = messages
  /\ forall c rest,
       turn (Some (String c rest)) messages
       = messages
           ++ [{| role := "user"; content := String c rest |};
               {| role := "assistant";
                  content := reply (to_history messages
                                      ++ [Agent.HumanMessage (String c rest)]) |}].
Proof.
  split; [reflexivity |]. split; [reflexivity |]. apply chat_turn_prompt.
Qed.

Lemma as_message_known msg :
  known_role msg ->
  exists m, as_message msg = [m] /\ Agent.content_of m = content msg.
Proof.
  unfold known_role, as_message. intros [-> | ->]; simpl; eauto.
Qed.

(** The shell writes only the roles it reads back: in a session whose
    entries are all of role user or assistant, a turn keeps it so, and the
    history built for the agent has every entry, in order, with its
    content. *)
Theorem known_roles_full_history prompt messages :
  Forall known_role messages ->
  Forall known_role (turn prompt messages)
  /\ map Agent.content_of (to_history messages) = map content messages.
Proof.
  intros Hknown. split.
  - unfold turn, chat_turn. destruct prompt as [[| c rest] |]; try assumption.
    rewrite !Forall_app. split; [split; [assumption |] |].
    + constructor; [now left | constructor].
    + constructor; [now right | constructor].
  - induction Hknown as [| msg rest Hmsg Hrest IH]; [reflexivity |].
    cbn [to_history flat_map map]. fold (to_history rest).
    destruct (as_message_known msg Hmsg) as (m & -> & Hcontent).
    simpl. now rewrite Hcontent, IH.
Qed.

(** When the model answers the history with a message without tool calls,
    the turn appends the prompt and that answer. *)
Theorem chat_turn_plain_reply messages c rest text :
  recursion_limit <> 0%nat ->
  agent_runnable
    {| Agent.messages := to_history messages ++ [Agent.HumanMessage (String c rest)] |}
  = Return (Agent.AIMessage text []) ->
  turn (Some (String c rest)) messages
  = messages ++ [{| role := "user"; content := String c rest |};
                 {| role := "assistant"; content := text |}].
Proof.
  intros Hlimit Hmodel.
  rewrite chat_turn_prompt.
  do 3 f_equal. unfold reply, respond, Agent.get_response, Agent.entry_point.
  destruct recursion_limit as [| steps]; [congruence |].
  cbn [Agent.astream Agent.run_node]. unfold Agent.run_agent. rewrite Hmodel.
  cbn [bind_outcome]. rewrite agent_route. reflexivity.
Qed.

(** When the model call raises, the turn still appends two entries: the
    prompt and the text about an unexpected error. *)
Theorem chat_turn_model_failure messages c rest err :
  recursion_limit <> 0%nat ->
  agent_runnable
    {| Agent.messages := to_history messages ++ [Agent.HumanMessage (String c rest)] |}
  = Raise err ->
  turn (Some (String c rest)) messages
  = messages ++ [{| role := "user"; content := String c rest |};
                 {| role := "assistant";
                    content := unexpected_error_text (str_exn err) |}].
Proof.
  intros Hlimit Hmodel.
  rewrite chat_turn_prompt.
  do 3 f_equal. unfold reply, respond, Agent.get_response, Agent.entry_point.
  destruct recursion_limit as [| steps]; [congruence |].
  cbn [Agent.astream Agent.run_node]. unfold Agent.run_agent. rewrite Hmodel.
  reflexivity.
Qed.

End ShellFurther.

(** ** Credentials *)

Section AuthFurther.

Variables creds flow service : Type.
Variable from_authorized_user_file : string -> outcome creds.
Variable from_client_secrets_file : string -> outcome flow.
Variable valid : creds -> bool.
Variable expired : creds -> bool.
Variable refresh_token : creds -> option string.
Variable to_json : creds -> string.
Variable refresh : creds -> outcome creds.
Variable run_local_server : flow -> outcome creds.
Variable build : creds -> outcome service.
Variable str_exn : exn -> string.

Let service_of := Auth.get_calendar_service creds flow service
                    from_authorized_user_file from_client_secrets_file
                    valid expired refresh_token to_json refresh run_local_server build.
Let generate := Auth.generate_google_token creds flow
                  from_client_secrets_file to_json run_local_server str_exn.

Ltac run_auth :=
  unfold service_of, generate, Auth.get_calendar_service, Auth.generate_google_token,
    Auth.renew, Auth.login, print, try_w, bind_w, ret_w, lift_w, effect_w,
    path_exists, read_file, write_file;
  cbn beta iota; cbn [fs effects].

Lemma service_from_valid_token w text c :
  fs w !! "token.json"%string = Some text ->
  from_authorized_user_file text = Return c ->
  valid c = true ->
  service_of w = (build c, {| fs := fs w; effects := effects w ++ [Build] |}).
Proof.
  intros Htoken Hload Hvalid. run_auth.
  rewrite Htoken. cbn beta iota. rewrite ?Htoken. cbn beta iota.
  rewrite Hload. cbn beta iota. rewrite Hvalid. reflexivity.
Qed.

(** With a stored token that is valid, the service is built from it as it
    is: no file is written, nothing is refreshed, no browser is opened. *)
Theorem valid_token_used_as_is w text c :
  fs w !! "token.json"%string = Some text ->
  from_authorized_user_file text = Return c ->
  valid c = true ->
  service_of w = (build c, {| fs := fs w; effects := effects w ++ [Build] |}).
Proof. apply service_from_valid_token. Qed.

(** The browser is opened once: on a first run with [credentials.json]
    only, the credentials of the browser flow are stored, and when they read
    back as valid credentials the next call builds the service from the
    stored token without another flow. *)
Theorem login_happens_once w text f c :
  fs w !! "token.json"%string = None ->
  fs w !! "credentials.json"%string = Some text ->
  from_client_secrets_file text = Return f ->
  run_local_server f = Return c ->
  from_authorized_user_file (to_json c) = Return c ->
  valid c = true ->
  let w1 := {| fs := <["token.json"%string := to_json c]> (fs w);
               effects := effects w ++ [RunLocalServer; Build] |} in
  service_of w = (build c, w1)
  /\ service_of w1 = (build c, {| fs := fs w1; effects := effects w1 ++ [Build] |}).
Proof.
  intros Htoken Hcredentials Hflow Hserver Hback Hvalid w1. split.
  - run_auth. rewrite Htoken. cbn beta iota. rewrite Hcredentials. cbn beta iota.
    rewrite Hflow. cbn beta iota. rewrite Hserver. cbn beta iota. cbn [fs effects].
    unfold w1. now rewrite <- app_assoc.
  - apply (service_from_valid_token w1 (to_json c) c); [| assumption | assumption].
    unfold w1. cbn [fs]. apply lookup_insert_eq.
Qed.

(** The token [generate_google_token] writes is the one
    [get_calendar_service] uses: after a successful run of the script, the
    service is built from the stored token without a browser flow, when the
    written credentials read back as valid ones. *)
Theorem generated_token_is_used w text f c :
  fs w !! "credentials.json"%string = Some text ->
  from_client_secrets_file text = Return f ->
  run_local_server f = Return c ->
  from_authorized_user_file (to_json c) = Return c ->
  valid c = true ->
  fst (generate w) = Return tt
  /\ fs (snd (generate w)) = <["token.json"%string := to_json c]> (fs w)
  /\ service_of (snd (generate w))
     = (build c,
        {| fs := fs (snd (generate w));
           effects := effects (snd (generate w)) ++ [Build] |}).
Proof.
  intros Hcredentials Hflow Hserver Hback Hvalid.
  assert (Hgen : generate w
                 = (Return tt,
                    {| fs := <["token.json"%string := to_json c]> (fs w);
                       effects :=
                         effects w
                           ++ [PrintLine "Starting Google Authentication flow...";
                               PrintLine "A browser window will open for you to log in and grant permissions.";
                               RunLocalServer;
                               PrintLine (Auth.token_created_text);
                               PrintLine "You can now close this script and proceed with the deployment steps."] |})).
  { run_auth. rewrite Hcredentials. cbn beta iota. cbn [negb fs effects].
    rewrite Hcredentials. cbn beta iota. rewrite Hflow. cbn beta iota.
    rewrite Hserver. cbn beta iota. cbn [fs effects].
    now rewrite <- !app_assoc. }
  rewrite Hgen. split; [reflexivity |]. split; [reflexivity |].
  apply (service_from_valid_token _ (to_json c) c); [| assumption | assumption].
  cbn [snd fs]. apply lookup_insert_eq.
Qed.

(** A stored token that is invalid but expired with a refresh token is
    refreshed, without the browser; the refreshed credentials are written
    to [token.json] and the service is built from them. *)
Theorem expired_token_refreshed w text c a rest c' :
  fs w !! "token.json"%string = Some text ->
  from_authorized_user_file text = Return c ->
  valid c = false ->
  expired c = true ->
  refresh_token c = Some (String a rest) ->
  refresh c = Return c' ->
  service_of w
  = (build c',
     {| fs := <["token.json"%string := to_json c']> (fs w);
        effects := effects w ++ [Refresh; Build] |}).
Proof.
  intros Htoken Hload Hvalid Hexpired Hrefresh Hfresh. run_auth.
  rewrite Htoken. cbn beta iota. rewrite ?Htoken. cbn beta iota. rewrite Hload. cbn beta iota.
  rewrite Hvalid, Hexpired, Hrefresh. cbn [andb truthy].
  rewrite Hfresh. cbn beta iota. cbn [fs effects].
  now rewrite <- app_assoc.
Qed.

(** Without [token.json] and without [credentials.json] the call raises
    [FileNotFoundError]; no file is written and no browser is opened. *)
Theorem first_run_needs_credentials_file w :
  fs w !! "token.json"%string = None ->
  fs w !! "credentials.json"%string = None ->
  service_of w = (Raise (OtherException "FileNotFoundError"), w).
Proof.
  intros Htoken Hcredentials. run_auth.
  rewrite Htoken. cbn beta iota. rewrite Hcredentials. reflexivity.
Qed.

Lemma renew_touches_only_token stored w :
  let r := Auth.renew creds flow from_client_secrets_file expired refresh_token
             to_json refresh run_local_server stored w in
  only_writes "token.json" w (snd r)
  /\ (forall c, fst r = Return c -> is_Some (fs (snd r) !! "token.json"%string)).
Proof.
  assert (Hlogin :
    let r := (let (o, w') := Auth.login creds flow from_client_secrets_file
                               run_local_server w in
              match o with
              | Return fresh =>
                  let (o0, w'0) := write_file "token.json" (to_json fresh) w' in
                  match o0 with
                  | Return _ => (Return fresh, w'0)
                  | Raise e => (Raise e, w'0)
                  end
              | Raise e => (Raise e, w')
              end) in
    only_writes "token.json" w (snd r)
    /\ (forall c, fst r = Return c -> is_Some (fs (snd r) !! "token.json"%string))).
  { unfold Auth.login, bind_w, lift_w, effect_w, read_file, write_file, only_writes.
    cbn beta iota zeta.
    destruct (fs w !! "credentials.json"%string) as [text |]; cbn beta iota;
      [destruct (from_client_secrets_file text) as [f | e1]; cbn beta iota;
       [destruct (run_local_server f) as [c' | e2]; cbn beta iota |] |];
      cbn [fs effects fst snd];
      (split;
       [ intros p Hp; rewrite ?lookup_insert_ne by congruence; reflexivity
       | intros c0 Hc0; try discriminate; rewrite ?lookup_insert_eq; eauto ]). }
  unfold Auth.renew, bind_w, ret_w. cbn beta iota zeta.
  destruct stored as [c |]; [| exact Hlogin].
  destruct (expired c && truthy (refresh_token c)); [| exact Hlogin].
  unfold effect_w, write_file, only_writes.
  destruct (refresh c) as [c' | e2]; cbn beta iota; cbn [fs effects fst snd];
    (split;
     [ intros p Hp; rewrite ?lookup_insert_ne by congruence; reflexivity
     | intros c0 Hc0; try discriminate; rewrite ?lookup_insert_eq; eauto ]).
Qed.

(** [get_calendar_service] writes no file but [token.json], whatever
    happens; and when it returns a service, [token.json] exists. *)
Theorem service_touches_only_token w :
  only_writes "token.json" w (snd (service_of w))
  /\ (forall svc, fst (service_of w) = Return svc ->
        is_Some (fs (snd (service_of w)) !! "token.json"%string)).
Proof.
  unfold service_of, Auth.get_calendar_service, bind_w, ret_w, lift_w, effect_w,
    path_exists, read_file.
  cbn beta iota.
  assert (Hrenew : forall stored,
             let r := (let (o, w') :=
                         Auth.renew creds flow from_client_secrets_file expired
                           refresh_token to_json refresh run_local_server stored w in
                       match o with
                       | Return c =>
                           (build c, {| fs := fs w'; effects := effects w' ++ [Build] |})
                       | Raise e => (@Raise service e, w')
                       end) in
             only_writes "token.json" w (snd r)
             /\ (forall svc, fst r = Return svc ->
                   is_Some (fs (snd r) !! "token.json"%string))).
  { intros stored. pose proof (renew_touches_only_token stored w) as [Hframe Hthere].
    cbn zeta in *.
    destruct (Auth.renew _ _ _ _ _ _ _ _ stored w) as [[c | e] w']; cbn [fst snd fs] in *.
    - split; [exact Hframe | intros svc _; now apply (Hthere c)].
    - split; [exact Hframe | discriminate]. }
  destruct (fs w !! "token.json"%string) as [text |] eqn:Htoken; cbn beta iota;
    rewrite ?Htoken; cbn beta iota; [| apply Hrenew].
  destruct (from_authorized_user_file text) as [c | e0]; cbn beta iota;
    [| split; [intros p Hp; reflexivity | discriminate]].
  destruct (valid c); cbn beta iota; [| apply Hrenew].
  split; [intros p Hp; reflexivity |]. intros svc _. cbn [snd fs].
  rewrite Htoken. eauto.
Qed.

(** Without [credentials.json], [generate_google_token] prints that the file
    is missing and does nothing else. *)
Theorem generate_token_needs_credentials_file w :
  fs w !! "credentials.json"%string = None ->
  generate w
  = (Return tt,
     {| fs := fs w;
        effects := effects w ++ [PrintLine (Auth.missing_credentials_text)] |}).
Proof.
  intros Hcredentials. run_auth. rewrite Hcredentials. reflexivity.
Qed.

(** [generate_google_token] never raises.  It leaves the files as they are
    or writes [token.json] with the credentials the browser flow returned,
    and writes it in no other case. *)
Theorem generate_token_outcomes w :
  fst (generate w) = Return tt
  /\ (fs (snd (generate w)) = fs w
      \/ exists text f c,
           fs w !! "credentials.json"%string = Some text
           /\ from_client_secrets_file text = Return f
           /\ run_local_server f = Return c
           /\ fs (snd (generate w)) = <["token.json"%string := to_json c]> (fs w)).
Proof.
  run_auth.
  destruct (fs w !! "credentials.json"%string) as [text |] eqn:Hcredentials;
    cbn beta iota; cbn [negb fs effects]; [| split; [reflexivity | now left]].
  rewrite Hcredentials. cbn beta iota.
  destruct (from_client_secrets_file text) as [f | e0] eqn:Hflow; cbn beta iota;
    [| split; [reflexivity | now left]].
  destruct (run_local_server f) as [c | e1] eqn:Hserver; cbn beta iota;
    cbn [fs effects snd fst]; [| split; [reflexivity | now left]].
  split; [reflexivity |]. right. exists text, f, c. now repeat split.
Qed.

End AuthFurther.

Section SetupFurther.

Variable secrets : Auth.secrets_store.

Ltac run_setup :=
  unfold Auth.setup_google_credentials, bind_w, ret_w, lift_w, effect_w,
    path_exists, write_file;
  cbn beta iota; cbn [fs effects].

Lemma secret_error section key e :
  Auth.secret secrets section key = Raise e -> Auth.key_or_file_error e = true.
Proof.
  unfold Auth.secret, subscript. destruct secrets as [sections |].
  - destruct (sections !! section) as [table |]; simpl.
    + destruct (table !! key); intros H; inversion H. reflexivity.
    + intros H. inversion H. reflexivity.
  - intros H. inversion H. reflexivity.
Qed.

Lemma setup_guard w credentials_text token_text :
  fs w !! "credentials.json"%string = Some credentials_text ->
  fs w !! "token.json"%string = Some token_text ->
  Auth.setup_google_credentials secrets w = (Return Auth.Continue, w).
Proof.
  intros Hcredentials Htoken. run_setup. rewrite Hcredentials, Htoken. reflexivity.
Qed.

(** When both files are there, [setup_google_credentials] returns at once
    and changes nothing, whatever the secrets hold. *)
Theorem setup_keeps_existing_files w credentials_text token_text :
  fs w !! "credentials.json"%string = Some credentials_text ->
  fs w !! "token.json"%string = Some token_text ->
  Auth.setup_google_credentials secrets w = (Return Auth.Continue, w).
Proof. apply setup_guard. Qed.

(** When a file is missing and one of the two secrets cannot be read, the
    script shows the error and stops, and no file has been written, not
    even the one whose secret was there. *)
Theorem setup_stops_without_secrets w :
  fs w !! "credentials.json"%string = None \/ fs w !! "token.json"%string = None ->
  (exists e, Auth.secret secrets "gcp_service_account" "credentials" = Raise e)
  \/ (exists e, Auth.secret secrets "gcp_service_account" "token" = Raise e) ->
  Auth.setup_google_credentials secrets w
  = (Return Auth.Stop,
     {| fs := fs w; effects := effects w ++ [StError Auth.secrets_missing_text] |}).
Proof.
  intros Hmissing Hsecrets. run_setup.
  assert (Hguard : (match fs w !! "credentials.json"%string with
                    | Some _ => true | None => false end)
                   && (match fs w !! "token.json"%string with
                       | Some _ => true | None => false end) = false).
  { destruct Hmissing as [-> | ->]; [reflexivity | apply andb_false_r]. }
  rewrite Hguard.
  destruct Hsecrets as [[e He] | [e He]].
  - rewrite He. cbn beta iota. now rewrite (secret_error _ _ _ He).
  - destruct (Auth.secret secrets "gcp_service_account" "credentials")
      as [creds_json_str | e0] eqn:Hcreds; cbn beta iota.
    + rewrite He. cbn beta iota. now rewrite (secret_error _ _ _ He).
    + now rewrite (secret_error _ _ _ Hcreds).
Qed.

(** When a file is missing and both secrets are there, both files are
    written from the secrets, also the one that existed; running the setup
    again then changes nothing. *)
Theorem setup_writes_both_files w creds_json_str token_json_str :
  fs w !! "credentials.json"%string = None \/ fs w !! "token.json"%string = None ->
  Auth.secret secrets "gcp_service_account" "credentials" = Return creds_json_str ->
  Auth.secret secrets "gcp_service_account" "token" = Return token_json_str ->
  let w' := {| fs := <["token.json"%string := token_json_str]>
                       (<["credentials.json"%string := creds_json_str]> (fs w));
               effects := effects w |} in
  Auth.setup_google_credentials secrets w = (Return Auth.Continue, w')
  /\ Auth.setup_google_credentials secrets w' = (Return Auth.Continue, w').
Proof.
  intros Hmissing Hcreds Htoken w'. split.
  - run_setup.
    assert (Hguard : (match fs w !! "credentials.json"%string with
                      | Some _ => true | None => false end)
                     && (match fs w !! "token.json"%string with
                         | Some _ => true | None => false end) = false).
    { destruct Hmissing as [-> | ->]; [reflexivity | apply andb_false_r]. }
    rewrite Hguard, Hcreds. cbn beta iota. rewrite Htoken. reflexivity.
  - apply (setup_guard w' creds_json_str token_json_str); unfold w'; cbn [fs].
    + rewrite lookup_insert_ne by discriminate. apply lookup_insert_eq.
    + apply lookup_insert_eq.
Qed.

End SetupFurther.

(** ** The further properties on concrete collaborators *)

Section FurtherExamples.

Import Fixture Samples.

Lemma naive_event_time_error_witness :
  parse_clock "10:00" = Return (naive_clock 10 0)
  /\ tzinfo (naive_clock 10 0) = None
  /\ Fixture.check [timed_event "10:00" "10:30"] "09:00" "12:00" []
     = (Return error_message_check,
        [GetCalendarService; EventsList "09:00 AM" "12:00 PM";
         PrintError "check_availability" TypeError]).
Proof.
  split; [reflexivity |]. split; [reflexivity |].
  exact (naive_event_time_error parse_clock 0 strftime_I_M_p (Return tt)
           (calendar_with [timed_event "10:00" "10:30"]) "09:00" "12:00"
           (naive_clock 9 0) (naive_clock 12 0)
           {| items := Some [timed_event "10:00" "10:30"] |}
           (timed_event "10:00" "10:30") []
           {[ "dateTime"%string := "10:00"%string ]} "10:00" (naive_clock 10 0) []
           eq_refl eq_refl eq_refl eq_refl eq_refl eq_refl eq_refl eq_refl eq_refl).
Defined.

Lemma events_list_failure_reported_witness :
  failing_list "09:00 AM" "12:00 PM" = Raise (HttpError 503)
  /\ check_availability parse_clock 0 strftime_I_M_p (Return tt) failing_list
       "09:00" "12:00" []
     = (Return error_message_check,
        [GetCalendarService; EventsList "09:00 AM" "12:00 PM";
         PrintError "check_availability" (HttpError 503)]).
Proof.
  split; [reflexivity |].
  exact (events_list_failure_reported parse_clock 0 strftime_I_M_p (Return tt)
           failing_list "09:00" "12:00" (naive_clock 9 0) (naive_clock 12 0)
           (HttpError 503) [] eq_refl eq_refl eq_refl eq_refl).
Defined.

Lemma run_history_append_only_witness :
  let inputs := {| Agent.messages := [Agent.HumanMessage "Good morning"] |} in
  let events := [(Agent.agent, [Agent.AIMessage "Hello!" []])] in
  let final := {| Agent.messages := [Agent.HumanMessage "Good morning";
                                     Agent.AIMessage "Hello!" []] |} in
  Agent.astream (plain_model "Hello!") idle_tool_node 25 Agent.entry_point inputs
  = (events, Return final)
  /\ Agent.messages final = Agent.messages inputs ++ concat (map snd events).
Proof.
  split; [reflexivity |].
  exact (run_history_append_only (plain_model "Hello!") idle_tool_node 25
           {| Agent.messages := [Agent.HumanMessage "Good morning"] |}
           [(Agent.agent, [Agent.AIMessage "Hello!" []])]
           {| Agent.messages := [Agent.HumanMessage "Good morning";
                                 Agent.AIMessage "Hello!" []] |} eq_refl).
Defined.

Lemma run_output_is_final_response_witness :
  let inputs := {| Agent.messages := [Agent.HumanMessage "Good morning"] |} in
  let events := [(Agent.agent, [Agent.AIMessage "Hello!" []])] in
  let final := {| Agent.messages := [Agent.HumanMessage "Good morning";
                                     Agent.AIMessage "Hello!" []] |} in
  Agent.astream (plain_model "Hello!") idle_tool_node 25 Agent.entry_point inputs
  = (events, Return final)
  /\ exists earlier content,
       events = earlier ++ [(Agent.agent, [Agent.AIMessage content []])]
       /\ Agent.last_item (Agent.messages final) = Return (Agent.AIMessage content [])
       /\ Agent.get_response (plain_model "Hello!") idle_tool_node 25 inputs
          = Return content.
Proof.
  split; [reflexivity |].
  exact (run_output_is_final_response (plain_model "Hello!") idle_tool_node 25
           {| Agent.messages := [Agent.HumanMessage "Good morning"] |}
           [(Agent.agent, [Agent.AIMessage "Hello!" []])]
           {| Agent.messages := [Agent.HumanMessage "Good morning";
                                 Agent.AIMessage "Hello!" []] |} eq_refl).
Defined.

Lemma known_roles_full_history_witness :
  let messages := Shell.session_messages None in
  Forall known_role messages
  /\ Forall known_role
       (Shell.chat_turn (plain_model "Hello!") idle_tool_node 25 describe
          (Some "Am I free at nine?"%string) messages)
  /\ map Agent.content_of (Shell.to_history messages) = map Shell.content messages.
Proof.
  assert (Hknown : Forall known_role (Shell.session_messages None))
    by (constructor; [right; reflexivity | constructor]).
  split; [exact Hknown |].
  exact (known_roles_full_history (plain_model "Hello!") idle_tool_node 25 describe
           (Some "Am I free at nine?"%string) _ Hknown).
Defined.

Lemma chat_turn_plain_reply_witness :
  let messages := Shell.session_messages None in
  25%nat <> 0%nat
  /\ plain_model "Hello!"
       {| Agent.messages := Shell.to_history messages ++ [Agent.HumanMessage "Hi"] |}
     = Return (Agent.AIMessage "Hello!" [])
  /\ Shell.chat_turn (plain_model "Hello!") idle_tool_node 25 describe
       (Some "Hi"%string) messages
     = messages ++ [{| Shell.role := "user"; Shell.content := "Hi" |};
                    {| Shell.role := "assistant"; Shell.content := "Hello!" |}].
Proof.
  assert (Hlimit : 25%nat <> 0%nat) by discriminate.
  split; [exact Hlimit |]. split; [reflexivity |].
  exact (chat_turn_plain_reply (plain_model "Hello!") idle_tool_node 25 describe
           (Shell.session_messages None) "H" "i" "Hello!" Hlimit eq_refl).
Defined.

Lemma chat_turn_model_failure_witness :
  let messages := Shell.session_messages None in
  25%nat <> 0%nat
  /\ failing_model
       {| Agent.messages := Shell.to_history messages ++ [Agent.HumanMessage "Hi"] |}
     = Raise (HttpError 500)
  /\ Shell.chat_turn failing_model idle_tool_node 25 describe (Some "Hi"%string) messages
     = messages
         ++ [{| Shell.role := "user"; Shell.content := "Hi" |};
             {| Shell.role := "assistant";
                Shell.content := "An unexpected error occurred: the model is unreachable" |}].
Proof.
  assert (Hlimit : 25%nat <> 0%nat) by discriminate.
  split; [exact Hlimit |]. split; [reflexivity |].
  exact (chat_turn_model_failure failing_model idle_tool_node 25 describe
           (Shell.session_messages None) "H" "i" (HttpError 500) Hlimit eq_refl).
Defined.

Lemma valid_token_used_as_is_witness :
  let w := token_only "valid token" in
  fs w !! "token.json"%string = Some "valid token"%string
  /\ (exists c, load_token "valid token" = Return c /\ is_valid c = true)
  /\ service_sample w
     = (Return "valid token"%string, {| fs := fs w; effects := [Build] |}).
Proof.
  split; [reflexivity |]. split; [eexists; split; reflexivity |].
  exact (valid_token_used_as_is sample_creds string string load_token load_client
           is_valid is_expired token_to_refresh json refresh_sample browser_login
           build_sample (token_only "valid token") "valid token" _
           eq_refl eq_refl eq_refl).
Defined.

Lemma expired_token_refreshed_witness :
  let w := token_only "expired token" in
  fs w !! "token.json"%string = Some "expired token"%string
  /\ (exists c, load_token "expired token" = Return c
                /\ is_valid c = false /\ is_expired c = true
                /\ token_to_refresh c = Some "refresh me"%string)
  /\ service_sample w
     = (Return "refreshed token"%string,
        {| fs := <["token.json"%string := "refreshed token"%string]> (fs w);
           effects := [Refresh; Build] |}).
Proof.
  split; [reflexivity |]. split; [eexists; repeat split; reflexivity |].
  exact (expired_token_refreshed sample_creds string string load_token load_client
           is_valid is_expired token_to_refresh json refresh_sample browser_login
           build_sample (token_only "expired token") "expired token" _ "r" "efresh me" _
           eq_refl eq_refl eq_refl eq_refl eq_refl eq_refl).
Defined.

Lemma first_run_needs_credentials_file_witness :
  fs empty_directory !! "token.json"%string = None
  /\ fs empty_directory !! "credentials.json"%string = None
  /\ service_sample empty_directory
     = (Raise (OtherException "FileNotFoundError"), empty_directory).
Proof.
  split; [reflexivity |]. split; [reflexivity |].
  exact (first_run_needs_credentials_file sample_creds string string load_token
           load_client is_valid is_expired token_to_refresh json refresh_sample
           browser_login build_sample empty_directory eq_refl eq_refl).
Defined.

Lemma generate_token_needs_credentials_file_witness :
  fs (token_only "valid token") !! "credentials.json"%string = None
  /\ generate_sample (token_only "valid token")
     = (Return tt,
        {| fs := fs (token_only "valid token");
           effects := [PrintLine Auth.missing_credentials_text] |}).
Proof.
  split; [reflexivity |].
  exact (generate_token_needs_credentials_file sample_creds string load_client json
           browser_login describe (token_only "valid token") eq_refl).
Defined.

Lemma setup_keeps_existing_files_witness :
  fs both_files !! "credentials.json"%string = Some "client secrets"%string
  /\ fs both_files !! "token.json"%string = Some "valid token"%string
  /\ Auth.setup_google_credentials None both_files = (Return Auth.Continue, both_files).
Proof.
  split; [reflexivity |]. split; [reflexivity |].
  exact (setup_keeps_existing_files None both_files _ _ eq_refl eq_refl).
Defined.

Lemma setup_stops_without_secrets_witness :
  let w := token_only "valid token" in
  (fs w !! "credentials.json"%string = None \/ fs w !! "token.json"%string = None)
  /\ ((exists e, Auth.secret secrets_without_token "gcp_service_account" "credentials"
                 = Raise e)
      \/ (exists e, Auth.secret secrets_without_token "gcp_service_account" "token"
                    = Raise e))
  /\ Auth.setup_google_credentials secrets_without_token w
     = (Return Auth.Stop,
        {| fs := fs w; effects := [StError Auth.secrets_missing_text] |}).
Proof.
  assert (Hmissing : fs (token_only "valid token") !! "credentials.json"%string = None
                     \/ fs (token_only "valid token") !! "token.json"%string = None)
    by (left; reflexivity).
  assert (Hsecrets :
            (exists e, Auth.secret secrets_without_token "gcp_service_account" "credentials"
                       = Raise e)
            \/ (exists e, Auth.secret secrets_without_token "gcp_service_account" "token"
                          = Raise e))
    by (right; exists (KeyError "token"); reflexivity).
  split; [exact Hmissing |]. split; [exact Hsecrets |].
  exact (setup_stops_without_secrets secrets_without_token (token_only "valid token")
           Hmissing Hsecrets).
Defined.

Lemma setup_writes_both_files_witness :
  let w := token_only "expired token" in
  let w' := {| fs := <["token.json"%string := "valid token"%string]>
                       (<["credentials.json"%string := "client secrets"%string]> (fs w));
               effects := effects w |} in
  (fs w !! "credentials.json"%string = None \/ fs w !! "token.json"%string = None)
  /\ Auth.secret full_secrets "gcp_service_account" "credentials"
     = Return "client secrets"%string
  /\ Auth.secret full_secrets "gcp_service_account" "token" = Return "valid token"%string
  /\ Auth.setup_google_credentials full_secrets w = (Return Auth.Continue, w')
  /\ Auth.setup_google_credentials full_secrets w' = (Return Auth.Continue, w').
Proof.
  assert (Hmissing : fs (token_only "expired token") !! "credentials.json"%string = None
                     \/ fs (token_only "expired token") !! "token.json"%string = None)
    by (left; reflexivity).
  split; [exact Hmissing |]. split; [reflexivity |]. split; [reflexivity |].
  exact (setup_writes_both_files full_secrets (token_only "expired token")
           "client secrets" "valid token" Hmissing eq_refl eq_refl).
Defined.

End FurtherExamples.

(** ** Endless runs *)

Section EndlessRuns.

Import Agent.

Variable agent_runnable : AgentState -> outcome BaseMessage.
Variable tool_node : AgentState -> outcome (list BaseMessage).

Hypothesis always_tool_calls :
  forall state, exists content call calls,
    agent_runnable state = Return (AIMessage content (call :: calls)).
Hypothesis tools_answer : forall state, exists update, tool_node state = Return update.

Lemma astream_uses_all_steps steps n state :
  snd (astream agent_runnable tool_node steps n state) = Raise GraphRecursionError
  /\ length (fst (astream agent_runnable tool_node steps n state)) = steps.
Proof.
  revert n state. induction steps as [| steps IH]; intros n state; cbn [astream];
    [now split |].
  destruct n; cbn [run_node].
  - unfold run_agent.
    destruct (always_tool_calls state) as (content & call & calls & ->).
    cbn [bind_outcome]. rewrite agent_route.
    destruct (IH action (add_messages state [AIMessage content (call :: calls)]))
      as [Hend Hlen].
    destruct (astream agent_runnable tool_node steps action _) as [events result].
    simpl in *. split; [assumption | now f_equal].
  - destruct (tools_answer state) as [update ->]. cbn [next_target].
    destruct (IH agent (add_messages state update)) as [Hend Hlen].
    destruct (astream agent_runnable tool_node steps agent _) as [events result].
    simpl in *. split; [assumption | now f_equal].
Qed.

(** The graph has no way out but a response without tool calls: with a
    model that asks for a tool every time and tools that answer, a run goes
    on for as many node runs as the bound allows and ends in
    [GraphRecursionError]; [get_response] raises it. *)
Theorem run_without_plain_response_hits_limit steps inputs :
  snd (astream agent_runnable tool_node steps entry_point inputs)
  = Raise GraphRecursionError
  /\ length (visited agent_runnable tool_node steps inputs) = steps
  /\ get_response agent_runnable tool_node steps inputs = Raise GraphRecursionError.
Proof.
  destruct (astream_uses_all_steps steps entry_point inputs) as [Hend Hlen].
  split; [exact Hend |]. split.
  - unfold visited. now rewrite length_map.
  - unfold get_response.
    destruct (astream agent_runnable tool_node steps entry_point inputs)
      as [events result].
    simpl in Hend. now rewrite Hend.
Qed.

End EndlessRuns.

Section FurtherExamples2.

Import Fixture Samples.

Lemma run_without_plain_response_hits_limit_witness :
  let inputs := {| Agent.messages := [Agent.HumanMessage "Am I free?"] |} in
  (forall state, exists content call calls,
      insisting_model state = Return (Agent.AIMessage content (call :: calls)))
  /\ (forall state, exists update, answering_tool_node state = Return update)
  /\ length (Agent.visited insisting_model answering_tool_node 25 inputs) = 25%nat
  /\ Agent.get_response insisting_model answering_tool_node 25 inputs
     = Raise GraphRecursionError.
Proof.
  assert (Hmodel : forall state, exists content call calls,
             insisting_model state = Return (Agent.AIMessage content (call :: calls)))
    by (intros state; do 3 eexists; reflexivity).
  assert (Htools : forall state, exists update, answering_tool_node state = Return update)
    by (intros state; eexists; reflexivity).
  split; [exact Hmodel |]. split; [exact Htools |].
  exact (proj2 (run_without_plain_response_hits_limit insisting_model
                  answering_tool_node Hmodel Htools 25
                  {| Agent.messages := [Agent.HumanMessage "Am I free?"] |})).
Defined.

Lemma login_happens_once_witness :
  let w := {| fs := {[ "credentials.json"%string := "client secrets"%string ]};
              effects := [] |} in
  let w1 := {| fs := <["token.json"%string := "valid token"%string]> (fs w);
               effects := [RunLocalServer; Build] |} in
  fs w !! "token.json"%string = None
  /\ fs w !! "credentials.json"%string = Some "client secrets"%string
  /\ service_sample w = (Return "valid token"%string, w1)
  /\ service_sample w1
     = (Return "valid token"%string,
        {| fs := fs w1; effects := [RunLocalServer; Build; Build] |}).
Proof.
  split; [reflexivity |]. split; [reflexivity |].
  exact (login_happens_once sample_creds string string load_token load_client
           is_valid is_expired token_to_refresh json refresh_sample browser_login
           build_sample
           {| fs := {[ "credentials.json"%string := "client secrets"%string ]};
              effects := [] |}
           "client secrets" "client secrets" _
           eq_refl eq_refl eq_refl eq_refl eq_refl eq_refl).
Defined.

Lemma generated_token_is_used_witness :
  let w := {| fs := {[ "credentials.json"%string := "client secrets"%string ]};
              effects := [] |} in
  fs w !! "credentials.json"%string = Some "client secrets"%string
  /\ fst (generate_sample w) = Return tt
  /\ fs (snd (generate_sample w)) = <["token.json"%string := "valid token"%string]> (fs w)
  /\ service_sample (snd (generate_sample w))
     = (Return "valid token"%string,
        {| fs := fs (snd (generate_sample w));
           effects := effects (snd (generate_sample w)) ++ [Build] |}).
Proof.
  split; [reflexivity |].
  exact (generated_token_is_used sample_creds string string load_token load_client
           is_valid is_expired token_to_refresh json refresh_sample browser_login
           build_sample describe
           {| fs := {[ "credentials.json"%string := "client secrets"%string ]};
              effects := [] |}
           "client secrets" "client secrets" _ eq_refl eq_refl eq_refl eq_refl eq_refl).
Defined.

End FurtherExamples2.

(** * The sweep over zones *)

(** ** The loops of the sweep, for every zone *)

Section ZonedLoops.

Import Zoned.

Variable utcoffset_of : string -> Z -> bool -> Z.

Lemma DAY_eq : DAY = 24 * HOUR.
Proof. reflexivity. Qed.

Lemma utcoffset_aware d off :
  utcoffset utcoffset_of d = Ok (Some off) -> - DAY < off < DAY.
Proof.
  unfold utcoffset. destruct (tzinfo d) as [tz |]; [| discriminate].
  destruct (Z.ltb_spec (- DAY) (utcoffset_of tz (wall d) (fold d)));
    destruct (Z.ltb_spec (utcoffset_of tz (wall d) (fold d)) DAY);
    cbn [andb]; intros Heq; inversion Heq; subst; lia.
Qed.

(** Whatever the zones, [a <= b] bounds the wall clock of [a] by that of
    [b] and two days. *)
Lemma le_walls a b :
  le utcoffset_of a b = Ok true -> wall a < wall b + 2 * DAY.
Proof.
  unfold le, compare. pose proof DAY_eq. pose proof HOUR_pos.
  destruct (same_tzinfo a b).
  - cbn [bind_result]. destruct (Z.compare_spec (wall a) (wall b));
      cbn [is_gt negb]; intros Heq; inversion Heq; lia.
  - destruct (utcoffset utcoffset_of a) as [[x |] | e] eqn:Ha; try discriminate;
      destruct (utcoffset utcoffset_of b) as [[y |] | e'] eqn:Hb; try discriminate.
    apply utcoffset_aware in Ha. apply utcoffset_aware in Hb.
    cbn [bind_result]. destruct (Z.compare_spec (wall a - x) (wall b - y));
      cbn [is_gt negb]; intros Heq; inversion Heq; lia.
Qed.

Lemma add_wall d delta d' : add d delta = Ok d' -> wall d' = wall d + delta.
Proof.
  unfold add. destruct (_ && _); intros Heq; inversion Heq. reflexivity.
Qed.

(** The equation of the [while] loop: one test, one body, and again.  The
    rounds counted by [enough] are never used up. *)
Lemma zoned_emit_until_unfold limit st :
  ZSweep.emit_until utcoffset_of limit st
  = match ZSweep.loop_test utcoffset_of limit st with
    | Err e => Err e
    | Ok false => Ok st
    | Ok true =>
        match ZSweep.emit_slot st with
        | Err e => Err e
        | Ok st' => ZSweep.emit_until utcoffset_of limit st'
        end
    end.
Proof.
  unfold ZSweep.emit_until at 1. unfold ZSweep.enough. cbn [ZSweep.while_slot_fits].
  destruct (ZSweep.loop_test utcoffset_of limit st) as [[|] | e] eqn:Htest;
    [| reflexivity | reflexivity].
  unfold ZSweep.loop_test in Htest. unfold ZSweep.emit_slot.
  destruct (add (ZSweep.current_time st) HOUR) as [next | e] eqn:Hadd;
    [| discriminate].
  cbn [bind_result] in *.
  unfold ZSweep.emit_until, ZSweep.enough. cbn [ZSweep.current_time].
  apply le_walls in Htest. rewrite (add_wall _ _ _ Hadd) in *.
  f_equal. pose proof HOUR_pos as Hpos. pose proof DAY_eq as Hday.
  set (wl := wall limit) in *. set (wc := wall (ZSweep.current_time st)) in *.
  replace (wl - wc) with ((wl - (wc + HOUR)) + 1 * HOUR) by lia.
  rewrite Z.div_add by lia.
  assert (- 48 <= (wl - (wc + HOUR)) / HOUR) by (apply Z.div_le_lower_bound; lia).
  lia.
Qed.

End ZonedLoops.

(** ** Zones of constant offset: the sweep is the sweep over fixed offsets *)

Section ZonedBridge.

Import Zoned ZProps.

Variable utcoffset_of : string -> Z -> bool -> Z.

Local Abbreviation flat := (ZProps.flat utcoffset_of).
Local Abbreviation flat_pair := (ZProps.flat_pair utcoffset_of).
Local Abbreviation flat_locals := (ZProps.flat_locals utcoffset_of).
Local Abbreviation steady := (ZProps.steady utcoffset_of).
Local Abbreviation constant_offset := (ZProps.constant_offset utcoffset_of).

Lemma instant_flat d : Time.instant (flat d) = instant utcoffset_of d.
Proof.
  unfold Time.instant, ZProps.flat, instant. cbn [Time.tzinfo Time.wall].
  now destruct (tzinfo d).
Qed.

Lemma utcoffset_constant d :
  constant_offset d ->
  exists off, utcoffset utcoffset_of d = Ok (Some off)
              /\ instant utcoffset_of d = wall d - off /\ - DAY < off < DAY.
Proof.
  intros (tz & off & Htz & Hoff & Hconst). exists off.
  unfold utcoffset, instant. rewrite Htz, Hconst.
  destruct (Z.ltb_spec (- DAY) off); [| lia].
  destruct (Z.ltb_spec off DAY); [| lia].
  repeat split; try reflexivity; lia.
Qed.

(** Between zones of constant offset, Python compares the instants. *)
Lemma compare_constant a b :
  constant_offset a -> constant_offset b ->
  compare utcoffset_of a b = Ok (instant utcoffset_of a ?= instant utcoffset_of b).
Proof.
  intros Ha Hb. unfold compare.
  destruct (same_tzinfo a b) eqn:Hsame.
  - destruct Ha as (tza & offa & Htza & _ & Hca).
    destruct Hb as (tzb & offb & Htzb & _ & Hcb).
    unfold same_tzinfo in Hsame. rewrite Htza, Htzb in Hsame.
    apply String.eqb_eq in Hsame. subst tzb.
    assert (offa = offb) by (rewrite <- (Hca 0 false); apply Hcb). subst offb.
    unfold instant. rewrite Htza, Htzb, Hca, Hcb.
    f_equal. destruct (Z.compare_spec (wall a) (wall b));
      symmetry; [apply Z.compare_eq_iff | apply Z.compare_lt_iff | apply Z.compare_gt_iff]; lia.
  - destruct (utcoffset_constant a Ha) as (x & -> & -> & _).
    destruct (utcoffset_constant b Hb) as (y & -> & -> & _).
    reflexivity.
Qed.

Lemma lt_constant a b :
  constant_offset a -> constant_offset b ->
  lt utcoffset_of a b = Ok (instant utcoffset_of a <? instant utcoffset_of b).
Proof.
  intros Ha Hb. unfold lt. rewrite (compare_constant a b Ha Hb). cbn [bind_result].
  f_equal. all: try (unfold Z.ltb; now destruct (_ ?= _)).
Qed.

Lemma le_constant a b :
  constant_offset a -> constant_offset b ->
  le utcoffset_of a b = Ok (instant utcoffset_of a <=? instant utcoffset_of b).
Proof.
  intros Ha Hb. unfold le. rewrite (compare_constant a b Ha Hb). cbn [bind_result].
  f_equal. all: try (unfold Z.leb; now destruct (_ ?= _)).
Qed.

Lemma max_py_constant a b :
  constant_offset a -> constant_offset b ->
  max_py utcoffset_of a b
  = Ok (if instant utcoffset_of a <? instant utcoffset_of b then b else a).
Proof.
  intros Ha Hb. unfold max_py. rewrite (compare_constant b a Hb Ha). cbn [bind_result].
  f_equal. rewrite Z.ltb_antisym, Z.leb_compare. now destruct (_ ?= _).
Qed.

(** Away from the end of the range, adding an hour succeeds, keeps the
    zone and moves the instant by an hour. *)
Lemma add_steady d :
  steady d ->
  exists d', add d HOUR = Ok d'
             /\ flat d' = dt_add (flat d) HOUR
             /\ constant_offset d'
             /\ MIN_WALL <= wall d'
             /\ instant utcoffset_of d' = instant utcoffset_of d + HOUR.
Proof.
  intros (Hconst & Hmin & Hmax).
  destruct (utcoffset_constant d Hconst) as (off & _ & Hinst & Hoff).
  destruct Hconst as (tz & off' & Htz & Hoff' & Hc).
  pose proof HOUR_pos as Hpos.
  unfold add.
  destruct (Z.leb_spec MIN_WALL (wall d + HOUR)); [| lia].
  destruct (Z.leb_spec (wall d + HOUR) MAX_WALL); [| lia].
  cbn [andb]. eexists. split; [reflexivity |].
  split; [| split; [| split]].
  - unfold ZProps.flat, dt_add. cbn [wall fold tzinfo Time.wall Time.tzinfo].
    rewrite Htz, !Hc. reflexivity.
  - exists tz, off'. cbn [tzinfo]. auto.
  - cbn [wall]. lia.
  - unfold instant. cbn [wall fold tzinfo]. rewrite Htz, !Hc. lia.
Qed.

Lemma flat_emit_slot st next :
  add (ZSweep.current_time st) HOUR = Ok next ->
  flat next = dt_add (flat (ZSweep.current_time st)) HOUR ->
  ZSweep.emit_slot st
  = Ok {| ZSweep.available_slots :=
            ZSweep.available_slots st ++ [(ZSweep.current_time st, next)];
          ZSweep.current_time := next |}
  /\ flat_locals {| ZSweep.available_slots :=
                      ZSweep.available_slots st ++ [(ZSweep.current_time st, next)];
                    ZSweep.current_time := next |}
     = Sweep.emit_slot (flat_locals st).
Proof.
  intros Hadd Hflat. split.
  - unfold ZSweep.emit_slot. rewrite Hadd. reflexivity.
  - unfold ZProps.flat_locals, Sweep.emit_slot.
    cbn [ZSweep.available_slots ZSweep.current_time
         Sweep.available_slots Sweep.current_time].
    rewrite map_app. cbn [map]. unfold ZProps.flat_pair at 2. cbn [fst snd].
    now rewrite Hflat.
Qed.

(** The loop, by induction on the whole hours left before the limit. *)
Lemma emit_until_agrees limit st :
  steady limit -> steady (ZSweep.current_time st) ->
  exists st',
    ZSweep.emit_until utcoffset_of limit st = Ok st'
    /\ flat_locals st' = Sweep.emit_until (flat limit) (flat_locals st)
    /\ steady (ZSweep.current_time st').
Proof.
  intros Hlimit.
  remember (iterations (flat (ZSweep.current_time st)) (flat limit)) as n eqn:Hn.
  revert st Hn. induction n as [| n IH]; intros st Hn Hcur.
  all: rewrite zoned_emit_until_unfold, emit_until_unfold.
  all: destruct (add_steady _ Hcur) as (next & Hadd & Hflat & Hconst & Hmin & Hinst).
  all: unfold ZSweep.loop_test; rewrite Hadd; cbn [bind_result].
  all: rewrite (le_constant next limit Hconst (proj1 Hlimit)).
  all: cbn [ZProps.flat_locals Sweep.current_time] in *.
  all: rewrite instant_dt_add, !instant_flat, Hinst.
  all: destruct (Z.leb_spec (instant utcoffset_of (ZSweep.current_time st) + HOUR)
                   (instant utcoffset_of limit)) as [Hfit | Hstop].
  all: try (exists st; split; [reflexivity | split; [reflexivity | assumption]]).
  - exfalso.
    rewrite (iterations_fits (flat (ZSweep.current_time st)) (flat limit)) in Hn
      by (rewrite !instant_flat; lia).
    discriminate.
  - destruct (flat_emit_slot st next Hadd Hflat) as [-> Hstep].
    rewrite <- Hstep. apply IH.
    + cbn [ZSweep.current_time]. rewrite Hflat.
      rewrite (iterations_fits (flat (ZSweep.current_time st)) (flat limit)) in Hn
        by (rewrite !instant_flat; lia).
      congruence.
    + cbn [ZSweep.current_time]. split; [assumption |]. split; [assumption |].
      destruct Hlimit as (_ & _ & Hmax). lia.
Qed.

Lemma before_event_agrees event_start st :
  steady event_start -> steady (ZSweep.current_time st) ->
  exists st',
    ZSweep.before_event utcoffset_of event_start st = Ok st'
    /\ flat_locals st' = Sweep.before_event (flat event_start) (flat_locals st)
    /\ steady (ZSweep.current_time st').
Proof.
  intros Hev Hcur. unfold ZSweep.before_event, Sweep.before_event.
  rewrite (lt_constant _ _ (proj1 Hcur) (proj1 Hev)). cbn [bind_result].
  cbn [ZProps.flat_locals Sweep.current_time]. rewrite !instant_flat.
  destruct (_ <? _).
  - exact (emit_until_agrees event_start st Hev Hcur).
  - exists st. split; [reflexivity | split; [reflexivity | assumption]].
Qed.

Lemma after_event_agrees event_end st :
  steady event_end -> steady (ZSweep.current_time st) ->
  exists st',
    ZSweep.after_event utcoffset_of event_end st = Ok st'
    /\ flat_locals st' = Sweep.after_event (flat event_end) (flat_locals st)
    /\ steady (ZSweep.current_time st').
Proof.
  intros Hev Hcur. unfold ZSweep.after_event, Sweep.after_event.
  rewrite (max_py_constant _ _ (proj1 Hcur) (proj1 Hev)). cbn [bind_result].
  eexists. split; [reflexivity |].
  unfold ZProps.flat_locals, dt_max.
  cbn [ZSweep.available_slots ZSweep.current_time
       Sweep.available_slots Sweep.current_time].
  rewrite !instant_flat.
  destruct (_ <? _); (split; [reflexivity | assumption]).
Qed.

Lemma for_each_busy_agrees busy st :
  Forall (ZProps.steady_pair utcoffset_of) busy -> steady (ZSweep.current_time st) ->
  exists st',
    ZSweep.for_each_busy utcoffset_of busy st = Ok st'
    /\ flat_locals st' = Sweep.for_each_busy (map flat_pair busy) (flat_locals st)
    /\ steady (ZSweep.current_time st').
Proof.
  intros Hbusy. revert st.
  induction Hbusy as [| [event_start event_end] rest [Hs He] Hrest IH]; intros st Hcur.
  - exists st. split; [reflexivity | split; [reflexivity | assumption]].
  - cbn [ZSweep.for_each_busy map Sweep.for_each_busy].
    unfold ZProps.flat_pair at 1. cbn [fst snd] in *.
    destruct (before_event_agrees event_start st Hs Hcur) as (st1 & -> & <- & Hcur1).
    cbn [bind_result].
    destruct (after_event_agrees event_end st1 He Hcur1) as (st2 & -> & <- & Hcur2).
    cbn [bind_result]. exact (IH st2 Hcur2).
Qed.

(** Over zones of constant offset and away from the end of the range, the
    sweep raises nothing and its slots are those of the sweep over fixed
    offsets. *)
Lemma sweep_agrees start_dt end_dt busy :
  steady start_dt -> steady end_dt ->
  Forall (ZProps.steady_pair utcoffset_of) busy ->
  exists slots,
    ZSweep.free_slots utcoffset_of start_dt end_dt busy = Ok slots
    /\ map flat_pair slots
       = Sweep.free_slots (flat start_dt) (flat end_dt) (map flat_pair busy).
Proof.
  intros Hstart Hend Hbusy.
  unfold ZSweep.free_slots, ZSweep.free_slot_sweep, Sweep.free_slots, Sweep.free_slot_sweep.
  destruct (for_each_busy_agrees busy
              {| ZSweep.available_slots := []; ZSweep.current_time := start_dt |}
              Hbusy Hstart) as (st1 & -> & Hflat1 & Hcur1).
  cbn [bind_result].
  destruct (emit_until_agrees end_dt st1 Hend Hcur1) as (st2 & -> & Hflat2 & _).
  cbn [bind_result]. exists (ZSweep.available_slots st2). split; [reflexivity |].
  change (map flat_pair (ZSweep.available_slots st2))
    with (Sweep.available_slots (flat_locals st2)).
  rewrite Hflat2, Hflat1. reflexivity.
Qed.

End ZonedBridge.

(** ** The free-slot sweep over zones: the claims *)

Section ZonedSweepClaims.

Import Zoned ZProps.

Variable utcoffset_of : string -> Z -> bool -> Z.

Local Abbreviation flat := (ZProps.flat utcoffset_of).
Local Abbreviation timeline := (ZProps.timeline utcoffset_of).
Local Abbreviation steady := (ZProps.steady utcoffset_of).
Local Abbreviation steady_pair := (ZProps.steady_pair utcoffset_of).

(** C1, as the code has it.  When every time involved is in a zone of
    constant UTC offset and lies 25 hours or more before [datetime.max],
    then for every window and every list of busy intervals sorted by start
    time the sweep raises nothing, and its slots are ordered and pairwise
    disjoint, each lasts exactly one hour, none overlaps a busy interval and
    none starts before the window; when moreover each busy interval starts
    no later than the window ends, every slot lies inside the window. *)
Theorem zoned_slots_sound start_dt end_dt busy :
  steady start_dt -> steady end_dt -> Forall steady_pair busy ->
  sorted_by_start (timeline busy) ->
  exists slots,
    ZSweep.free_slots utcoffset_of start_dt end_dt busy = Ok slots
    /\ ordered_disjoint (timeline slots)
    /\ Forall one_hour (timeline slots)
    /\ clear_of (timeline slots) (timeline busy)
    /\ Forall (fun s => Time.instant (flat start_dt) <= fst (span s)) (timeline slots)
    /\ (Forall (starts_by (flat end_dt)) (timeline busy) ->
        sound_slots (flat start_dt) (flat end_dt) (timeline busy) (timeline slots)).
Proof.
  intros Hstart Hend Hbusy Hsorted.
  destruct (sweep_agrees utcoffset_of start_dt end_dt busy Hstart Hend Hbusy)
    as (slots & Hrun & Hflat).
  exists slots. split; [exact Hrun |].
  unfold ZProps.timeline in *. rewrite Hflat.
  exact (sweep_slots_sound _ _ _ Hsorted).
Qed.

(** C5, as the code has it.  When every time involved is in a zone of
    constant UTC offset and lies 25 hours or more before [datetime.max],
    then for every window strictly shorter than one hour and every list of
    busy intervals each starting no later than the window ends, the sweep
    emits no slot. *)
Theorem zoned_short_window_no_slots start_dt end_dt busy :
  steady start_dt -> steady end_dt -> Forall steady_pair busy ->
  instant utcoffset_of end_dt - instant utcoffset_of start_dt < HOUR ->
  Forall (starts_by (flat end_dt)) (timeline busy) ->
  ZSweep.free_slots utcoffset_of start_dt end_dt busy = Ok [].
Proof.
  intros Hstart Hend Hbusy Hshort Hstarts.
  destruct (sweep_agrees utcoffset_of start_dt end_dt busy Hstart Hend Hbusy)
    as (slots & Hrun & Hflat).
  rewrite Hrun. f_equal.
  unfold ZProps.timeline in *.
  rewrite short_window_no_slots in Hflat;
    [| rewrite !instant_flat; exact Hshort | exact Hstarts].
  now destruct slots.
Qed.

(** Under the same conditions and with every busy interval starting no
    later than the window ends, the sweep emits no more slots than there
    are whole hours in the window. *)
Theorem zoned_slot_count_bounded start_dt end_dt busy :
  steady start_dt -> steady end_dt -> Forall steady_pair busy ->
  Forall (starts_by (flat end_dt)) (timeline busy) ->
  exists slots,
    ZSweep.free_slots utcoffset_of start_dt end_dt busy = Ok slots
    /\ (length slots <= whole_hours (flat start_dt) (flat end_dt))%nat.
Proof.
  intros Hstart Hend Hbusy Hstarts.
  destruct (sweep_agrees utcoffset_of start_dt end_dt busy Hstart Hend Hbusy)
    as (slots & Hrun & Hflat).
  exists slots. split; [exact Hrun |].
  rewrite <- (length_map (ZProps.flat_pair utcoffset_of)), Hflat.
  exact (slot_count_bounded _ _ _ Hstarts).
Qed.

(** Under the same conditions C2 holds: for busy intervals sorted by start
    and each inside the window, what the sweep leaves over is shorter than
    an hour each, and slots, busy intervals and those stretches together are
    exactly the window. *)
Lemma zoned_sweep_partitions_window start_dt end_dt busy :
  steady start_dt -> steady end_dt -> Forall steady_pair busy ->
  sorted_by_start (timeline busy) ->
  Forall (inside (flat start_dt) (flat end_dt)) (timeline busy) ->
  exists slots,
    ZSweep.free_slots utcoffset_of start_dt end_dt busy = Ok slots
    /\ clear_of (timeline slots) (timeline busy)
    /\ short_remainders (gaps (flat start_dt) (flat end_dt) (timeline busy))
    /\ fills_window (flat start_dt) (flat end_dt) (timeline slots) (timeline busy)
         (gaps (flat start_dt) (flat end_dt) (timeline busy))
    /\ remainders_apart (timeline slots) (timeline busy)
         (gaps (flat start_dt) (flat end_dt) (timeline busy)).
Proof.
  intros Hstart Hend Hbusy Hsorted Hinside.
  destruct (sweep_agrees utcoffset_of start_dt end_dt busy Hstart Hend Hbusy)
    as (slots & Hrun & Hflat).
  exists slots. split; [exact Hrun |].
  unfold ZProps.timeline in *. rewrite Hflat.
  exact (sweep_partitions_window _ _ _ Hsorted Hinside).
Qed.

End ZonedSweepClaims.

(** *** The sweep on concrete zones *)

Section ZonedSweepExamples.

Import Zoned ZProps ZFixture.

(** UTC has one offset. *)
Lemma utc_steady day h m :
  MIN_WALL <= day + h * HOUR + m * 60000000 <= MAX_WALL - DAY - HOUR ->
  steady zones (on_day day utc h m).
Proof.
  intros Hrange. split; [| split].
  - exists utc, 0. split; [reflexivity |]. split; [| reflexivity].
    vm_compute. split; reflexivity.
  - cbn [wall on_day]. lia.
  - unfold instant. cbn [wall fold tzinfo on_day].
    change (zones utc _ false) with 0. lia.
Qed.

Lemma zoned_slots_sound_witness :
  let start_dt := on_day TODAY utc 9 0 in
  let end_dt := on_day TODAY utc 12 0 in
  let busy := [(on_day TODAY utc 10 0, on_day TODAY utc 10 30)] in
  steady zones start_dt /\ steady zones end_dt /\ Forall (steady_pair zones) busy
  /\ sorted_by_start (timeline zones busy)
  /\ Forall (starts_by (flat zones end_dt)) (timeline zones busy)
  /\ exists slots,
       ZSweep.free_slots zones start_dt end_dt busy = Ok slots
       /\ sound_slots (flat zones start_dt) (flat zones end_dt)
            (timeline zones busy) (timeline zones slots).
Proof.
  assert (Hin : forall h m, 0 <= h < 24 -> 0 <= m < 60 ->
                  steady zones (on_day TODAY utc h m)).
  { intros h m Hh Hm. apply utc_steady.
    unfold TODAY, DAY, MIN_WALL, MAX_WALL, HOUR, timedelta_hours. lia. }
  assert (Hstart : steady zones (on_day TODAY utc 9 0)) by (apply Hin; lia).
  assert (Hend : steady zones (on_day TODAY utc 12 0)) by (apply Hin; lia).
  assert (Hbusy : Forall (steady_pair zones)
                    [(on_day TODAY utc 10 0, on_day TODAY utc 10 30)])
    by (constructor; [split; apply Hin; lia | constructor]).
  assert (Hsorted : sorted_by_start
                      (timeline zones [(on_day TODAY utc 10 0, on_day TODAY utc 10 30)]))
    by (repeat constructor).
  assert (Hstarts : Forall (starts_by (flat zones (on_day TODAY utc 12 0)))
                      (timeline zones [(on_day TODAY utc 10 0, on_day TODAY utc 10 30)]))
    by (repeat constructor; vm_compute; discriminate).
  split; [exact Hstart |]. split; [exact Hend |]. split; [exact Hbusy |].
  split; [exact Hsorted |]. split; [exact Hstarts |].
  destruct (zoned_slots_sound zones _ _ _ Hstart Hend Hbusy Hsorted)
    as (slots & Hrun & _ & _ & _ & _ & Hsound).
  exists slots. split; [exact Hrun | exact (Hsound Hstarts)].
Defined.

(** C1 as stated fails, in two ways.  A busy interval that starts after
    the window ends is sorted input too, and the sweep then emits slots past
    the end of the window.  And in the night of 8 March 2026 in New York,
    for the window 01:00-04:00 and an event inside it from 07:30 to 08:00
    UTC, the second slot, 02:00 AM - 03:00 AM, has no length at all: both
    of its ends are the instant 07:00 UTC. *)
Lemma slots_beyond_window_or_without_length :
  (let start_dt := on_day TODAY utc 9 0 in
   let end_dt := on_day TODAY utc 10 0 in
   let busy := [(on_day TODAY utc 12 0, on_day TODAY utc 13 0)] in
   let slots := [(on_day TODAY utc 9 0, on_day TODAY utc 10 0);
                 (on_day TODAY utc 10 0, on_day TODAY utc 11 0);
                 (on_day TODAY utc 11 0, on_day TODAY utc 12 0)] in
   sorted_by_start (timeline zones busy)
   /\ ZSweep.free_slots zones start_dt end_dt busy = Ok slots
   /\ ~ sound_slots (flat zones start_dt) (flat zones end_dt)
          (timeline zones busy) (timeline zones slots))
  /\ (let start_dt := on_day MARCH_8 new_york 1 0 in
      let end_dt := on_day MARCH_8 new_york 4 0 in
      let busy := [(on_day MARCH_8 utc 7 30, on_day MARCH_8 utc 8 0)] in
      let slots := [(on_day MARCH_8 new_york 1 0, on_day MARCH_8 new_york 2 0);
                    (on_day MARCH_8 new_york 2 0, on_day MARCH_8 new_york 3 0)] in
      sorted_by_start (timeline zones busy)
      /\ Forall (inside (flat zones start_dt) (flat zones end_dt)) (timeline zones busy)
      /\ ZSweep.free_slots zones start_dt end_dt busy = Ok slots
      /\ map ZSweep.slot_label slots
         = ["01:00 AM - 02:00 AM"; "02:00 AM - 03:00 AM"]%string
      /\ span (flat_pair zones (on_day MARCH_8 new_york 2 0, on_day MARCH_8 new_york 3 0))
         = (MARCH_8 + 7 * HOUR, MARCH_8 + 7 * HOUR)
      /\ ~ Forall one_hour (timeline zones slots)).
Proof.
  split.
  - split; [repeat constructor |]. split; [vm_compute; reflexivity |].
    intros (_ & _ & _ & Hwithin).
    rewrite List.Forall_forall in Hwithin.
    destruct (Hwithin (flat_pair zones (on_day TODAY utc 10 0, on_day TODAY utc 11 0)))
      as [_ Hend].
    + right. left. reflexivity.
    + vm_compute in Hend. apply Hend. reflexivity.
  - split; [repeat constructor |].
    split; [repeat constructor; vm_compute; discriminate |].
    split; [vm_compute; reflexivity |].
    split; [vm_compute; reflexivity |].
    split; [vm_compute; reflexivity |].
    intros Hhour. rewrite List.Forall_forall in Hhour.
    destruct (Hhour (flat_pair zones (on_day MARCH_8 new_york 2 0, on_day MARCH_8 new_york 3 0)))
      as [Hlen _].
    + right. left. reflexivity.
    + vm_compute in Hlen. discriminate.
Qed.

(** C2 fails in the night of 1 November 2026 in New York.  For the window
    00:00-02:00, which lasts from 04:00 to 07:00 UTC, and the event from
    06:00 to 06:15 UTC inside it, the sweep emits the one slot
    12:00 AM - 01:00 AM; the hour from 05:00 to 06:00 UTC lies in the window
    and is free, and neither a slot nor the busy interval covers any instant
    of it: what the sweep leaves over is not shorter than an hour. *)
Theorem fall_back_hour_uncovered :
  let start_dt := on_day NOVEMBER_1 new_york 0 0 in
  let end_dt := on_day NOVEMBER_1 new_york 2 0 in
  let busy := [(on_day NOVEMBER_1 utc 6 0, on_day NOVEMBER_1 utc 6 15)] in
  let slots := [(on_day NOVEMBER_1 new_york 0 0, on_day NOVEMBER_1 new_york 1 0)] in
  sorted_by_start (timeline zones busy)
  /\ Forall (inside (flat zones start_dt) (flat zones end_dt)) (timeline zones busy)
  /\ ZSweep.free_slots zones start_dt end_dt busy = Ok slots
  /\ map ZSweep.slot_label slots = ["12:00 AM - 01:00 AM"]%string
  /\ (forall t, NOVEMBER_1 + 5 * HOUR <= t < NOVEMBER_1 + 6 * HOUR ->
        window_instants (flat zones start_dt) (flat zones end_dt) t
        /\ ~ (exists s, In s (timeline zones slots) /\ covers (span s) t)
        /\ ~ (exists b, In b (timeline zones busy) /\ covers (span b) t)).
Proof.
  split; [repeat constructor |].
  split; [repeat constructor; vm_compute; discriminate |].
  split; [vm_compute; reflexivity |].
  split; [vm_compute; reflexivity |].
  intros t Ht.
  assert (Hlo : Time.instant (flat zones (on_day NOVEMBER_1 new_york 0 0))
                = NOVEMBER_1 + 4 * HOUR) by (vm_compute; reflexivity).
  assert (Hhi : Time.instant (flat zones (on_day NOVEMBER_1 new_york 2 0))
                = NOVEMBER_1 + 7 * HOUR) by (vm_compute; reflexivity).
  assert (Hslot : span (flat_pair zones (on_day NOVEMBER_1 new_york 0 0, on_day NOVEMBER_1 new_york 1 0))
                  = (NOVEMBER_1 + 4 * HOUR, NOVEMBER_1 + 5 * HOUR))
    by (vm_compute; reflexivity).
  assert (Hevent : span (flat_pair zones (on_day NOVEMBER_1 utc 6 0, on_day NOVEMBER_1 utc 6 15))
                   = (NOVEMBER_1 + 6 * HOUR, NOVEMBER_1 + 6 * HOUR + 15 * 60000000))
    by (vm_compute; reflexivity).
  pose proof HOUR_pos as Hpos.
  split; [| split].
  - unfold window_instants. rewrite Hlo, Hhi. lia.
  - intros (s & [<- | []] & Hcov). rewrite Hslot in Hcov.
    unfold covers in Hcov. cbn [fst snd] in Hcov. lia.
  - intros (b & [<- | []] & Hcov). rewrite Hevent in Hcov.
    unfold covers in Hcov. cbn [fst snd] in Hcov. lia.
Qed.

Lemma zoned_short_window_no_slots_witness :
  let start_dt := on_day TODAY utc 9 0 in
  let end_dt := on_day TODAY utc 9 30 in
  let busy := [(on_day TODAY utc 9 10, on_day TODAY utc 9 20)] in
  steady zones start_dt /\ steady zones end_dt /\ Forall (steady_pair zones) busy
  /\ instant zones end_dt - instant zones start_dt < HOUR
  /\ Forall (starts_by (flat zones end_dt)) (timeline zones busy)
  /\ ZSweep.free_slots zones start_dt end_dt busy = Ok [].
Proof.
  assert (Hin : forall h m, 0 <= h < 24 -> 0 <= m < 60 ->
                  steady zones (on_day TODAY utc h m)).
  { intros h m Hh Hm. apply utc_steady.
    unfold TODAY, DAY, MIN_WALL, MAX_WALL, HOUR, timedelta_hours. lia. }
  assert (Hstart : steady zones (on_day TODAY utc 9 0)) by (apply Hin; lia).
  assert (Hend : steady zones (on_day TODAY utc 9 30)) by (apply Hin; lia).
  assert (Hbusy : Forall (steady_pair zones)
                    [(on_day TODAY utc 9 10, on_day TODAY utc 9 20)])
    by (constructor; [split; apply Hin; lia | constructor]).
  assert (Hshort : instant zones (on_day TODAY utc 9 30)
                   - instant zones (on_day TODAY utc 9 0) < HOUR)
    by (vm_compute; reflexivity).
  assert (Hstarts : Forall (starts_by (flat zones (on_day TODAY utc 9 30)))
                      (timeline zones [(on_day TODAY utc 9 10, on_day TODAY utc 9 20)]))
    by (repeat constructor; vm_compute; discriminate).
  split; [exact Hstart |]. split; [exact Hend |]. split; [exact Hbusy |].
  split; [exact Hshort |]. split; [exact Hstarts |].
  exact (zoned_short_window_no_slots zones _ _ _ Hstart Hend Hbusy Hshort Hstarts).
Defined.

(** C5 as stated fails, in two ways.  With a busy interval that starts an
    hour or more after the window's start, the inner loop emits slots
    although the window is shorter than an hour.  And in the night of
    8 March 2026 in New York, for the window 02:00-02:30 and an event inside
    it from 07:15 to 07:30 UTC, the sweep emits the slot
    02:00 AM - 03:00 AM. *)
Lemma short_window_with_slots :
  (let start_dt := on_day TODAY utc 9 0 in
   let end_dt := on_day TODAY utc 9 30 in
   let busy := [(on_day TODAY utc 11 0, on_day TODAY utc 12 0)] in
   instant zones end_dt - instant zones start_dt < HOUR
   /\ ZSweep.free_slots zones start_dt end_dt busy
      = Ok [(on_day TODAY utc 9 0, on_day TODAY utc 10 0);
            (on_day TODAY utc 10 0, on_day TODAY utc 11 0)])
  /\ (let start_dt := on_day MARCH_8 new_york 2 0 in
      let end_dt := on_day MARCH_8 new_york 2 30 in
      let busy := [(on_day MARCH_8 utc 7 15, on_day MARCH_8 utc 7 30)] in
      let slots := [(on_day MARCH_8 new_york 2 0, on_day MARCH_8 new_york 3 0)] in
      instant zones end_dt - instant zones start_dt < HOUR
      /\ Forall (inside (flat zones start_dt) (flat zones end_dt)) (timeline zones busy)
      /\ ZSweep.free_slots zones start_dt end_dt busy = Ok slots
      /\ map ZSweep.slot_label slots = ["02:00 AM - 03:00 AM"]%string).
Proof.
  split.
  - split; vm_compute; reflexivity.
  - split; [vm_compute; reflexivity |].
    split; [repeat constructor; vm_compute; discriminate |].
    split; vm_compute; reflexivity.
Qed.

Lemma zoned_slot_count_bounded_witness :
  let start_dt := on_day TODAY utc 9 0 in
  let end_dt := on_day TODAY utc 12 0 in
  let busy := [(on_day TODAY utc 10 0, on_day TODAY utc 10 30)] in
  steady zones start_dt /\ steady zones end_dt /\ Forall (steady_pair zones) busy
  /\ Forall (starts_by (flat zones end_dt)) (timeline zones busy)
  /\ exists slots,
       ZSweep.free_slots zones start_dt end_dt busy = Ok slots
       /\ (length slots <= whole_hours (flat zones start_dt) (flat zones end_dt))%nat.
Proof.
  assert (Hin : forall h m, 0 <= h < 24 -> 0 <= m < 60 ->
                  steady zones (on_day TODAY utc h m)).
  { intros h m Hh Hm. apply utc_steady.
    unfold TODAY, DAY, MIN_WALL, MAX_WALL, HOUR, timedelta_hours. lia. }
  assert (Hstart : steady zones (on_day TODAY utc 9 0)) by (apply Hin; lia).
  assert (Hend : steady zones (on_day TODAY utc 12 0)) by (apply Hin; lia).
  assert (Hbusy : Forall (steady_pair zones)
                    [(on_day TODAY utc 10 0, on_day TODAY utc 10 30)])
    by (constructor; [split; apply Hin; lia | constructor]).
  assert (Hstarts : Forall (starts_by (flat zones (on_day TODAY utc 12 0)))
                      (timeline zones [(on_day TODAY utc 10 0, on_day TODAY utc 10 30)]))
    by (repeat constructor; vm_compute; discriminate).
  split; [exact Hstart |]. split; [exact Hend |]. split; [exact Hbusy |].
  split; [exact Hstarts |].
  exact (zoned_slot_count_bounded zones _ _ _ Hstart Hend Hbusy Hstarts).
Defined.

(** The sweep in the two nights of 2026 on which the clocks of New York
    change, and on the last day of the year 9999. *)
Example sweep_spring_forward_night :
  match ZSweep.free_slots zones (on_day MARCH_8 new_york 0 0) (on_day MARCH_8 new_york 2 30)
          [(on_day MARCH_8 utc 7 0, on_day MARCH_8 utc 7 30)] with
  | Ok slots => map ZSweep.slot_label slots
  | Err _ => []
  end
  = ["12:00 AM - 01:00 AM"; "01:00 AM - 02:00 AM"; "02:00 AM - 03:00 AM"]%string.
Proof. vm_compute. reflexivity. Qed.

Example sweep_last_day :
  ZSweep.free_slots zones (on_day LAST_DAY utc 22 0) (on_day LAST_DAY utc 23 30)
    [(on_day LAST_DAY utc 22 10, on_day LAST_DAY utc 22 20)]
  = Err range_error.
Proof. vm_compute. reflexivity. Qed.

End ZonedSweepExamples.

(** * The tools over zones *)

(** ** What the loop over the events does *)

Section ZonedToolFacts.

Import Zoned ZTools ZProps.

Variable utcoffset_of : string -> Z -> bool -> Z.
Variable date_parse : string -> result datetime.

(** On an event whose two times parse, the body of the loop is the step of
    the sweep, with what it raises. *)
Lemma zoned_for_body_parsed ev b st :
  parses_to date_parse ev b ->
  ZCalendar.for_body utcoffset_of date_parse ev st
  = (let! st := ZSweep.before_event utcoffset_of (fst b) st in
     ZSweep.after_event utcoffset_of (snd b) st)%result.
Proof.
  intros (so & eo & ss & es & Hs & Hss & Hps & He & Hes & Hpe).
  unfold ZCalendar.for_body, subscript. rewrite Hs, He. cbn [bind_result].
  rewrite Hss, Hes. cbn [ZCalendar.date_parse_py]. rewrite Hps, Hpe.
  cbn [bind_result]. reflexivity.
Qed.

Lemma zoned_for_each_event_parsed events busy st :
  Forall2 (parses_to date_parse) events busy ->
  ZCalendar.for_each_event utcoffset_of date_parse events st
  = ZSweep.for_each_busy utcoffset_of busy st.
Proof.
  intros Hparsed. revert st.
  induction Hparsed as [| ev [bs be] events busy Hev Hrest IH]; intros st;
    [reflexivity |].
  cbn [ZCalendar.for_each_event ZSweep.for_each_busy].
  rewrite (zoned_for_body_parsed _ _ _ Hev). cbn [fst snd].
  destruct (ZSweep.before_event utcoffset_of bs st) as [st1 | e];
    cbn [bind_result]; [| reflexivity].
  destruct (ZSweep.after_event utcoffset_of be st1) as [st2 | e];
    cbn [bind_result]; [apply IH | reflexivity].
Qed.

(** An event without a [dateTime] makes the body raise. *)
Lemma zoned_for_body_lacking ev st :
  lacks_dateTime ev ->
  exists e, ZCalendar.for_body utcoffset_of date_parse ev st = Err e.
Proof.
  unfold ZCalendar.for_body, subscript.
  intros [(o & Ho & Hnone) | (o & Ho & Hnone)]; rewrite Ho.
  - cbn [bind_result]. rewrite Hnone. cbn [ZCalendar.date_parse_py bind_result]. eauto.
  - destruct (ev !! "start"%string) as [so |]; cbn [bind_result]; [| eauto].
    destruct (ZCalendar.date_parse_py date_parse (so !! "dateTime"%string))
      as [event_start | e]; cbn [bind_result]; [| eauto].
    destruct (ZSweep.before_event utcoffset_of event_start st) as [st1 | e];
      cbn [bind_result]; [| eauto].
    rewrite Hnone. cbn [ZCalendar.date_parse_py bind_result]. eauto.
Qed.

Lemma zoned_for_each_event_lacking events st :
  Exists lacks_dateTime events ->
  exists e, ZCalendar.for_each_event utcoffset_of date_parse events st = Err e.
Proof.
  intros Hbad. revert st.
  induction Hbad as [ev rest Hev | ev rest Hrest IH]; intros st;
    cbn [ZCalendar.for_each_event].
  - destruct (zoned_for_body_lacking ev st Hev) as [e ->]. cbn [bind_result]. eauto.
  - destruct (ZCalendar.for_body utcoffset_of date_parse ev st) as [st' | e];
      cbn [bind_result]; [apply IH | eauto].
Qed.

(** When it is the first event, and its [start], what is raised is the
    [TypeError] of dateutil on [None]. *)
Lemma zoned_first_event_lacking ev rest o st :
  ev !! "start"%string = Some o -> o !! "dateTime"%string = None ->
  ZCalendar.for_each_event utcoffset_of date_parse (ev :: rest) st
  = Err missing_dateTime_error.
Proof.
  intros Ho Hnone. cbn [ZCalendar.for_each_event].
  unfold ZCalendar.for_body, subscript. rewrite Ho. cbn [bind_result].
  rewrite Hnone. reflexivity.
Qed.

End ZonedToolFacts.

(** ** [check_availability] *)

Section ZonedAvailability.

Import Zoned ZTools ZProps.

Variable utcoffset_of : string -> Z -> bool -> Z.
Variable date_parse : string -> result datetime.
Variable get_localzone : result string.
Variable isoformat : datetime -> result string.
Variable get_calendar_service : result unit.
Variable events_list : string -> string -> result events_result.
Variable stdout : string -> result unit.

Let check := ZCalendar.check_availability utcoffset_of date_parse get_localzone
               isoformat get_calendar_service events_list stdout.

Ltac run_check :=
  unfold check, ZCalendar.check_availability, ZCalendar.report, handled,
    try_except, bind, perform, lift, ret;
  cbn beta iota.

(** How the handler ends a run. *)
Lemma report_handled name answer e log :
  ZCalendar.report stdout name answer e log
  = (handled stdout name answer e, log ++ [PrintLine (error_line name e)]).
Proof.
  unfold ZCalendar.report, handled, bind, perform, ret.
  now destruct (stdout (error_line name e)).
Qed.

(** A time that does not parse sends the run to the handler. *)
Lemma unparseable_time_handled start_time end_time err log :
  get_calendar_service = Ok tt ->
  date_parse start_time = Err err
  \/ ((exists s, date_parse start_time = Ok s) /\ date_parse end_time = Err err) ->
  check start_time end_time log
  = (handled stdout "check_availability" error_message_check err,
     log ++ [GetCalendarService; PrintLine (error_line "check_availability" err)]).
Proof.
  intros Hservice Hbad. run_check. rewrite Hservice.
  destruct Hbad as [Herr | [[s Hs] Herr]].
  - rewrite Herr. rewrite <- app_assoc.
    now destruct (stdout (error_line "check_availability" err)).
  - rewrite Hs, Herr. rewrite <- app_assoc.
    now destruct (stdout (error_line "check_availability" err)).
Qed.

(** C7 fails.  When [start_time] or [end_time] does not parse, the handler
    prints the text of the parser's error, which names the string; when
    standard output cannot take that line, [print] raises inside the
    handler and the exception leaves [check_availability]: no text is
    returned. *)
Theorem unparseable_time_print_raises start_time end_time err raised log :
  get_calendar_service = Ok tt ->
  date_parse start_time = Err err
  \/ ((exists s, date_parse start_time = Ok s) /\ date_parse end_time = Err err) ->
  stdout (error_line "check_availability" err) = Err raised ->
  check start_time end_time log
  = (Err raised,
     log ++ [GetCalendarService; PrintLine (error_line "check_availability" err)]).
Proof.
  intros Hservice Hbad Hprint.
  rewrite (unparseable_time_handled _ _ _ _ Hservice Hbad).
  unfold handled. now rewrite Hprint.
Qed.

(** When standard output takes the line, the answer is the apology. *)
Lemma unparseable_time_apology_printed start_time end_time err log :
  get_calendar_service = Ok tt ->
  date_parse start_time = Err err
  \/ ((exists s, date_parse start_time = Ok s) /\ date_parse end_time = Err err) ->
  stdout (error_line "check_availability" err) = Ok tt ->
  check start_time end_time log
  = (Ok error_message_check,
     log ++ [GetCalendarService; PrintLine (error_line "check_availability" err)]).
Proof.
  intros Hservice Hbad Hprint.
  rewrite (unparseable_time_handled _ _ _ _ Hservice Hbad).
  unfold handled. now rewrite Hprint.
Qed.

(** The run up to the reply of [events.list]. *)
Lemma check_availability_listed start_time end_time s e tz si ei r ev events log :
  get_calendar_service = Ok tt ->
  date_parse start_time = Ok s ->
  date_parse end_time = Ok e ->
  get_localzone = Ok tz ->
  isoformat (ZCalendar.localize tz s) = Ok si ->
  isoformat (ZCalendar.localize tz e) = Ok ei ->
  events_list si ei = Ok r ->
  items r = Some (ev :: events) ->
  check start_time end_time log
  = match
      (let! st := ZCalendar.for_each_event utcoffset_of date_parse (ev :: events)
                    {| ZSweep.available_slots := [];
                       ZSweep.current_time := ZCalendar.localize tz s |} in
       let! st := ZSweep.emit_until utcoffset_of (ZCalendar.localize tz e) st in
       Ok (ZSweep.available_slots st))%result
    with
    | Ok [] => (Ok no_slots_message, log ++ [GetCalendarService; EventsList si ei])
    | Ok (slot :: slots) =>
        (Ok (slots_message (slot :: slots)),
         log ++ [GetCalendarService; EventsList si ei])
    | Err err =>
        (handled stdout "check_availability" error_message_check err,
         log ++ [GetCalendarService; EventsList si ei;
                 PrintLine (error_line "check_availability" err)])
    end.
Proof.
  intros Hservice Hs He Htz Hsi Hei Hlist Hitems. run_check.
  rewrite Hservice, Hs, He, Htz, Hsi, Hei, Hlist, Hitems.
  cbn [default from_option id].
  destruct (ZCalendar.for_each_event _ _ _ _) as [st1 | err]; cbn [bind_result].
  - destruct (ZSweep.emit_until _ _ _) as [st2 | err]; cbn [bind_result].
    + rewrite <- app_assoc. now destruct (ZSweep.available_slots st2).
    + rewrite <- !app_assoc. now destruct (stdout _).
  - rewrite <- !app_assoc. now destruct (stdout _).
Qed.

(** On events whose two times parse, the tool makes the two calls and
    answers from the sweep over the parsed intervals, whatever the zones:
    with its slots, or that there is none, and through the handler when the
    sweep raises. *)
Theorem check_availability_parsed_events
    start_time end_time s e tz si ei r ev events busy log :
  get_calendar_service = Ok tt ->
  date_parse start_time = Ok s ->
  date_parse end_time = Ok e ->
  get_localzone = Ok tz ->
  isoformat (ZCalendar.localize tz s) = Ok si ->
  isoformat (ZCalendar.localize tz e) = Ok ei ->
  events_list si ei = Ok r ->
  items r = Some (ev :: events) ->
  Forall2 (parses_to date_parse) (ev :: events) busy ->
  check start_time end_time log
  = match ZSweep.free_slots utcoffset_of
            (ZCalendar.localize tz s) (ZCalendar.localize tz e) busy with
    | Ok [] => (Ok no_slots_message, log ++ [GetCalendarService; EventsList si ei])
    | Ok (slot :: slots) =>
        (Ok (slots_message (slot :: slots)),
         log ++ [GetCalendarService; EventsList si ei])
    | Err err =>
        (handled stdout "check_availability" error_message_check err,
         log ++ [GetCalendarService; EventsList si ei;
                 PrintLine (error_line "check_availability" err)])
    end.
Proof.
  intros Hservice Hs He Htz Hsi Hei Hlist Hitems Hparsed.
  rewrite (check_availability_listed _ _ _ _ _ _ _ _ _ _ log
             Hservice Hs He Htz Hsi Hei Hlist Hitems).
  rewrite (zoned_for_each_event_parsed _ _ _ _ _ Hparsed).
  unfold ZSweep.free_slots, ZSweep.free_slot_sweep.
  destruct (ZSweep.for_each_busy _ _ _) as [st1 | err]; cbn [bind_result];
    [| reflexivity].
  now destruct (ZSweep.emit_until _ _ _).
Qed.

(** C10: when the service is there, both times parse and an event the
    provider returns has no [dateTime] in its [start] or in its [end], the
    loop over the events raises and the run ends in the handler: it prints
    the error and returns the generic error text, never a list of slots.  For
    an all-day event at the head of the list the line printed is the fixed
    text of dateutil's [TypeError]; only what [print] itself raises can take
    the place of the error text. *)
Theorem event_without_dateTime_error
    events start_time end_time s e tz si ei log :
  get_calendar_service = Ok tt ->
  date_parse start_time = Ok s ->
  date_parse end_time = Ok e ->
  get_localzone = Ok tz ->
  isoformat (ZCalendar.localize tz s) = Ok si ->
  isoformat (ZCalendar.localize tz e) = Ok ei ->
  events_list si ei = Ok {| items := Some events |} ->
  Exists lacks_dateTime events ->
  exists err,
    check start_time end_time log
    = (handled stdout "check_availability" error_message_check err,
       log ++ [GetCalendarService; EventsList si ei;
               PrintLine (error_line "check_availability" err)])
    /\ (stdout (error_line "check_availability" err) = Ok tt ->
        fst (check start_time end_time log) = Ok error_message_check)
    /\ (forall ev rest o,
          events = ev :: rest ->
          ev !! "start"%string = Some o -> o !! "dateTime"%string = None ->
          err = missing_dateTime_error)
    /\ (forall slots, fst (check start_time end_time log) <> Ok (slots_message slots)).
Proof.
  intros Hservice Hs He Htz Hsi Hei Hlist Hbad.
  destruct events as [| ev rest]; [inversion Hbad |].
  pose proof (check_availability_listed _ _ _ _ _ _ _ _ ev rest log
                Hservice Hs He Htz Hsi Hei Hlist eq_refl) as Hrun.
  destruct (zoned_for_each_event_lacking utcoffset_of date_parse (ev :: rest)
              {| ZSweep.available_slots := [];
                 ZSweep.current_time := ZCalendar.localize tz s |} Hbad)
    as [err Herr].
  rewrite Herr in Hrun. cbn [bind_result] in Hrun.
  exists err. split; [exact Hrun |]. split; [| split].
  - intros Hprint. rewrite Hrun. cbn [fst]. unfold handled. now rewrite Hprint.
  - intros ev' rest' o Heq Ho Hnone. inversion Heq; subst ev' rest'.
    rewrite (zoned_first_event_lacking _ _ _ _ _ _ Ho Hnone) in Herr.
    congruence.
  - intros slots. rewrite Hrun. cbn [fst]. unfold handled.
    destruct (stdout _); [| discriminate].
    unfold error_message_check, slots_message. cbn [String.append]. discriminate.
Qed.

(** [check_availability] asks for the service first, calls [events.list]
    at most once and [events.insert] never.  A run either ends in the
    handler, which prints one line and returns the error text unless
    [print] itself raises, or it prints nothing and returns one of the three
    availability texts: nothing but what [print] raised ever leaves the
    function. *)
Theorem check_availability_outcomes start_time end_time log :
  exists calls,
    snd (check start_time end_time log) = log ++ GetCalendarService :: calls
    /\ ((exists err,
           fst (check start_time end_time log)
           = handled stdout "check_availability" error_message_check err
           /\ (calls = [PrintLine (error_line "check_availability" err)]
               \/ exists timeMin timeMax,
                    calls = [EventsList timeMin timeMax;
                             PrintLine (error_line "check_availability" err)]))
        \/ (exists text,
              fst (check start_time end_time log) = Ok text
              /\ availability_text text
              /\ exists timeMin timeMax, calls = [EventsList timeMin timeMax])).
Proof.
  assert (Hfail : forall err calls,
            (calls = [] \/ exists timeMin timeMax, calls = [EventsList timeMin timeMax]) ->
            exists calls',
              snd (ZCalendar.report stdout "check_availability" error_message_check err
                     (log ++ GetCalendarService :: calls))
              = log ++ GetCalendarService :: calls'
              /\ ((exists err',
                     fst (ZCalendar.report stdout "check_availability" error_message_check
                            err (log ++ GetCalendarService :: calls))
                     = handled stdout "check_availability" error_message_check err'
                     /\ (calls' = [PrintLine (error_line "check_availability" err')]
                         \/ exists timeMin timeMax,
                              calls' = [EventsList timeMin timeMax;
                                        PrintLine (error_line "check_availability" err')]))
                  \/ (exists text,
                        fst (ZCalendar.report stdout "check_availability"
                               error_message_check err (log ++ GetCalendarService :: calls))
                        = Ok text
                        /\ availability_text text
                        /\ exists timeMin timeMax, calls' = [EventsList timeMin timeMax]))).
  { intros err calls Hcalls. rewrite report_handled. cbn [fst snd].
    exists (calls ++ [PrintLine (error_line "check_availability" err)]).
    split; [now rewrite <- app_assoc |].
    left. exists err. split; [reflexivity |].
    destruct Hcalls as [-> | (timeMin & timeMax & ->)]; [now left | right; eauto]. }
  unfold check, ZCalendar.check_availability, try_except, bind, perform, lift, ret.
  cbn beta iota.
  destruct get_calendar_service as [[] | err0].
  2: { replace (log ++ [GetCalendarService]) with (log ++ GetCalendarService :: [])
         by reflexivity. apply Hfail. now left. }
  destruct (date_parse start_time) as [s | err1].
  2: { apply (Hfail err1 []). now left. }
  destruct (date_parse end_time) as [e | err2].
  2: { apply (Hfail err2 []). now left. }
  destruct get_localzone as [tz | err3].
  2: { apply (Hfail err3 []). now left. }
  destruct (isoformat (ZCalendar.localize tz s)) as [si | err4].
  2: { apply (Hfail err4 []). now left. }
  destruct (isoformat (ZCalendar.localize tz e)) as [ei | err5].
  2: { apply (Hfail err5 []). now left. }
  assert (Hlog : (log ++ [GetCalendarService]) ++ [EventsList si ei]
                 = log ++ GetCalendarService :: [EventsList si ei])
    by now rewrite <- app_assoc.
  destruct (events_list si ei) as [r | err6].
  2: { rewrite Hlog. apply Hfail. right. eauto. }
  destruct (default [] (items r)) as [| ev events].
  { exists [EventsList si ei]. cbn [fst snd]. split; [exact Hlog |].
    right. eexists. split; [reflexivity |]. split; [| eauto]. right. left. eauto. }
  destruct (ZCalendar.for_each_event _ _ _ _) as [st1 | err7].
  2: { rewrite Hlog. apply Hfail. right. eauto. }
  destruct (ZSweep.emit_until _ _ _) as [st2 | err8].
  2: { rewrite Hlog. apply Hfail. right. eauto. }
  destruct (ZSweep.available_slots st2) as [| first others] eqn:Hslots.
  - exists [EventsList si ei]. cbn [fst snd]. split; [exact Hlog |].
    right. eexists. split; [reflexivity |]. split; [| eauto]. now left.
  - exists [EventsList si ei]. cbn [fst snd]. split; [exact Hlog |].
    right. eexists. split; [reflexivity |]. split; [| eauto]. right. right. eauto.
Qed.

End ZonedAvailability.

(** ** [book_appointment] *)

Section ZonedBooking.

Import Zoned ZTools ZProps.

Variable date_parse : string -> result datetime.
Variable get_localzone : result string.
Variable str_zone : string -> string.
Variable isoformat : datetime -> result string.
Variable strftime_A_B_d_I_M_p : datetime -> string.
Variable get_calendar_service : result unit.
Variable events_insert : event_body -> result (gmap string string).
Variable stdout : string -> result unit.

Let book := ZCalendar.book_appointment date_parse get_localzone str_zone isoformat
              strftime_A_B_d_I_M_p get_calendar_service events_insert stdout.

(** [book_appointment] asks for the service first, calls [events.insert]
    at most once and [events.list] never.  A run either ends in the handler,
    which prints one line and returns the error text unless [print] itself
    raises, or it prints nothing and reports success, with the summary it
    was given, after an insertion that returned: nothing but what [print]
    raised ever leaves the function. *)
Theorem book_appointment_outcomes start_time end_time summary description log :
  exists calls,
    snd (book start_time end_time summary description log)
    = log ++ GetCalendarService :: calls
    /\ ((exists err,
           fst (book start_time end_time summary description log)
           = handled stdout "book_appointment" error_message_book err
           /\ (calls = [PrintLine (error_line "book_appointment" err)]
               \/ exists body,
                    events_insert body = Err err
                    /\ calls = [EventsInsert body;
                                PrintLine (error_line "book_appointment" err)]))
        \/ (exists body created_event start_dt,
              events_insert body = Ok created_event
              /\ body_summary body = summary
              /\ body_description body = description
              /\ fst (book start_time end_time summary description log)
                 = Ok (ZCalendar.success_message strftime_A_B_d_I_M_p summary
                         start_dt created_event)
              /\ calls = [EventsInsert body])).
Proof.
  assert (Hfail : forall err,
            exists calls,
              snd (ZCalendar.report stdout "book_appointment" error_message_book err
                     (log ++ [GetCalendarService]))
              = log ++ GetCalendarService :: calls
              /\ ((exists err',
                     fst (ZCalendar.report stdout "book_appointment" error_message_book
                            err (log ++ [GetCalendarService]))
                     = handled stdout "book_appointment" error_message_book err'
                     /\ (calls = [PrintLine (error_line "book_appointment" err')]
                         \/ exists body,
                              events_insert body = Err err'
                              /\ calls = [EventsInsert body;
                                          PrintLine (error_line "book_appointment" err')]))
                  \/ (exists body created_event start_dt,
                        events_insert body = Ok created_event
                        /\ body_summary body = summary
                        /\ body_description body = description
                        /\ fst (ZCalendar.report stdout "book_appointment"
                                  error_message_book err (log ++ [GetCalendarService]))
                           = Ok (ZCalendar.success_message strftime_A_B_d_I_M_p summary
                                   start_dt created_event)
                        /\ calls = [EventsInsert body]))).
  { intros err. rewrite (report_handled stdout). cbn [fst snd].
    exists [PrintLine (error_line "book_appointment" err)].
    split; [now rewrite <- app_assoc |].
    left. exists err. split; [reflexivity | now left]. }
  unfold book, ZCalendar.book_appointment, try_except, bind, perform, lift, ret.
  cbn beta iota.
  destruct get_calendar_service as [[] | err0]; [| apply Hfail].
  destruct (date_parse start_time) as [s | err1]; [| apply Hfail].
  destruct (date_parse end_time) as [e | err2]; [| apply Hfail].
  destruct get_localzone as [tz | err3]; [| apply Hfail].
  destruct (isoformat (ZCalendar.localize tz s)) as [si | err4]; [| apply Hfail].
  destruct (isoformat (ZCalendar.localize tz e)) as [ei | err5]; [| apply Hfail].
  match goal with |- context [events_insert ?b] => set (body := b) end.
  destruct (events_insert body) as [created_event | err6] eqn:Hinsert.
  - exists [EventsInsert body]. cbn [fst snd]. split; [now rewrite <- app_assoc |].
    right. exists body, created_event, (ZCalendar.localize tz s).
    split; [exact Hinsert |]. now repeat split.
  - rewrite (report_handled stdout). cbn [fst snd].
    exists [EventsInsert body; PrintLine (error_line "book_appointment" err6)].
    split; [now rewrite <- !app_assoc |].
    left. exists err6. split; [reflexivity |]. right. eauto.
Qed.

(** When the service cannot be obtained or one of the two times does not
    parse, nothing is sent to the provider: the run ends in the handler,
    which prints the error and returns the error text unless [print] itself
    raises. *)
Theorem book_appointment_stops_before_insert
    start_time end_time summary description log :
  (exists err, get_calendar_service = Err err)
  \/ (exists err, date_parse start_time = Err err)
  \/ (exists err, date_parse end_time = Err err) ->
  exists err,
    book start_time end_time summary description log
    = (handled stdout "book_appointment" error_message_book err,
       log ++ [GetCalendarService; PrintLine (error_line "book_appointment" err)]).
Proof.
  intros Hbad.
  assert (Hfail : forall err,
            ZCalendar.report stdout "book_appointment" error_message_book err
              (log ++ [GetCalendarService])
            = (handled stdout "book_appointment" error_message_book err,
               log ++ [GetCalendarService;
                       PrintLine (error_line "book_appointment" err)])).
  { intros err. rewrite (report_handled stdout). now rewrite <- app_assoc. }
  unfold book, ZCalendar.book_appointment, try_except, bind, perform, lift, ret.
  cbn beta iota.
  destruct get_calendar_service as [[] | err0]; [| exists err0; apply Hfail].
  destruct Hbad as [[err Herr] | [[err Herr] | [err Herr]]]; [discriminate | |].
  - rewrite Herr. exists err. apply Hfail.
  - destruct (date_parse start_time) as [s | err1]; [| exists err1; apply Hfail].
    rewrite Herr. exists err. apply Hfail.
Qed.

End ZonedBooking.

(** ** The tools over zones on concrete collaborators *)

Section ZonedToolExamples.

Import Zoned ZTools ZProps ZFixture.

Lemma unparseable_time_print_raises_witness :
  let err := {| kind := ParserError;
                text := ("Unknown string format: " ++ manana)%string |} in
  (parse_on TODAY manana = Err err
   \/ ((exists s, parse_on TODAY manana = Ok s) /\ parse_on TODAY "12:00" = Err err))
  /\ ascii_stdout (error_line "check_availability" err) = Err encode_error
  /\ ZFixture.check TODAY utc [] manana "12:00" []
     = (Err encode_error,
        [GetCalendarService; PrintLine (error_line "check_availability" err)]).
Proof.
  set (err := {| kind := ParserError;
                 text := ("Unknown string format: " ++ manana)%string |}).
  assert (Hbad : parse_on TODAY manana = Err err
                 \/ ((exists s, parse_on TODAY manana = Ok s)
                     /\ parse_on TODAY "12:00" = Err err))
    by (left; reflexivity).
  assert (Hprint : ascii_stdout (error_line "check_availability" err) = Err encode_error)
    by reflexivity.
  split; [exact Hbad |]. split; [exact Hprint |].
  exact (unparseable_time_print_raises zones (parse_on TODAY) (Ok utc) clock_text
           (Ok tt) (calendar_with []) ascii_stdout manana "12:00" err encode_error []
           eq_refl Hbad Hprint).
Defined.

Lemma event_without_dateTime_error_witness :
  let events := [Fixture.all_day_event "2024-01-01";
                 Fixture.timed_event "09:30Z" "10:00Z"] in
  parse_on TODAY "09:00" = Ok {| wall := TODAY + 9 * HOUR; fold := false; tzinfo := None |}
  /\ parse_on TODAY "12:00" = Ok {| wall := TODAY + 12 * HOUR; fold := false; tzinfo := None |}
  /\ Exists lacks_dateTime events
  /\ ZFixture.check TODAY utc events "09:00" "12:00" []
     = (Ok error_message_check,
        [GetCalendarService; EventsList "09:00 AM" "12:00 PM";
         PrintLine "ERROR in check_availability: Parser must be a string or character stream, not NoneType"]).
Proof.
  set (events := [Fixture.all_day_event "2024-01-01";
                  Fixture.timed_event "09:30Z" "10:00Z"]).
  assert (Hbad : Exists lacks_dateTime events).
  { apply Exists_cons_hd. left.
    exists {[ "date"%string := "2024-01-01"%string ]}. split; reflexivity. }
  split; [reflexivity |]. split; [reflexivity |]. split; [exact Hbad |].
  destruct (event_without_dateTime_error zones (parse_on TODAY) (Ok utc) clock_text
              (Ok tt) (calendar_with events) ascii_stdout events "09:00" "12:00"
              {| wall := TODAY + 9 * HOUR; fold := false; tzinfo := None |}
              {| wall := TODAY + 12 * HOUR; fold := false; tzinfo := None |}
              utc "09:00 AM" "12:00 PM" []
              eq_refl eq_refl eq_refl eq_refl eq_refl eq_refl eq_refl Hbad)
    as (err & Hrun & _ & Hfirst & _).
  rewrite (Hfirst (Fixture.all_day_event "2024-01-01")
             [Fixture.timed_event "09:30Z" "10:00Z"]
             {[ "date"%string := "2024-01-01"%string ]}
             eq_refl eq_refl eq_refl) in Hrun.
  exact Hrun.
Defined.

Lemma check_availability_parsed_events_witness :
  let events := [Fixture.timed_event "07:30Z" "08:00Z"] in
  let busy := [(on_day MARCH_8 utc 7 30, on_day MARCH_8 utc 8 0)] in
  Forall2 (parses_to (parse_on MARCH_8)) events busy
  /\ ZSweep.free_slots zones (on_day MARCH_8 new_york 1 0) (on_day MARCH_8 new_york 4 0) busy
     = Ok [(on_day MARCH_8 new_york 1 0, on_day MARCH_8 new_york 2 0);
           (on_day MARCH_8 new_york 2 0, on_day MARCH_8 new_york 3 0)]
  /\ ZFixture.check MARCH_8 new_york events "01:00" "04:00" []
     = (Ok "Here are the available 1-hour slots: 01:00 AM - 02:00 AM, 02:00 AM - 03:00 AM. Please suggest these to the user."%string,
        [GetCalendarService; EventsList "01:00 AM" "04:00 AM"]).
Proof.
  set (events := [Fixture.timed_event "07:30Z" "08:00Z"]).
  set (busy := [(on_day MARCH_8 utc 7 30, on_day MARCH_8 utc 8 0)]).
  assert (Hparsed : Forall2 (parses_to (parse_on MARCH_8)) events busy).
  { constructor; [| constructor].
    exists {[ "dateTime"%string := "07:30Z"%string ]},
           {[ "dateTime"%string := "08:00Z"%string ]},
           "07:30Z"%string, "08:00Z"%string.
    repeat split; reflexivity. }
  split; [exact Hparsed |]. split; [vm_compute; reflexivity |].
  unfold ZFixture.check.
  rewrite (check_availability_parsed_events zones (parse_on MARCH_8) (Ok new_york)
             clock_text (Ok tt) (calendar_with events) ascii_stdout "01:00" "04:00"
             {| wall := MARCH_8 + 1 * HOUR; fold := false; tzinfo := None |}
             {| wall := MARCH_8 + 4 * HOUR; fold := false; tzinfo := None |}
             new_york "01:00 AM" "04:00 AM" {| items := Some events |}
             (Fixture.timed_event "07:30Z" "08:00Z") [] busy []
             eq_refl eq_refl eq_refl eq_refl eq_refl eq_refl eq_refl eq_refl Hparsed).
  vm_compute. reflexivity.
Defined.

Lemma book_appointment_stops_before_insert_witness :
  ((exists err, Ok tt = Err err :> result unit)
   \/ (exists err, parse_on TODAY "soon" = Err err)
   \/ (exists err, parse_on TODAY "12:00" = Err err))
  /\ exists err,
       ZFixture.book TODAY utc "soon" "12:00" "Sync" []
       = (handled ascii_stdout "book_appointment" error_message_book err,
          [GetCalendarService; PrintLine (error_line "book_appointment" err)]).
Proof.
  assert (Hbad : (exists err, Ok tt = Err err :> result unit)
                 \/ (exists err, parse_on TODAY "soon" = Err err)
                 \/ (exists err, parse_on TODAY "12:00" = Err err))
    by (right; left; eexists; reflexivity).
  split; [exact Hbad |].
  exact (book_appointment_stops_before_insert (parse_on TODAY) (Ok utc) (fun z => z)
           clock_text strftime_I_M_p (Ok tt) accept_insert ascii_stdout
           "soon" "12:00" "Sync" "" [] Hbad).
Defined.

(** The answers over zones: an unparseable time that standard output can
    take, the last day of the year 9999, and a booking with a time that
    standard output cannot take. *)
Example check_unparseable_ascii :
  ZFixture.check TODAY utc [] "soon" "12:00" []
  = (Ok error_message_check,
     [GetCalendarService;
      PrintLine "ERROR in check_availability: Unknown string format: soon"]).
Proof. vm_compute. reflexivity. Qed.

Example check_last_day :
  ZFixture.check LAST_DAY utc [Fixture.timed_event "22:10Z" "22:20Z"] "22:00" "23:30" []
  = (Ok error_message_check,
     [GetCalendarService; EventsList "10:00 PM" "11:30 PM";
      PrintLine "ERROR in check_availability: date value out of range"]).
Proof. vm_compute. reflexivity. Qed.

Example book_unparseable_print_raises :
  ZFixture.book TODAY utc manana "12:00" "Sync" []
  = (Err encode_error,
     [GetCalendarService;
      PrintLine ("ERROR in book_appointment: Unknown string format: " ++ manana)]).
Proof. vm_compute. reflexivity. Qed.

End ZonedToolExamples.
